(** * Post-auction event matcher (rtbkit/core/post_auction/event_matcher.cc)

    A shallow embedding of [EventMatcher]: the two pending maps, the banker
    and outcome-sink calls recorded on a trace, and the member functions
    [checkExpiredAuctions], [doEvent], [doAuction], [doWinLoss],
    [doCampaignEvent] and [doBidResult], written in a small state and
    exception monad.

    Conventions of the model.
    - A [Date] is a number of milliseconds; [Date()] (not a date) only occurs
      as the value returned by the expiry visitors and is modelled by [None].
    - The wall clock: one reading [now] is supplied per entry point and every
      [Date::now()] inside that call returns it.
    - Calls on the banker, on the outcome sinks and on the event recorder are
      appended, in program order, to the [trace] of the state.
    - A C++ exception is the [Exc] result of the monad; the state reached at
      the [throw] is kept, as the C++ objects keep their mutations. *)

From Stdlib Require Import ZArith String List Permutation.
From Stdlib Require Import Ascii.
From stdpp Require Import gmap strings list fin_maps sorting.

Local Open Scope string_scope.
Local Open Scope Z_scope.
Local Open Scope list_scope.

(** ** Identifiers, dates, money *)

(** Modelled from the spec: the [Id] type (declared outside this file) is an
    opaque identifier with equality and a string form; the null identifier
    [Id()] is the empty string and [!id] tests for it. *)
Abbreviation Id := string (only parsing).
Definition nullId : Id := "".
Definition isNull (id : Id) : bool := bool_decide (id = nullId).

Abbreviation Date := Z (only parsing).
Abbreviation MatchKey := (string * string)%type (only parsing).

(** [Date::plusSeconds] on millisecond dates. *)
Definition plusSeconds (d : Date) (secs : Z) : Date := d + 1000 * secs.

Module Amount.
(** Modelled from the spec: an [Amount] is a (value, currency) pair with
    comparison; [Amount()] is the zero amount without currency. *)
Record t := mk { value : Z; currencyCode : string }.
Definition zero : t := mk 0 "".
Definition eqb (a b : t) : bool :=
  (value a =? value b) && bool_decide (currencyCode a = currencyCode b).
Definition gtb (a b : t) : bool := value a >? value b.
Definition getCurrencyStr (a : t) : string := currencyCode a.
End Amount.

(** Modelled from the spec: an [AccountKey] (declared outside this file) is a
    hierarchical account path; [account.size() == 0] and [account.empty()]
    hold of the empty path, and [toString(sep)] joins its parts. *)
Abbreviation AccountKey := (list string) (only parsing).

Fixpoint AccountKey_toString (sep : string) (a : AccountKey) : string :=
  match a with
  | [] => ""
  | [x] => x
  | x :: rest => x +:+ sep +:+ AccountKey_toString sep rest
  end.

Abbreviation UserIds := (list string) (only parsing).

Definition makeBidId (auctionId spotId : Id) (agent : string) : string :=
  auctionId +:+ "-" +:+ spotId +:+ "-" +:+ agent.

(** ** Bid requests and responses *)

Module BidRequest.
(** Modelled from the spec: of a bid request the matcher only uses
    [findAdSpotIndex], the position of an ad spot in the request or -1. *)
Record t := mk { spots : list Id }.

Fixpoint indexFrom (i : Z) (l : list Id) (id : Id) : Z :=
  match l with
  | [] => -1
  | x :: rest => if bool_decide (x = id) then i else indexFrom (i + 1) rest id
  end.

Definition findAdSpotIndex (br : t) (id : Id) : Z := indexFrom 0 (spots br) id.
End BidRequest.

Module WinCostModel.
(** Modelled from the spec: the win-cost model of a response (declared outside
    this file), a name with its data; its evaluation is a collaborator of the
    matcher, see [Config]. *)
Record t := mk { name : string; data : gmap string string }.
(** [wcm.data["win"] = meta] *)
Definition setData (k v : string) (w : t) : t := mk (name w) (<[k := v]> (data w)).
End WinCostModel.

Module Price.
(** Modelled from the spec: the price of a response, [maxPrice] and
    [priority] (declared outside this file). *)
Record t := mk { maxPrice : Amount.t; priority : Z }.
End Price.

Module Response.
(** Modelled from the spec: [Auction::Response] (declared outside this file),
    the bid as it was sent: agent, account, price, win-cost model, bid
    payload and visit channels (section 3). *)
Record t := mk {
  agent : string;
  account : AccountKey;
  price : Price.t;
  wcm : WinCostModel.t;
  bidData : string;
  visitChannels : list string
}.
Definition empty : t :=
  mk "" [] (Price.mk Amount.zero 0) (WinCostModel.mk "" ∅) "" [].
End Response.

(** ** Inbound events *)

(** Modelled from the spec: the event kinds of section 6 (declared outside
    this file); [PAE_INVALID] stands for any other value of the enumeration,
    which [doEvent] rejects. *)
Inductive PostAuctionEventType := PAE_INVALID | PAE_WIN | PAE_LOSS | PAE_CAMPAIGN_EVENT.

#[global] Instance PostAuctionEventType_eq_dec : EqDecision PostAuctionEventType.
Proof. solve_decision. Defined.

(** Modelled from the spec: [print] (declared outside this file) gives the
    type string used in counter names, such as [bidResult.WIN.duplicate]. *)
Definition print (t : PostAuctionEventType) : string :=
  match t with
  | PAE_INVALID => "INVALID"
  | PAE_WIN => "WIN"
  | PAE_LOSS => "LOSS"
  | PAE_CAMPAIGN_EVENT => "EVENT"
  end.

(** Modelled from the spec: the reported status of a bid, WIN or LOSS
    (declared outside this file). *)
Inductive BidStatus := BS_WIN | BS_LOSS.

#[global] Instance BidStatus_eq_dec : EqDecision BidStatus.
Proof. solve_decision. Defined.

Module PostAuctionEvent.
(** Modelled from the spec: [PostAuctionEvent] (declared outside this file)
    with the fields of section 6; an optional account is the empty path. *)
Record t := mk {
  type : PostAuctionEventType;
  auctionId : Id;
  adSpotId : Id;
  label : string;
  winPrice : Amount.t;
  timestamp : Date;
  bidTimestamp : Date;
  metadata : string;
  uids : UserIds;
  account : AccountKey
}.
End PostAuctionEvent.

Module SubmittedAuctionEvent.
(** Modelled from the spec: the declaration is outside this file, with the
    fields of section 6.  [bidRequest] is a pointer, which [doAuction] copies
    without testing it (line 174): it may be null. *)
Record t := mk {
  auctionId : Id;
  adSpotId : Id;
  lossTimeout : Date;
  bidRequest : option BidRequest.t;
  bidRequestStr : string;
  bidRequestStrFormat : string;
  augmentations : string;
  bidResponse : Response.t
}.
End SubmittedAuctionEvent.

(** ** Entries of the pending maps *)

Module SubmissionInfo.
(** Modelled from the spec: [SubmissionInfo] (declared outside this file)
    with the fields of section 3; [bidRequest] is a pointer that may be
    null. *)
Record t := mk {
  bidRequest : option BidRequest.t;
  bidRequestStr : string;
  bidRequestStrFormat : string;
  augmentations : string;
  bid : Response.t;
  earlyWinEvents : list PostAuctionEvent.t;
  earlyCampaignEvents : list PostAuctionEvent.t
}.
(** a default-constructed [SubmissionInfo] *)
Definition empty : t := mk None "" "" "" Response.empty [] [].

Definition set_earlyWinEvents (l : list PostAuctionEvent.t) (i : t) : t :=
  mk (bidRequest i) (bidRequestStr i) (bidRequestStrFormat i) (augmentations i)
     (bid i) l (earlyCampaignEvents i).
Definition set_earlyCampaignEvents (l : list PostAuctionEvent.t) (i : t) : t :=
  mk (bidRequest i) (bidRequestStr i) (bidRequestStrFormat i) (augmentations i)
     (bid i) (earlyWinEvents i) l.
End SubmissionInfo.

Module FinishedInfo.
(** Modelled from the spec: [FinishedInfo] and its methods [hasWin],
    [setWin], [forceWin], [addUids] and the [campaignEvents] container are
    declared outside this file.  [winTime] is the time of the recorded
    result; [hasWin] holds once [setWin] or [forceWin] has recorded one. *)
Record t := mk {
  auctionId : Id;
  adSpotId : Id;
  spotIndex : Z;
  bidRequest : option BidRequest.t;
  bidRequestStr : string;
  bidRequestStrFormat : string;
  bid : Response.t;
  reportedStatus : BidStatus;
  winTime : option Date;
  price : Amount.t;
  winPrice : Amount.t;
  winMeta : string;
  campaignEvents : gmap string (Date * string);
  uids : gset string;
  visitChannels : list string
}.

Definition hasWin (i : t) : bool := bool_decide (is_Some (winTime i)).

Definition setWin (ts : Date) (st : BidStatus) (p wp : Amount.t) (meta : string) (i : t) : t :=
  mk (auctionId i) (adSpotId i) (spotIndex i) (bidRequest i) (bidRequestStr i)
     (bidRequestStrFormat i) (bid i) st (Some ts) p wp meta
     (campaignEvents i) (uids i) (visitChannels i).

Definition forceWin (ts : Date) (wp : Amount.t) (meta : string) (i : t) : t :=
  mk (auctionId i) (adSpotId i) (spotIndex i) (bidRequest i) (bidRequestStr i)
     (bidRequestStrFormat i) (bid i) BS_WIN (Some ts) (price i) wp meta
     (campaignEvents i) (uids i) (visitChannels i).

Definition addUids (u : UserIds) (i : t) : t :=
  mk (auctionId i) (adSpotId i) (spotIndex i) (bidRequest i) (bidRequestStr i)
     (bidRequestStrFormat i) (bid i) (reportedStatus i) (winTime i) (price i)
     (winPrice i) (winMeta i) (campaignEvents i) (uids i ∪ list_to_set u)
     (visitChannels i).

Definition hasEvent (l : string) (i : t) : bool :=
  bool_decide (is_Some (campaignEvents i !! l)).

Definition setEvent (l : string) (ts : Date) (meta : string) (i : t) : t :=
  mk (auctionId i) (adSpotId i) (spotIndex i) (bidRequest i) (bidRequestStr i)
     (bidRequestStrFormat i) (bid i) (reportedStatus i) (winTime i) (price i)
     (winPrice i) (winMeta i) (<[l := (ts, meta)]> (campaignEvents i)) (uids i)
     (visitChannels i).

Definition set_visitChannels (c : list string) (i : t) : t :=
  mk (auctionId i) (adSpotId i) (spotIndex i) (bidRequest i) (bidRequestStr i)
     (bidRequestStrFormat i) (bid i) (reportedStatus i) (winTime i) (price i)
     (winPrice i) (winMeta i) (campaignEvents i) (uids i) c.
End FinishedInfo.

(** ** Outbound outcomes, banker calls, telemetry *)

(** Modelled from the spec: the outcomes of section 6 (declared outside this
    file). *)
Inductive Confidence := Guaranteed | Inferred.
Inductive MatchedType := Win | Loss | LateWin.

Module MatchedWinLoss.
Record t := mk {
  type : MatchedType;
  confidence : Confidence;
  info : FinishedInfo.t;
  timestamp : Date;
  uids : UserIds
}.
(** the constructor taking the event: time and user ids come from it *)
Definition ofEvent (ty : MatchedType) (c : Confidence)
    (ev : PostAuctionEvent.t) (i : FinishedInfo.t) : t :=
  mk ty c i (PostAuctionEvent.timestamp ev) (PostAuctionEvent.uids ev).
End MatchedWinLoss.

Inductive Outcome :=
| MatchedWinLossOutcome (m : MatchedWinLoss.t)
| MatchedCampaignEvent (label : string) (info : FinishedInfo.t)
| UnmatchedEvent (reason : string) (event : PostAuctionEvent.t).

(** Modelled from the spec: the banker interface of section 6 (declared
    outside this file), one constructor for each call with its arguments
    (line items are always empty). *)
Inductive BankerCall :=
| AttachBid (account : AccountKey) (bidId : string) (maxPrice : Amount.t)
| WinBid (account : AccountKey) (bidId : string) (price : Amount.t)
| ForceWinBid (account : AccountKey) (winPrice : Amount.t)
| CancelBid (account : AccountKey) (bidId : string)
| LogBidEvents.

(** What the matcher does to its collaborators: the telemetry calls
    [recordHit], [recordOutcome] and [doError] of section 6 (the counter name
    with its arguments filled in), the banker calls and the outcomes
    delivered to a sink. *)
Inductive Effect :=
| RecordHit (name : string)
| RecordOutcome (value : Z) (name : string)
| DoError (scope message : string)
| Banker (call : BankerCall)
| Sink (outcome : Outcome).

(** The banker calls on a trace, the financial commits among them, and the
    outcomes delivered to the sinks. *)
Definition bankerCalls (tr : list Effect) : list BankerCall :=
  omap (λ e, match e with Banker c => Some c | _ => None end) tr.

Definition isCommit (c : BankerCall) : bool :=
  match c with
  | WinBid _ _ _ | ForceWinBid _ _ | CancelBid _ _ => true
  | AttachBid _ _ _ | LogBidEvents => false
  end.

Definition commits (tr : list Effect) : list BankerCall :=
  List.filter isCommit (bankerCalls tr).

Definition outcomes (tr : list Effect) : list Outcome :=
  omap (λ e, match e with Sink o => Some o | _ => None end) tr.

(** ** The pending list *)

Module PendingList.
Section defs.
(** Modelled from the spec: [PendingList] (declared outside this file) is a
    map from match keys to a value with an absolute expiry time, section 4.1.
    [get], [pop] and [update] are only called on stored keys.  What [insert]
    does on a key that is already stored is not specified; here it replaces
    the entry. *)
Context {V : Type}.
Implicit Types (m : gmap (string * string) (V * Z)) (key : string * string).

Definition count m key : bool := bool_decide (is_Some (m !! key)).
Definition get m key : option V := fst <$> (m !! key).
Definition pop m key : gmap (string * string) (V * Z) := delete key m.
Definition update m key (v : V) : gmap (string * string) (V * Z) :=
  match m !! key with
  | Some (_, expiry) => <[key := (v, expiry)]> m
  | None => m
  end.

(** the smaller of two keys by ad spot *)
Definition minSpot (a b : string * string) : string * string :=
  if String.ltb b.2 a.2 then b else a.

(** [completePrefix (auctionId, Id())]: the stored key of that auction with
    the smallest ad spot; the null key when there is none. *)
Definition completePrefix m key : string * string :=
  match List.filter (λ k, bool_decide (k.1 = key.1)) (map_to_list m).*1 with
  | [] => (nullId, nullId)
  | k :: rest => foldr minSpot k rest
  end.

Definition byExpiry (a b : (string * string) * (V * Z)) : Prop := a.2.2 ≤ b.2.2.
#[global] Instance byExpiry_dec a b : Decision (byExpiry a b) :=
  Z_le_dec a.2.2 b.2.2.

(** the entries that [expire] visits at [now], by non-decreasing expiry *)
Definition expired m (now : Z) : list ((string * string) * (V * Z)) :=
  merge_sort byExpiry
    (List.filter (λ e, bool_decide (e.2.2 ≤ now)) (map_to_list m)).

(** what [expire] does with a visited entry: [None] from the visitor
    removes it, a date reinserts it with that expiry *)
Definition afterVisit m key (r : option Z) : gmap (string * string) (V * Z) :=
  match r, m !! key with
  | Some expiry, Some (v, _) => <[key := (v, expiry)]> m
  | _, _ => delete key m
  end.

Definition insert m key (v : V) (expiry : Z) : gmap (string * string) (V * Z) :=
  <[key := (v, expiry)]> m.
End defs.
End PendingList.

(** [findAuction] with the ad spot passed by reference: the result carries
    the (possibly completed) ad spot and the value when found. *)
Definition findAuction {V} (pending : gmap (string * string) (V * Z))
    (auctionId adSpotId : Id) : Id * option V :=
  let key := (auctionId, adSpotId) in
  let '(adSpotId, key, ok) :=
    if isNull adSpotId then
      let key2 := PendingList.completePrefix pending key in
      if bool_decide (key2.1 = auctionId) then (key2.2, key2, true)
      else (adSpotId, key, false)
    else (adSpotId, key, true) in
  if negb ok then (adSpotId, None)
  else if negb (PendingList.count pending key) then (adSpotId, None)
  else (adSpotId, PendingList.get pending key).

(** ** Matcher state and the monad of its member functions *)

Record State := mkState {
  submitted : gmap (string * string) (SubmissionInfo.t * Z);
  finished : gmap (string * string) (FinishedInfo.t * Z);
  numWins : Z;
  numLosses : Z;
  numCampaignEvents : Z;
  trace : list Effect
}.

Definition initial : State := mkState ∅ ∅ 0 0 0 [].

Definition set_submitted (m : gmap (string * string) (SubmissionInfo.t * Z)) (s : State) : State :=
  mkState m (finished s) (numWins s) (numLosses s) (numCampaignEvents s) (trace s).
Definition set_finished (m : gmap (string * string) (FinishedInfo.t * Z)) (s : State) : State :=
  mkState (submitted s) m (numWins s) (numLosses s) (numCampaignEvents s) (trace s).
Definition inc_numWins (s : State) : State :=
  mkState (submitted s) (finished s) (numWins s + 1) (numLosses s) (numCampaignEvents s) (trace s).
Definition inc_numLosses (s : State) : State :=
  mkState (submitted s) (finished s) (numWins s) (numLosses s + 1) (numCampaignEvents s) (trace s).
Definition inc_numCampaignEvents (s : State) : State :=
  mkState (submitted s) (finished s) (numWins s) (numLosses s) (numCampaignEvents s + 1) (trace s).
Definition log (e : Effect) (s : State) : State :=
  mkState (submitted s) (finished s) (numWins s) (numLosses s) (numCampaignEvents s)
          (trace s ++ [e]).

Inductive Res (A : Type) :=
| Ok (a : A)
| Exc (what : string).
Arguments Ok {A} a.
Arguments Exc {A} what.

Definition M (A : Type) : Type := State → Res A * State.

Definition ret {A} (a : A) : M A := λ s, (Ok a, s).
Definition bind {A B} (c : M A) (k : A → M B) : M B :=
  λ s, match c s with
       | (Ok a, s') => k a s'
       | (Exc w, s') => (Exc w, s')
       end.
Definition throw {A} (what : string) : M A := λ s, (Exc what, s).
Definition getState : M State := λ s, (Ok s, s).
Definition modify (f : State → State) : M unit := λ s, (Ok tt, f s).
Definition when (b : bool) (c : M unit) : M unit := if b then c else ret tt.

#[global] Instance M_ret : MRet M := @ret.
#[global] Instance M_bind : MBind M := λ A B k c, bind c k.

(** [try { c } catch (const std::exception & exc) { h exc.what() }] *)
Definition tryCatch (c : M unit) (h : string → M unit) : M unit :=
  λ s, match c s with
       | (Ok _, s') => (Ok tt, s')
       | (Exc w, s') => h w s'
       end.

(** [ML::Call_Guard]: [release] runs when the scope is left with the guard
    still armed.  [onUnwind release c] is a region that the guard covers and
    that is left normally with the guard armed no longer ([guard.clear()]
    follows it): [release] runs only when [c] throws.  [atScopeExit release c]
    is a scope that the guard covers to its end: [release] runs on the normal
    and on the exceptional exit. *)
Definition onUnwind {A} (release : M unit) (c : M A) : M A :=
  λ s, match c s with
       | (Ok a, s') => (Ok a, s')
       | (Exc w, s') => (Exc w, snd (release s'))
       end.
Definition atScopeExit {A} (release : M unit) (c : M A) : M A :=
  λ s, let '(r, s') := c s in (r, snd (release s')).

Fixpoint forEach {A} (f : A → M unit) (l : list A) : M unit :=
  match l with
  | [] => ret tt
  | x :: rest => f x;; forEach f rest
  end.

Definition recordHit (name : string) : M unit := modify (log (RecordHit name)).
Definition recordOutcome (value : Z) (name : string) : M unit :=
  modify (log (RecordOutcome value name)).
Definition doError (scope message : string) : M unit :=
  modify (log (DoError scope message)).
Definition banker (c : BankerCall) : M unit := modify (log (Banker c)).

(** ** The matcher *)

(** The members that the matcher reads and never writes, and the
    collaborators declared outside this file.
    - [winTimeout], [auctionTimeout]: retention of finished entries, seconds.
    - [onMatchedWinLoss], [onMatchedCampaignEvent], [onUnmatchedEvent]:
      whether each outcome sink holds a function.
    - [evaluate wcm bidData spot winPrice]: the price charged, that is
      [wcm.evaluate(Bids::fromJson(bidData).bidForSpot(spot), winPrice)];
      [None] when one of these calls throws.
    - [Amount_toString]: the printed form of an amount.
    - [roundsBelow now bidTimestamp]: the rounding of the time gap of two
      dates that lie exactly [lossTimeout] apart, see [timeGapBelow]. *)
Record Config := mkConfig {
  winTimeout : Z;
  auctionTimeout : Z;
  onMatchedWinLoss : bool;
  onMatchedCampaignEvent : bool;
  onUnmatchedEvent : bool;
  evaluate : WinCostModel.t → string → Z → Amount.t → option Amount.t;
  Amount_toString : Amount.t → string;
  roundsBelow : Z → Z → bool
}.

(** Modelled from the spec: the sinks are optional functions (section 9);
    calling a sink that holds a function delivers the outcome, calling an
    empty one raises, as an empty [std::function] does. *)
Definition callSink (present : bool) (o : Outcome) : M unit :=
  if present then modify (log (Sink o)) else throw "bad_function_call".

(** Modelled from the spec: [throwException] (declared outside this file)
    raises the fatal per-event exception. *)
Definition throwException {A} (key message : string) : M A := throw message.

(** [lossTimeout] of [doWinLoss], seconds *)
Definition lossTimeout : Z := 15.

(** [1000.0 * Date::now().secondsSince(bidTimestamp)], to the millisecond *)
Definition getTimeGapMs (now bidTimestamp : Z) : Z := now - bidTimestamp.

(** [timeGapMs < bound] as line 311 evaluates it.  The source holds its dates
    as doubles of seconds and computes the gap in double: the result is off
    the gap of the millisecond dates by far less than a millisecond, so that
    the test is the exact one unless the dates lie exactly [bound] apart;
    there the rounding of the two dates decides, and the gap computed can
    fall below the bound ([roundsBelow]) or not. *)
Definition timeGapBelow (cfg : Config) (now bidTimestamp bound : Z) : bool :=
  let gap := getTimeGapMs now bidTimestamp in
  (gap <? bound) || ((gap =? bound) && roundsBelow cfg now bidTimestamp).

(** The [FinishedInfo] that [doBidResult] builds (lines 548 to 562). *)
Definition finishedInfoOf (auctionId adSpotId : Id) (adspot_num : Z)
    (submission : SubmissionInfo.t) (status : BidStatus) (timestamp : Z)
    (price winPrice : Amount.t) (winLossMeta : string) (uids : UserIds) : FinishedInfo.t :=
  let response := SubmissionInfo.bid submission in
  let i := FinishedInfo.mk auctionId adSpotId adspot_num
             (SubmissionInfo.bidRequest submission)
             (SubmissionInfo.bidRequestStr submission)
             (SubmissionInfo.bidRequestStrFormat submission)
             response status None Amount.zero Amount.zero "" ∅ ∅ [] in
  let i := FinishedInfo.setWin timestamp status price winPrice winLossMeta i in
  let i := FinishedInfo.addUids uids i in
  FinishedInfo.set_visitChannels (Response.visitChannels response) i.

(** [bidPrice == Amount() && response.price.priority == 0] *)
Definition isNoBid (response : Response.t) : bool :=
  Amount.eqb (Price.maxPrice (Response.price response)) Amount.zero
  && (Price.priority (Response.price response) =? 0).

Section EventMatcher.
Variable cfg : Config.

(** [BidStatus] has the two values that the callers pass, so the branch
    [throw "submitted non win/loss"] has no counterpart.  The callers pass a
    submission whose [bidRequest] is present; the model raises where the
    C++ would dereference a null pointer.  The confidence parameter has no
    name in the source; line 569 uses the value that was passed. *)
Definition doBidResult (now : Z) (auctionId adSpotId : Id)
    (submission : SubmissionInfo.t) (winPrice : Amount.t) (timestamp : Z)
    (status : BidStatus) (confidence : Confidence) (winLossMeta : string)
    (uids : UserIds) : M unit :=
  when (isNull adSpotId) (throw "inserting null entry in finished map");;
  let agent := Response.agent (SubmissionInfo.bid submission) in
  match SubmissionInfo.bidRequest submission with
  | None => throw "null bid request"
  | Some bidRequest =>
    let adspot_num := BidRequest.findAdSpotIndex bidRequest adSpotId in
    when (adspot_num =? -1)
      (doError "doBidResult.adSpotIdNotFound"
         ("adspot ID " +:+ adSpotId +:+ " not found in auction "
          +:+ SubmissionInfo.bidRequestStr submission));;
    let response := SubmissionInfo.bid submission in
    let account := Response.account response in
    when (bool_decide (length account = 0%nat)) (throw "invalid account key");;
    let bidPrice := Price.maxPrice (Response.price response) in
    when (Amount.gtb winPrice bidPrice)
      (doError "doBidResult.winPriceExceedsBidPrice"
         ("win price " +:+ Amount_toString cfg winPrice
          +:+ " exceeds bid price " +:+ Amount_toString cfg bidPrice));;
    (* Make sure we account for the bid no matter what *)
    let guard := banker (CancelBid account (makeBidId auctionId adSpotId agent)) in
    (* No bid *)
    let noBid : M unit :=
      when (isNoBid response)
        (throwException "doBidResult.responseadNoBidPrice"
           "bid response had no bid price") in
    (* Finally, place it in the finished queue *)
    let finish (price : Amount.t) : M unit :=
      let i := finishedInfoOf auctionId adSpotId adspot_num submission status
                 timestamp price winPrice winLossMeta uids in
      when (onMatchedWinLoss cfg)
        (let matchedType := match status with BS_WIN => Win | BS_LOSS => Loss end in
         callSink (onMatchedWinLoss cfg)
           (MatchedWinLossOutcome
              (MatchedWinLoss.mk matchedType confidence i timestamp uids)));;
      let expiryInterval :=
        match status with BS_LOSS => auctionTimeout cfg | BS_WIN => winTimeout cfg end in
      let expiryTime := plusSeconds now expiryInterval in
      modify (λ s, set_finished
                     (PendingList.insert (finished s) (auctionId, adSpotId) i expiryTime) s) in
    match status with
    | BS_WIN =>
      price ← onUnwind guard
        (noBid;;
         let wcm := WinCostModel.setData "win" winLossMeta (Response.wcm response) in
         match evaluate cfg wcm (Response.bidData response) adspot_num winPrice with
         | None => throw "win cost model"
         | Some price =>
           recordOutcome (Amount.value winPrice)
             ("accounts." +:+ AccountKey_toString "." account +:+ ".winPrice."
              +:+ Amount.getCurrencyStr winPrice);;
           recordOutcome (Amount.value price)
             ("accounts." +:+ AccountKey_toString "." account +:+ ".winCostPrice."
              +:+ Amount.getCurrencyStr price);;
           mret price
         end);
      (* This is a real win: guard.clear() *)
      banker (WinBid account (makeBidId auctionId adSpotId agent) price);;
      finish price
    | BS_LOSS =>
      atScopeExit guard (noBid;; finish winPrice)
    end
  end.

Definition doCampaignEvent (event : PostAuctionEvent.t) : M unit :=
  let label := PostAuctionEvent.label event in
  let auctionId := PostAuctionEvent.auctionId event in
  let adSpotId := PostAuctionEvent.adSpotId event in
  let timestamp := PostAuctionEvent.timestamp event in
  let meta := PostAuctionEvent.metadata event in
  let uids := PostAuctionEvent.uids event in
  when (negb (bool_decide (PostAuctionEvent.type event = PAE_CAMPAIGN_EVENT)))
    (throw ("event type must be PAE_CAMPAIGN_EVENT: "
            +:+ print (PostAuctionEvent.type event)));;
  recordHit ("delivery.EVENT." +:+ label +:+ ".messagesReceived");;
  let recordUnmatched (why : string) : M unit :=
    callSink (onUnmatchedEvent cfg) (UnmatchedEvent why event) in
  s ← getState;
  match findAuction (submitted s) auctionId adSpotId with
  | (adSpotId, Some submissionInfo) =>
    recordHit ("delivery." +:+ label +:+ ".stillInFlight");;
    doError ("doCampaignEvent.auctionNotWon" +:+ label)
      "message for auction that's not won";;
    recordUnmatched "inFlight";;
    let submissionInfo :=
      SubmissionInfo.set_earlyCampaignEvents
        (SubmissionInfo.earlyCampaignEvents submissionInfo ++ [event]) submissionInfo in
    modify (λ s, set_submitted
                   (PendingList.update (submitted s) (auctionId, adSpotId) submissionInfo) s)
  | (adSpotId, None) =>
    match findAuction (finished s) auctionId adSpotId with
    | (adSpotId, Some finishedInfo) =>
      if FinishedInfo.hasEvent label finishedInfo then
        recordHit ("delivery." +:+ label +:+ ".duplicate");;
        doError ("doCampaignEvent.duplicate" +:+ label) "message duplicated";;
        recordUnmatched "duplicate"
      else
        let finishedInfo := FinishedInfo.setEvent label timestamp meta finishedInfo in
        modify inc_numCampaignEvents;;
        recordHit ("delivery." +:+ label +:+ ".account."
                   +:+ AccountKey_toString ":" (Response.account (FinishedInfo.bid finishedInfo))
                   +:+ ".matched");;
        let key := (auctionId, adSpotId) in
        when (isNull key.2) (throw "updating null entry in finished map");;
        let finishedInfo := FinishedInfo.addUids uids finishedInfo in
        modify (λ s, set_finished (PendingList.update (finished s) key finishedInfo) s);;
        when (onMatchedCampaignEvent cfg)
          (callSink (onMatchedCampaignEvent cfg) (MatchedCampaignEvent label finishedInfo))
    | (_, None) =>
      recordHit ("delivery." +:+ label +:+ ".auctionNotFound");;
      doError ("doCampaignEvent.auctionNotFound" +:+ label)
        "auction not found for delivery message";;
      recordUnmatched "auctionNotFound"
    end
  end.

(** [finished.count(key)] with [finished.get(key)], and
    [submitted.count(key)] with [submitted.pop(key)], are each one lookup. *)
Definition doWinLoss (now : Z) (event : PostAuctionEvent.t) (isReplay : bool) : M unit :=
  status ←
    (if bool_decide (PostAuctionEvent.type event = PAE_WIN) then
       modify inc_numWins;; recordHit "processedWin";; mret BS_WIN
     else
       modify inc_numLosses;; recordHit "processedLoss";; mret BS_LOSS);
  let typeStr := print (PostAuctionEvent.type event) in
  (if negb isReplay then recordHit ("bidResult." +:+ typeStr +:+ ".messagesReceived")
   else recordHit ("bidResult." +:+ typeStr +:+ ".messagesReplayed"));;
  let auctionId := PostAuctionEvent.auctionId event in
  let adSpotId := PostAuctionEvent.adSpotId event in
  let winPrice := PostAuctionEvent.winPrice event in
  let timestamp := PostAuctionEvent.timestamp event in
  let meta := PostAuctionEvent.metadata event in
  let uids := PostAuctionEvent.uids event in
  let bidTimestamp := PostAuctionEvent.bidTimestamp event in
  let key := (auctionId, adSpotId) in
  s ← getState;
  match finished s !! key with
  | Some (info, _) =>
    if FinishedInfo.hasWin info
       && bool_decide (status = FinishedInfo.reportedStatus info) then
      if Amount.eqb winPrice (FinishedInfo.winPrice info) then
        recordHit ("bidResult." +:+ typeStr +:+ ".duplicate")
      else
        recordHit ("bidResult." +:+ typeStr +:+ ".duplicateWithDifferentPrice")
    else
      recordHit ("bidResult." +:+ typeStr +:+ ".auctionAlreadyFinished");;
      let timeGapMs := getTimeGapMs now bidTimestamp in
      recordOutcome timeGapMs
        ("bidResult." +:+ typeStr +:+ ".alreadyFinishedTimeSinceBidSubmittedMs");;
      if bool_decide (PostAuctionEvent.type event = PAE_WIN) then
        (* Late win with auction still around *)
        banker (ForceWinBid (Response.account (FinishedInfo.bid info)) winPrice);;
        let info := FinishedInfo.forceWin timestamp winPrice meta info in
        modify (λ s, set_finished (PendingList.update (finished s) key info) s);;
        when (onMatchedWinLoss cfg)
          (callSink (onMatchedWinLoss cfg)
             (MatchedWinLossOutcome
                (MatchedWinLoss.ofEvent LateWin Guaranteed event info)));;
        recordHit ("bidResult." +:+ typeStr +:+ ".winAfterLossAssumed");;
        recordOutcome (Amount.value winPrice)
          ("bidResult." +:+ typeStr +:+ ".winAfterLossAssumedAmount."
           +:+ Amount.getCurrencyStr winPrice)
      else mret tt
  | None =>
    match submitted s !! key with
    | None =>
      let timeGapMs := getTimeGapMs now bidTimestamp in
      if timeGapBelow cfg now bidTimestamp (lossTimeout * 1000) then
        recordHit ("bidResult." +:+ typeStr +:+ ".noBidSubmitted");;
        (* We record the win message here and play it back once we submit
           the auction. *)
        let info := SubmissionInfo.set_earlyWinEvents [event] SubmissionInfo.empty in
        modify (λ s, set_submitted
                       (PendingList.insert (submitted s) key info
                          (plusSeconds now lossTimeout)) s)
      else
        let account := PostAuctionEvent.account event in
        recordHit ("bidResult." +:+ typeStr +:+ ".notInSubmitted");;
        recordOutcome timeGapMs
          ("bidResult." +:+ typeStr +:+ ".notInSubmittedTimeSinceBidSubmittedMs");;
        when (negb (bool_decide (account = [])))
          (banker (ForceWinBid account winPrice))
    | Some (info, _) =>
      modify (λ s, set_submitted (PendingList.pop (submitted s) key) s);;
      match SubmissionInfo.bidRequest info with
      | None =>
        (* We doubled up on a WIN without having got the auction yet *)
        let info :=
          SubmissionInfo.set_earlyWinEvents
            (SubmissionInfo.earlyWinEvents info ++ [event]) info in
        modify (λ s, set_submitted
                       (PendingList.insert (submitted s) key info
                          (plusSeconds now lossTimeout)) s)
      | Some _ =>
        recordHit ("bidResult." +:+ typeStr +:+ ".delivered");;
        let confidence :=
          match status with BS_WIN => Guaranteed | BS_LOSS => Inferred end in
        doBidResult now auctionId adSpotId info winPrice timestamp status
          confidence meta uids;;
        forEach doCampaignEvent (SubmissionInfo.earlyCampaignEvents info)
      end
    end
  end.

Definition doEvent (now : Z) (event : PostAuctionEvent.t) : M unit :=
  tryCatch
    match PostAuctionEvent.type event with
    | PAE_WIN | PAE_LOSS => doWinLoss now event false
    | PAE_CAMPAIGN_EVENT => doCampaignEvent event
    | PAE_INVALID => throw "unknown event type"
    end
    (λ _, mret tt).

Definition doAuction (now : Z) (event : SubmittedAuctionEvent.t) : M unit :=
  tryCatch
    (recordHit "processedAuction";;
     let auctionId := SubmittedAuctionEvent.auctionId event in
     let lossTimeout := SubmittedAuctionEvent.lossTimeout event in
     (* move the auction over to the submitted bid pipeline... *)
     let key := (auctionId, SubmittedAuctionEvent.adSpotId event) in
     s ← getState;
     '(submission, earlyWinEvents) ←
       match submitted s !! key with
       | Some (submission, _) =>
         modify (λ s, set_submitted (PendingList.pop (submitted s) key) s);;
         recordHit "auctionAlreadySubmitted";;
         mret (SubmissionInfo.set_earlyWinEvents [] submission,
               SubmissionInfo.earlyWinEvents submission)
       | None => mret (SubmissionInfo.empty, [])
       end;
     let submission :=
       SubmissionInfo.mk
         (SubmittedAuctionEvent.bidRequest event)
         (SubmittedAuctionEvent.bidRequestStr event)
         (SubmittedAuctionEvent.bidRequestStrFormat event)
         (SubmittedAuctionEvent.augmentations event)
         (SubmittedAuctionEvent.bidResponse event)
         (SubmissionInfo.earlyWinEvents submission)
         (SubmissionInfo.earlyCampaignEvents submission) in
     modify (λ s, set_submitted
                    (PendingList.insert (submitted s) key submission lossTimeout) s);;
     let bidResponse := SubmittedAuctionEvent.bidResponse event in
     let transId :=
       makeBidId auctionId (SubmittedAuctionEvent.adSpotId event)
         (Response.agent bidResponse) in
     banker (AttachBid (Response.account bidResponse) transId
               (Price.maxPrice (Response.price bidResponse)));;
     (* Replay any early win/loss events. *)
     forEach (λ ev, recordHit "replayedEarlyWinEvent";; doWinLoss now ev true)
       earlyWinEvents)
    (λ _, mret tt).

(** The visitors of [checkExpiredAuctions]; both return [Date()].  The
    confidence that the first passes to [doBidResult] is written ["inferred"]
    in the source. *)
Definition onExpiredSubmitted (start : Z) (key : string * string)
    (info : SubmissionInfo.t) : M (option Z) :=
  let auctionId := key.1 in
  let adSpotId := key.2 in
  recordHit "submittedAuctionExpiry";;
  match SubmissionInfo.bidRequest info with
  | None =>
    recordHit "submittedAuctionExpiryWithoutBid";;
    mret None
  | Some _ =>
    tryCatch
      (doBidResult start auctionId adSpotId info Amount.zero start BS_LOSS
         Inferred "null" [])
      (λ what, doError "checkExpiredAuctions.loss" what);;
    mret None
  end.

Definition onExpiredFinished (key : string * string) (info : FinishedInfo.t)
    : M (option Z) :=
  recordHit "finishedAuctionExpiry";;
  mret None.

(** [submitted.expire(visitor, now)] and [finished.expire(visitor)]: the
    expired entries are visited by non-decreasing expiry and each is removed
    or reinserted as its visitor says. *)
Definition expireSubmitted (visitor : string * string → SubmissionInfo.t → M (option Z))
    (now : Z) : M unit :=
  s ← getState;
  forEach (λ e, r ← visitor e.1 e.2.1;
                modify (λ s, set_submitted (PendingList.afterVisit (submitted s) e.1 r) s))
    (PendingList.expired (submitted s) now).

Definition expireFinished (visitor : string * string → FinishedInfo.t → M (option Z))
    (now : Z) : M unit :=
  s ← getState;
  forEach (λ e, r ← visitor e.1 e.2.1;
                modify (λ s, set_finished (PendingList.afterVisit (finished s) e.1 r) s))
    (PendingList.expired (finished s) now).

Definition checkExpiredAuctions (now : Z) : M unit :=
  let start := now in
  expireSubmitted (onExpiredSubmitted start) start;;
  expireFinished onExpiredFinished now;;
  banker LogBidEvents.

(** The state in which a member function leaves the matcher. *)
Definition exec {A} (c : M A) (s : State) : State := (c s).2.

End EventMatcher.

(** ** Summaries of [doBidResult] *)

(** The price that [doBidResult] records when it returns normally; [None] on
    the inputs on which it throws ([bidResultRes_price] below). *)
Definition bidResultPrice (cfg : Config) (adSpotId : Id) (submission : SubmissionInfo.t)
    (winPrice : Amount.t) (status : BidStatus) (winLossMeta : string) : option Amount.t :=
  let response := SubmissionInfo.bid submission in
  if isNull adSpotId then None
  else match SubmissionInfo.bidRequest submission with
       | None => None
       | Some bidRequest =>
         if bool_decide (length (Response.account response) = 0%nat) then None
         else if isNoBid response then None
         else match status with
              | BS_LOSS => Some winPrice
              | BS_WIN =>
                evaluate cfg (WinCostModel.setData "win" winLossMeta (Response.wcm response))
                  (Response.bidData response)
                  (BidRequest.findAdSpotIndex bidRequest adSpotId) winPrice
              end
       end.

(** The ad spot index that [doBidResult] resolves. *)
Definition spotIndexOf (adSpotId : Id) (submission : SubmissionInfo.t) : Z :=
  match SubmissionInfo.bidRequest submission with
  | Some bidRequest => BidRequest.findAdSpotIndex bidRequest adSpotId
  | None => -1
  end.

(** The entry that [doBidResult] inserts in [finished], if it gets there. *)
Definition bidResultEntry (cfg : Config) (now : Z) (auctionId adSpotId : Id)
    (submission : SubmissionInfo.t) (winPrice : Amount.t) (timestamp : Z)
    (status : BidStatus) (winLossMeta : string) (uids : UserIds)
    : option (FinishedInfo.t * Z) :=
  price ← bidResultPrice cfg adSpotId submission winPrice status winLossMeta;
  Some (finishedInfoOf auctionId adSpotId (spotIndexOf adSpotId submission) submission
          status timestamp price winPrice winLossMeta uids,
        plusSeconds now
          match status with BS_LOSS => auctionTimeout cfg | BS_WIN => winTimeout cfg end).

(** The banker commit of one [doBidResult]: [winBid] when a win is priced,
    [cancelBid] from the guard otherwise. *)
Definition bidResultCommit (cfg : Config) (auctionId adSpotId : Id)
    (submission : SubmissionInfo.t) (winPrice : Amount.t) (status : BidStatus)
    (winLossMeta : string) : BankerCall :=
  let response := SubmissionInfo.bid submission in
  let bidId := makeBidId auctionId adSpotId (Response.agent response) in
  match status, bidResultPrice cfg adSpotId submission winPrice status winLossMeta with
  | BS_WIN, Some price => WinBid (Response.account response) bidId price
  | _, _ => CancelBid (Response.account response) bidId
  end.

(** Whether [doBidResult] gets as far as arming its guard: the ad spot is not
    null, the bid request is present and the account is not empty. *)
Definition reachesGuard (adSpotId : Id) (submission : SubmissionInfo.t) : bool :=
  negb (isNull adSpotId)
  && bool_decide (is_Some (SubmissionInfo.bidRequest submission))
  && negb (bool_decide (length (Response.account (SubmissionInfo.bid submission)) = 0%nat)).

(** The two error records that may precede the guard of [doBidResult]. *)
Definition bidResultErrors (cfg : Config) (adSpotId : Id) (submission : SubmissionInfo.t)
    (winPrice : Amount.t) : list Effect :=
  let bidPrice := Price.maxPrice (Response.price (SubmissionInfo.bid submission)) in
  (if spotIndexOf adSpotId submission =? -1 then
     [DoError "doBidResult.adSpotIdNotFound"
        ("adspot ID " +:+ adSpotId +:+ " not found in auction "
         +:+ SubmissionInfo.bidRequestStr submission)]
   else [])
  ++ (if Amount.gtb winPrice bidPrice then
        [DoError "doBidResult.winPriceExceedsBidPrice"
           ("win price " +:+ Amount_toString cfg winPrice
            +:+ " exceeds bid price " +:+ Amount_toString cfg bidPrice)]
      else []).

(** ** Invariants and step relations *)

(** No key is stored in both pending maps. *)
Definition exclusive (s : State) : Prop :=
  ∀ k, submitted s !! k = None ∨ finished s !! k = None.


(** A finished entry that reports a win is still stored, with the result of
    a win, in the later state. *)
Definition winsKept (s s' : State) : Prop :=
  ∀ k info t, finished s !! k = Some (info, t) →
    FinishedInfo.reportedStatus info = BS_WIN →
    ∃ info', finished s' !! k = Some (info', t)
             ∧ FinishedInfo.reportedStatus info' = BS_WIN.

(** How a campaign event may change a stored submission: it is appended to
    [earlyCampaignEvents]. *)
Definition subExt (a b : SubmissionInfo.t * Z) : Prop :=
  b.2 = a.2 ∧
  ∃ l, b.1 = SubmissionInfo.set_earlyCampaignEvents
               (SubmissionInfo.earlyCampaignEvents a.1 ++ l) a.1.

(** How a campaign event may change a finished entry: the recorded result of
    the auction stays. *)
Definition finExt (a b : FinishedInfo.t * Z) : Prop :=
  b.2 = a.2
  ∧ FinishedInfo.reportedStatus b.1 = FinishedInfo.reportedStatus a.1
  ∧ FinishedInfo.winTime b.1 = FinishedInfo.winTime a.1
  ∧ FinishedInfo.winPrice b.1 = FinishedInfo.winPrice a.1
  ∧ FinishedInfo.price b.1 = FinishedInfo.price a.1
  ∧ FinishedInfo.bid b.1 = FinishedInfo.bid a.1.

(** How a win/loss event may change a finished entry: a reported win stays. *)
Definition finLe (a b : FinishedInfo.t * Z) : Prop :=
  b.2 = a.2
  ∧ (FinishedInfo.reportedStatus a.1 = BS_WIN → FinishedInfo.reportedStatus b.1 = BS_WIN).

(** The effect of (replayed) campaign events on the state. *)
Definition campaignStep (s s' : State) : Prop :=
  bankerCalls (trace s') = bankerCalls (trace s)
  ∧ numWins s' = numWins s ∧ numLosses s' = numLosses s
  ∧ (∀ k, option_Forall2 subExt (submitted s !! k) (submitted s' !! k))
  ∧ (∀ k, option_Forall2 finExt (finished s !! k) (finished s' !! k)).

(** The effect of one win/loss event on the slot of a key in the two maps:
    both entries evolve in place; or an early win is buffered under a key
    that is not finished; or the submission leaves [submitted]. *)
Definition slotStep (s s' : State) (k : string * string) : Prop :=
  (option_Forall2 subExt (submitted s !! k) (submitted s' !! k)
   ∧ option_Forall2 finLe (finished s !! k) (finished s' !! k))
  ∨ (finished s !! k = None ∧ finished s' !! k = None
     ∧ ∃ info t, submitted s' !! k = Some (info, t)
                 ∧ SubmissionInfo.bidRequest info = None
                 ∧ SubmissionInfo.earlyWinEvents info ≠ [])
  ∨ (finished s !! k = None ∧ is_Some (submitted s !! k) ∧ submitted s' !! k = None).

(** The operations of the matcher, for statements over sequences. *)
Inductive Op :=
| OpAuction (now : Z) (event : SubmittedAuctionEvent.t)
| OpEvent (now : Z) (event : PostAuctionEvent.t)
| OpSweep (now : Z).

Definition step (cfg : Config) (s : State) (o : Op) : State :=
  match o with
  | OpAuction now ev => exec (doAuction cfg now ev) s
  | OpEvent now ev => exec (doEvent cfg now ev) s
  | OpSweep now => exec (checkExpiredAuctions cfg now) s
  end.

Definition run (cfg : Config) (ops : list Op) (s : State) : State :=
  foldl (step cfg) s ops.


(** ** Summaries of [doWinLoss] *)

(** The status that [doWinLoss] derives from the type of the event, the
    confidence that it passes on, and the state after its counters. *)
Definition statusOf (ev : PostAuctionEvent.t) : BidStatus :=
  if bool_decide (PostAuctionEvent.type ev = PAE_WIN) then BS_WIN else BS_LOSS.

Definition confidenceOf (st : BidStatus) : Confidence :=
  match st with BS_WIN => Guaranteed | BS_LOSS => Inferred end.

Definition keyOf (ev : PostAuctionEvent.t) : string * string :=
  (PostAuctionEvent.auctionId ev, PostAuctionEvent.adSpotId ev).

Definition counted (ev : PostAuctionEvent.t) (isReplay : bool) (s : State) : State :=
  let win := bool_decide (PostAuctionEvent.type ev = PAE_WIN) in
  mkState (submitted s) (finished s)
    (if win then numWins s + 1 else numWins s)
    (if win then numLosses s else numLosses s + 1)
    (numCampaignEvents s)
    (trace s
     ++ [RecordHit (if win then "processedWin" else "processedLoss");
         RecordHit ("bidResult." +:+ print (PostAuctionEvent.type ev)
                    +:+ (if isReplay then ".messagesReplayed" else ".messagesReceived"))]).

(** ** Summaries of [doAuction] and of the sweep *)

(** The state in which [doAuction] starts to replay the early win events,
    and the events that it replays. *)
Definition submissionOf (ev : SubmittedAuctionEvent.t) (old : option (SubmissionInfo.t * Z))
    : SubmissionInfo.t :=
  SubmissionInfo.mk
    (SubmittedAuctionEvent.bidRequest ev)
    (SubmittedAuctionEvent.bidRequestStr ev)
    (SubmittedAuctionEvent.bidRequestStrFormat ev)
    (SubmittedAuctionEvent.augmentations ev)
    (SubmittedAuctionEvent.bidResponse ev)
    []
    match old with
    | Some (i, _) => SubmissionInfo.earlyCampaignEvents i
    | None => []
    end.

Definition attached (ev : SubmittedAuctionEvent.t) (s : State) : State :=
  let key := (SubmittedAuctionEvent.auctionId ev, SubmittedAuctionEvent.adSpotId ev) in
  let old := submitted s !! key in
  let bidResponse := SubmittedAuctionEvent.bidResponse ev in
  mkState
    (<[key := (submissionOf ev old, SubmittedAuctionEvent.lossTimeout ev)]>
       (delete key (submitted s)))
    (finished s) (numWins s) (numLosses s) (numCampaignEvents s)
    (trace s ++ [RecordHit "processedAuction"]
     ++ match old with Some _ => [RecordHit "auctionAlreadySubmitted"] | None => [] end
     ++ [Banker (AttachBid (Response.account bidResponse)
                   (makeBidId (SubmittedAuctionEvent.auctionId ev)
                      (SubmittedAuctionEvent.adSpotId ev) (Response.agent bidResponse))
                   (Price.maxPrice (Response.price bidResponse)))]).

Definition replayed (ev : SubmittedAuctionEvent.t) (s : State) : list PostAuctionEvent.t :=
  match submitted s !! (SubmittedAuctionEvent.auctionId ev,
                        SubmittedAuctionEvent.adSpotId ev) with
  | Some (i, _) => SubmissionInfo.earlyWinEvents i
  | None => []
  end.


(** What [doBidResult] appends to the trace. *)
Definition bidResultTrace (cfg : Config) (now : Z) (auctionId adSpotId : Id)
    (submission : SubmissionInfo.t) (winPrice : Amount.t) (timestamp : Z)
    (status : BidStatus) (confidence : Confidence) (winLossMeta : string)
    (uids : UserIds) : list Effect :=
  trace (exec (doBidResult cfg now auctionId adSpotId submission winPrice timestamp
                 status confidence winLossMeta uids) initial).

(** How [doBidResult] returns: normally or with an exception. *)
Definition bidResultRes (cfg : Config) (now : Z) (auctionId adSpotId : Id)
    (submission : SubmissionInfo.t) (winPrice : Amount.t) (timestamp : Z)
    (status : BidStatus) (confidence : Confidence) (winLossMeta : string)
    (uids : UserIds) : Res unit :=
  (doBidResult cfg now auctionId adSpotId submission winPrice timestamp
     status confidence winLossMeta uids initial).1.

(** What the visitor of an expired submitted entry appends to the trace. *)
Definition visitTrace (cfg : Config) (start : Z) (key : string * string)
    (info : SubmissionInfo.t) : list Effect :=
  trace (exec (onExpiredSubmitted cfg start key info) initial).

(** The state after the visit of one expired submitted entry and its removal. *)
Definition visitedSubmitted (cfg : Config) (start : Z) (s : State)
    (e : (string * string) * (SubmissionInfo.t * Z)) : State :=
  mkState (delete e.1 (submitted s))
    match bidResultEntry cfg start e.1.1 e.1.2 e.2.1 Amount.zero start BS_LOSS "null" [] with
    | Some f => <[e.1 := f]> (finished s)
    | None => finished s
    end
    (numWins s) (numLosses s) (numCampaignEvents s)
    (trace s ++ visitTrace cfg start e.1 e.2.1).

(** The state after the visit of one expired finished entry and its removal. *)
Definition visitedFinished (s : State) (e : (string * string) * (FinishedInfo.t * Z)) : State :=
  mkState (submitted s) (delete e.1 (finished s))
    (numWins s) (numLosses s) (numCampaignEvents s)
    (trace s ++ [RecordHit "finishedAuctionExpiry"]).

(** The commit of the visitor of an expired submission: one [cancelBid]
    when the submission reaches the guard of [doBidResult], none otherwise. *)
Definition sweepCommit (e : (string * string) * (SubmissionInfo.t * Z)) : list BankerCall :=
  if reachesGuard e.1.2 e.2.1 then
    [CancelBid (Response.account (SubmissionInfo.bid e.2.1))
       (makeBidId e.1.1 e.1.2 (Response.agent (SubmissionInfo.bid e.2.1)))]
  else [].

(** ** Counting the resolutions of the bids *)

(** The bid id under which the banker knows a stored submission. *)
Definition bidIdOf (k : string * string) (info : SubmissionInfo.t) : string :=
  makeBidId k.1 k.2 (Response.agent (SubmissionInfo.bid info)).

(** A stored submission that [doBidResult] commits, under bid id [b], when
    it is called for it: the guard is reached. *)
Definition awaits (b : string) (e : (string * string) * (SubmissionInfo.t * Z)) : Prop :=
  reachesGuard e.1.2 e.2.1 = true ∧ bidIdOf e.1 e.2.1 = b.

#[global] Instance awaits_dec b e : Decision (awaits b e).
Proof. unfold awaits. apply _. Defined.

(** The number of stored submissions that await their commit under [b]. *)
Definition pending (b : string) (s : State) : nat :=
  size (filter (awaits b) (submitted s)).

(** The calls [winBid] and [cancelBid] for bid id [b], and the calls
    [attachBid] for it, on a trace. *)
Definition isResolution (b : string) (c : BankerCall) : bool :=
  match c with
  | WinBid _ b' _ | CancelBid _ b' => bool_decide (b' = b)
  | _ => false
  end.

Definition isAttachment (b : string) (c : BankerCall) : bool :=
  match c with
  | AttachBid _ b' _ => bool_decide (b' = b)
  | _ => false
  end.

Definition resolutions (b : string) (tr : list Effect) : nat :=
  length (List.filter (isResolution b) (bankerCalls tr)).

Definition attachments (b : string) (tr : list Effect) : nat :=
  length (List.filter (isAttachment b) (bankerCalls tr)).

(** Whether the entry stored under a key awaits its commit under [b]. *)
Definition ind (b : string) (k : string * string) (o : option (SubmissionInfo.t * Z)) : nat :=
  match o with
  | Some v => if decide (awaits b (k, v)) then 1%nat else 0%nat
  | None => 0%nat
  end.

(** What a win/loss or campaign event and a sweep keep: under every bid id,
    the resolutions made so far and the submissions that await theirs add up
    to the same number, and no attachment is made. *)
Definition conserves (s s' : State) : Prop :=
  ∀ b, (resolutions b (trace s') + pending b s' = resolutions b (trace s) + pending b s)%nat
       ∧ attachments b (trace s') = attachments b (trace s).

(** Under every bid id, the resolutions made and the submissions that still
    await theirs are covered by the attachments made. *)
Definition balanced (s : State) : Prop :=
  ∀ b, (resolutions b (trace s) + pending b s ≤ attachments b (trace s))%nat.

(** ** An invariant of the finished entries *)

(** Every finished entry holds a recorded result, under a key whose ad spot
    is not null. *)
Definition resultsRecorded (s : State) : Prop :=
  ∀ k info t, finished s !! k = Some (info, t) →
    FinishedInfo.hasWin info = true ∧ isNull k.2 = false.

(** ** Bid identifiers *)

(** The ids that hold no ['-'], the separator of [makeBidId]. *)
Fixpoint dashFree (s : string) : bool :=
  match s with
  | EmptyString => true
  | String c rest => negb (Ascii.eqb c "-"%char) && dashFree rest
  end.

(** ** Sample data *)

Module Sample.
Definition usd (v : Z) : Amount.t := Amount.mk v "USD".

(** a matcher with all three sinks, and one without [onUnmatchedEvent] *)
Definition config : Config :=
  mkConfig 3600 10800 true true true (λ _ _ _ p, Some p) (λ _, "") (λ _ _, false).
Definition configNoUnmatched : Config :=
  mkConfig 3600 10800 true true false (λ _ _ _ p, Some p) (λ _, "") (λ _ _, false).

Definition response : Response.t :=
  Response.mk "agent" ["acct"] (Price.mk (usd 100) 1) (WinCostModel.mk "none" ∅) "" [].
Definition noBidResponse : Response.t :=
  Response.mk "agent" ["acct"] (Price.mk Amount.zero 0) (WinCostModel.mk "none" ∅) "" [].

(** Submit(auc=A1, spot=S1, maxPrice=100), loss timeout at 15 s *)
Definition submit : SubmittedAuctionEvent.t :=
  SubmittedAuctionEvent.mk "A1" "S1" 15000 (Some (BidRequest.mk ["S1"])) "req" "fmt" ""
    response.
Definition submitNoBid : SubmittedAuctionEvent.t :=
  SubmittedAuctionEvent.mk "A1" "S1" 15000 (Some (BidRequest.mk ["S1"])) "req" "fmt" ""
    noBidResponse.

(** the submission that [submit] stores *)
Definition submission : SubmissionInfo.t :=
  SubmissionInfo.mk (Some (BidRequest.mk ["S1"])) "req" "fmt" "" response [] [].
Definition noBidSubmission : SubmissionInfo.t :=
  SubmissionInfo.mk (Some (BidRequest.mk ["S1"])) "req" "fmt" "" noBidResponse [] [].

(** WIN(A1,S1,price), LOSS(A1,S1) and IMPRESSION(A1,S1), bid placed at 0 *)
Definition win (price : Z) : PostAuctionEvent.t :=
  PostAuctionEvent.mk PAE_WIN "A1" "S1" "" (usd price) 10 0 "{}" [] [].
Definition loss : PostAuctionEvent.t :=
  PostAuctionEvent.mk PAE_LOSS "A1" "S1" "" Amount.zero 10 0 "{}" [] [].
Definition impression : PostAuctionEvent.t :=
  PostAuctionEvent.mk PAE_CAMPAIGN_EVENT "A1" "S1" "IMPRESSION" Amount.zero 10 0 "{}" [] [].

(** WIN(A1,S1,50) with an account, for an auction that was never submitted *)
Definition orphanWin : PostAuctionEvent.t :=
  PostAuctionEvent.mk PAE_WIN "A1" "S1" "" (usd 50) 3600000 0 "{}" [] ["acct"].

Definition key : string * string := ("A1", "S1").

(** the matcher after Submit, after Submit and WIN(80), and after a Submit
    of the no-bid response *)
Definition afterSubmit : State := exec (doAuction config 0 submit) initial.
Definition afterWin : State := exec (doEvent config 10 (win 80)) afterSubmit.
Definition afterSubmitNoBid : State := exec (doAuction config 0 submitNoBid) initial.

(** the matcher after Submit and a sweep at 20 s, which infers the loss,
    and the finished entry of that loss *)
Definition afterInferredLoss : State :=
  exec (checkExpiredAuctions config 20000) afterSubmit.
Definition lossInfo : FinishedInfo.t :=
  finishedInfoOf "A1" "S1" 0 submission BS_LOSS 20000 Amount.zero Amount.zero "null" [].

(** the finished entry after Submit and WIN(80), and the matcher after the
    IMPRESSION that follows *)
Definition winInfo : FinishedInfo.t :=
  finishedInfoOf "A1" "S1" 0 submission BS_WIN 10 (usd 80) (usd 80) "{}" [].
Definition afterImpression : State := exec (doEvent config 20 impression) afterWin.
End Sample.

(** * Properties *)

(** ** Traces *)

Lemma bankerCalls_app (a b : list Effect) :
  bankerCalls (a ++ b) = bankerCalls a ++ bankerCalls b.
Proof. unfold bankerCalls. apply omap_app. Qed.

Lemma commits_app (a b : list Effect) : commits (a ++ b) = commits a ++ commits b.
Proof. unfold commits. rewrite bankerCalls_app. apply List.filter_app. Qed.

Lemma outcomes_app (a b : list Effect) : outcomes (a ++ b) = outcomes a ++ outcomes b.
Proof. unfold outcomes. apply omap_app. Qed.

(** ** Symbolic execution of the monad *)

Ltac msimpl :=
  cbv beta iota zeta delta
    [mbind M_bind bind mret M_ret ret throw getState modify when tryCatch onUnwind
     atScopeExit recordHit recordOutcome doError banker callSink throwException exec
     fst snd set_submitted set_finished inc_numWins inc_numLosses
     inc_numCampaignEvents log submitted finished numWins numLosses
     numCampaignEvents trace initial negb].

Ltac mcase :=
  match goal with
  | |- context [if ?b then _ else _] => destruct b eqn:?
  | |- context [match ?x with Some _ => _ | None => _ end] => destruct x eqn:?
  | |- context [let (_, _) := ?p in _] => destruct p
  | |- context [match ?x with BS_WIN => _ | BS_LOSS => _ end] => destruct x eqn:?
  end.

(** ** [doBidResult] *)

Section BidResult.
Variable cfg : Config.

(** [doBidResult] reads nothing of the state: it appends to the trace and
    may insert one finished entry. *)
Lemma doBidResult_local now a sp sub wp ts st conf meta uids s :
  doBidResult cfg now a sp sub wp ts st conf meta uids s =
  (bidResultRes cfg now a sp sub wp ts st conf meta uids,
   mkState (submitted s)
     match bidResultEntry cfg now a sp sub wp ts st meta uids with
     | Some e => <[(a, sp) := e]> (finished s)
     | None => finished s
     end
     (numWins s) (numLosses s) (numCampaignEvents s)
     (trace s ++ bidResultTrace cfg now a sp sub wp ts st conf meta uids)).
Proof.
  destruct s as [sm fm nw nl nc tr].
  unfold bidResultRes, bidResultTrace, doBidResult, bidResultEntry, bidResultPrice,
    spotIndexOf, PendingList.insert.
  msimpl.
  repeat (mcase; msimpl; simpl; rewrite ?app_nil_r, <- ?app_assoc; simpl;
          try reflexivity; try congruence).
Qed.

Lemma bidResultRes_price now a sp sub wp ts st conf meta uids :
  match bidResultPrice cfg sp sub wp st meta with
  | Some _ => bidResultRes cfg now a sp sub wp ts st conf meta uids = Ok tt
  | None => ∃ w, bidResultRes cfg now a sp sub wp ts st conf meta uids = Exc w
  end.
Proof.
  unfold bidResultRes, doBidResult, bidResultPrice. msimpl.
  repeat (mcase; msimpl; simpl; try done; eauto).
Qed.

Lemma bidResultTrace_bankerCalls now a sp sub wp ts st conf meta uids :
  bankerCalls (bidResultTrace cfg now a sp sub wp ts st conf meta uids) =
  if reachesGuard sp sub then [bidResultCommit cfg a sp sub wp st meta] else [].
Proof.
  unfold bidResultTrace, doBidResult, bidResultCommit, bidResultPrice, reachesGuard.
  msimpl.
  repeat (mcase; msimpl; simpl; try done).
  all: try (exfalso; by eapply is_Some_None).
  all: try (by destruct (bool_decide _)).
Qed.

Lemma bidResultCommit_isCommit a sp sub wp st meta :
  isCommit (bidResultCommit cfg a sp sub wp st meta) = true.
Proof. unfold bidResultCommit. by repeat case_match. Qed.

Lemma bidResultTrace_commits now a sp sub wp ts st conf meta uids :
  commits (bidResultTrace cfg now a sp sub wp ts st conf meta uids) =
  if reachesGuard sp sub then [bidResultCommit cfg a sp sub wp st meta] else [].
Proof.
  unfold commits. rewrite bidResultTrace_bankerCalls.
  destruct (reachesGuard sp sub); [|done]. simpl.
  by rewrite bidResultCommit_isCommit.
Qed.

Lemma bidResultTrace_outcomes now a sp sub wp ts st conf meta uids :
  outcomes (bidResultTrace cfg now a sp sub wp ts st conf meta uids) =
  match bidResultEntry cfg now a sp sub wp ts st meta uids with
  | Some (i, _) =>
    if onMatchedWinLoss cfg then
      [MatchedWinLossOutcome
         (MatchedWinLoss.mk match st with BS_WIN => Win | BS_LOSS => Loss end
            conf i ts uids)]
    else []
  | None => []
  end.
Proof.
  unfold bidResultTrace, doBidResult, bidResultEntry, bidResultPrice, spotIndexOf.
  msimpl.
  repeat (mcase; msimpl; simpl; try done).
Qed.

(** The no-bid path: the guard is armed, the exception unwinds through it. *)
Lemma doBidResult_noBid now a sp sub wp ts st conf meta uids s :
  reachesGuard sp sub = true →
  isNoBid (SubmissionInfo.bid sub) = true →
  doBidResult cfg now a sp sub wp ts st conf meta uids s =
  (Exc "bid response had no bid price",
   mkState (submitted s) (finished s) (numWins s) (numLosses s) (numCampaignEvents s)
     (trace s ++ bidResultErrors cfg sp sub wp
      ++ [Banker (CancelBid (Response.account (SubmissionInfo.bid sub))
                    (makeBidId a sp (Response.agent (SubmissionInfo.bid sub))))])).
Proof.
  destruct s as [sm fm nw nl nc tr].
  unfold reachesGuard, doBidResult, bidResultErrors, spotIndexOf. msimpl.
  intros Hg Hn. rewrite Hn.
  repeat (mcase; msimpl; simpl in *; rewrite ?app_nil_r, <- ?app_assoc; simpl;
          try done).
Qed.
End BidResult.

(** ** The pending maps *)

Lemma findAuction_Some {V} (m : gmap (string * string) (V * Z)) a sp sp' v :
  findAuction m a sp = (sp', Some v) → ∃ t, m !! (a, sp') = Some (v, t).
Proof.
  unfold findAuction, PendingList.count, PendingList.get.
  destruct (isNull sp).
  - destruct (PendingList.completePrefix m (a, sp)) as [a2 sp2]; simpl.
    case_bool_decide; simpl; [subst a2|by intros].
    case_bool_decide; simpl; [|by intros].
    intros [= <- Hv]. destruct (m !! (a, sp2)) as [[v' t]|]; simplify_eq/=. eauto.
  - simpl. case_bool_decide; simpl; [|by intros].
    intros [= <- Hv]. destruct (m !! (a, sp)) as [[v' t]|]; simplify_eq/=. eauto.
Qed.

Lemma update_lookup {V} (R : relation (V * Z)) `{!Reflexive R}
    (m : gmap (string * string) (V * Z)) k v t v' k' :
  m !! k = Some (v, t) → R (v, t) (v', t) →
  option_Forall2 R (m !! k') (PendingList.update m k v' !! k').
Proof.
  intros Hk HR. unfold PendingList.update. rewrite Hk.
  destruct (decide (k = k')) as [<-|Hne].
  - rewrite lookup_insert_eq, Hk. by constructor.
  - rewrite lookup_insert_ne by done. reflexivity.
Qed.

#[global] Instance subExt_refl : Reflexive subExt.
Proof.
  intros [i t]. split; [done|]. exists []. rewrite app_nil_r. by destruct i.
Qed.

#[global] Instance subExt_trans : Transitive subExt.
Proof.
  intros [i1 t1] [i2 t2] [i3 t3] [Ht1 [l1 H1]] [Ht2 [l2 H2]]; simpl in *.
  split; simpl; [congruence|]. exists (l1 ++ l2). subst i2 i3. simpl.
  by rewrite app_assoc.
Qed.

#[global] Instance finExt_refl : Reflexive finExt.
Proof. by intros [i t]. Qed.

#[global] Instance finExt_trans : Transitive finExt.
Proof.
  intros x y z (?&?&?&?&?&?) (?&?&?&?&?&?). repeat split; congruence.
Qed.

#[global] Instance finLe_refl : Reflexive finLe.
Proof. by intros [i t]. Qed.

#[global] Instance finLe_trans : Transitive finLe.
Proof. intros x y z [? ?] [? ?]. split; [congruence|auto]. Qed.

Lemma finExt_finLe a b : finExt a b → finLe a b.
Proof. intros (?&?&?). split; [done|congruence]. Qed.

#[global] Instance campaignStep_refl : Reflexive campaignStep.
Proof. intros s. repeat split; reflexivity. Qed.

#[global] Instance campaignStep_trans : Transitive campaignStep.
Proof.
  intros s1 s2 s3 (?&?&?&Hs&Hf) (?&?&?&Hs'&Hf').
  repeat split; try congruence; intros k; etrans; eauto.
Qed.

(** ** [forEach] *)

Lemma forEach_rel {A} (R : relation State) `{!Reflexive R} `{!Transitive R}
    (f : A → M unit) (l : list A) :
  (∀ x s, R s (f x s).2) → ∀ s, R s (forEach f l s).2.
Proof.
  intros Hf. induction l as [|x l IH]; intros s; simpl.
  - reflexivity.
  - unfold mbind, M_bind, bind. specialize (Hf x s).
    destruct (f x s) as [[[]|w] s1]; simpl in *; [|done].
    etrans; [exact Hf|apply IH].
Qed.

Lemma forEach_inv {A} (P : State → Prop) (f : A → M unit) (l : list A) :
  (∀ x s, P s → P (f x s).2) → ∀ s, P s → P (forEach f l s).2.
Proof.
  intros Hf. induction l as [|x l IH]; intros s Hs; simpl; [done|].
  unfold mbind, M_bind, bind. specialize (Hf x s Hs).
  destruct (f x s) as [[[]|w] s1]; simpl in *; auto.
Qed.

(** ** [doCampaignEvent] *)

Section CampaignEvent.
Variable cfg : Config.

Lemma doCampaignEvent_step ev s : campaignStep s (doCampaignEvent cfg ev s).2.
Proof.
  destruct s as [sm fm nw nl nc tr].
  unfold doCampaignEvent. msimpl.
  destruct (bool_decide (_ = PAE_CAMPAIGN_EVENT)); msimpl; [|reflexivity].
  destruct (findAuction sm _ _) as [sp1 [si|]] eqn:Hs.
  - apply findAuction_Some in Hs as [t Hs].
    destruct (onUnmatchedEvent cfg); msimpl.
    + repeat split; simpl; rewrite ?bankerCalls_app; simpl;
        rewrite ?app_nil_r; try done.
      intros k. eapply (update_lookup subExt); [done|].
      split; [done|]. by eexists.
    + repeat split; simpl; rewrite ?bankerCalls_app; simpl;
        rewrite ?app_nil_r; try done.
  - destruct (findAuction fm _ _) as [sp2 [fi|]] eqn:Hf.
    + apply findAuction_Some in Hf as [t Hf].
      destruct (FinishedInfo.hasEvent _ _); msimpl.
      * destruct (onUnmatchedEvent cfg); msimpl;
          repeat split; simpl; rewrite ?bankerCalls_app; simpl;
            rewrite ?app_nil_r; done.
      * destruct (isNull sp2); msimpl.
        { repeat split; simpl; rewrite ?bankerCalls_app; simpl;
            rewrite ?app_nil_r; done. }
        destruct (onMatchedCampaignEvent cfg); msimpl.
        all: repeat split; simpl; rewrite ?bankerCalls_app; simpl;
          rewrite ?app_nil_r; try done.
        all: intros k; eapply (update_lookup finExt); [done|]; by repeat split.
    + destruct (onUnmatchedEvent cfg); msimpl;
        repeat split; simpl; rewrite ?bankerCalls_app; simpl;
          rewrite ?app_nil_r; done.
Qed.

Lemma forEach_doCampaignEvent_step l s :
  campaignStep s (forEach (doCampaignEvent cfg) l s).2.
Proof. apply (forEach_rel campaignStep). apply doCampaignEvent_step. Qed.
End CampaignEvent.

(** ** [doWinLoss] *)

Lemma option_Forall2_None_l {A} (R : relation A) (y : option A) :
  option_Forall2 R None y → y = None.
Proof. by inversion 1. Qed.

Lemma option_Forall2_weaken {A} (R R' : relation A) (x y : option A) :
  (∀ a b, R a b → R' a b) → option_Forall2 R x y → option_Forall2 R' x y.
Proof. intros HR. destruct 1; constructor; auto. Qed.

Lemma slotStep_same s s' k :
  submitted s' !! k = submitted s !! k → finished s' !! k = finished s !! k →
  slotStep s s' k.
Proof. intros Hs Hf. left. rewrite Hs, Hf. split; reflexivity. Qed.

Lemma slotStep_buffer s s' k key info t :
  finished s !! key = None → finished s' = finished s →
  submitted s' !! key = Some (info, t) →
  (∀ k', key ≠ k' → submitted s' !! k' = submitted s !! k') →
  SubmissionInfo.bidRequest info = None →
  SubmissionInfo.earlyWinEvents info ≠ [] →
  slotStep s s' k.
Proof.
  intros Hf Hf' Hs Hne Hbr Hev. destruct (decide (k = key)) as [->|Hk].
  - right; left. rewrite Hf', Hf. eauto 10.
  - apply slotStep_same; [auto|by rewrite Hf'].
Qed.

Lemma slotStep_leave s s' k key :
  finished s !! key = None → is_Some (submitted s !! key) →
  submitted s' !! key = None →
  (∀ k', key ≠ k' →
     option_Forall2 subExt (submitted s !! k') (submitted s' !! k')
     ∧ option_Forall2 finLe (finished s !! k') (finished s' !! k')) →
  slotStep s s' k.
Proof.
  intros Hf Hs Hs' Hne. destruct (decide (k = key)) as [->|Hk].
  - right; right. eauto.
  - left. auto.
Qed.

Lemma entry_lookup_ne {V} (e : option (V * Z)) (m : gmap (string * string) (V * Z))
    (key k' : string * string) :
  key ≠ k' →
  match e with Some e => <[key := e]> m | None => m end !! k' = m !! k'.
Proof. intros Hne. destruct e; [by rewrite lookup_insert_ne|done]. Qed.

Section WinLoss.
Variable cfg : Config.

Lemma doWinLoss_slot now ev rep s k : slotStep s (doWinLoss cfg now ev rep s).2 k.
Proof.
  destruct s as [sm fm nw nl nc tr].
  unfold doWinLoss. msimpl.
  set (key := (PostAuctionEvent.auctionId ev, PostAuctionEvent.adSpotId ev)).
  destruct (bool_decide (PostAuctionEvent.type ev = PAE_WIN)) eqn:Hty; msimpl;
    destruct rep; msimpl.
  all: destruct (fm !! key) as [[fi ft]|] eqn:Hfin.
  all: try (destruct (FinishedInfo.hasWin fi && _); msimpl;
            [destruct (Amount.eqb _ _); msimpl; by apply slotStep_same|]).
  all: try (by apply slotStep_same).
  (* late win *)
  1,3: destruct (onMatchedWinLoss cfg); msimpl; left; simpl;
       (split; [reflexivity|]);
       (eapply (update_lookup finLe); [done|]); by split.
  (* not finished *)
  all: destruct (sm !! key) as [[si st]|] eqn:Hsub;
    [destruct (SubmissionInfo.bidRequest si) eqn:Hbr; msimpl
    |destruct (timeGapBelow _ _ _ _); msimpl;
     [|destruct (bool_decide (_ = [])); msimpl; by apply slotStep_same]].
  (* an early win is buffered *)
  all: try (unfold PendingList.insert, PendingList.pop;
            eapply (slotStep_buffer _ _ k key); simpl;
            [done|done|apply lookup_insert_eq
            |intros k' Hk'; by rewrite lookup_insert_ne, ?lookup_delete_ne by done
            |done|simpl; try done; by destruct (SubmissionInfo.earlyWinEvents _)]).
  (* delivered *)
  all: rewrite doBidResult_local; msimpl.
  all: match goal with
       | |- context [forEach ?f ?l ?s2] =>
         pose proof (forEach_doCampaignEvent_step cfg l s2) as (_&_&_&Hs&Hf);
         destruct (forEach f l s2) as [r3 s3]; simpl in Hs, Hf;
         assert (slotStep (mkState sm fm nw nl nc tr) s3 k) as Hstep
       end.
  all: try (eapply (slotStep_leave _ _ k key); simpl;
    [done|by rewrite Hsub
    |specialize (Hs key); unfold PendingList.pop in Hs;
     rewrite lookup_delete_eq in Hs; by apply option_Forall2_None_l in Hs
    |intros k' Hk'; split;
     [specialize (Hs k'); unfold PendingList.pop in Hs;
      by rewrite lookup_delete_ne in Hs by done
     |specialize (Hf k'); eapply option_Forall2_weaken; [apply finExt_finLe|];
      by rewrite entry_lookup_ne in Hf by done]]).
  all: destruct (bidResultRes _ _ _ _ _ _ _ _ _ _ _) as [[]|w]; simpl; [done|].
  all: eapply (slotStep_leave _ _ k key); simpl;
    [done|by rewrite Hsub|unfold PendingList.pop; by rewrite lookup_delete_eq
    |intros k' Hk'; unfold PendingList.pop; rewrite lookup_delete_ne by done;
     split; [reflexivity|]; rewrite entry_lookup_ne by done; reflexivity].
Qed.
End WinLoss.

(** ** Invariants along the step relations *)

Lemma campaignStep_slot s s' k : campaignStep s s' → slotStep s s' k.
Proof.
  intros (_&_&_&Hs&Hf). left. split; [done|].
  eapply option_Forall2_weaken; [apply finExt_finLe|done].
Qed.

Lemma slotStep_exclusive s s' :
  (∀ k, slotStep s s' k) → exclusive s → exclusive s'.
Proof.
  intros Hstep Hex k.
  destruct (Hstep k) as [[Hs Hf]|[(_&Hf&_)|(_&_&Hs)]]; [|by right|by left].
  destruct (Hex k) as [E|E]; rewrite E in *.
  - left. by apply option_Forall2_None_l in Hs.
  - right. by apply option_Forall2_None_l in Hf.
Qed.



#[global] Instance winsKept_refl : Reflexive winsKept.
Proof. intros s k info t Hk Hw. eauto. Qed.

#[global] Instance winsKept_trans : Transitive winsKept.
Proof.
  intros s1 s2 s3 H12 H23 k info t Hk Hw.
  destruct (H12 k info t Hk Hw) as (i2&Hk2&Hw2). eauto.
Qed.

(** ** [doEvent] *)

Lemma exec_tryCatch_ignore (c : M unit) (s : State) :
  exec (tryCatch c (λ _, mret tt)) s = (c s).2.
Proof. unfold exec, tryCatch. by destruct (c s) as [[[]|w] s1]. Qed.

Section Event.
Variable cfg : Config.

Lemma doEvent_winLoss now ev s :
  PostAuctionEvent.type ev = PAE_WIN ∨ PostAuctionEvent.type ev = PAE_LOSS →
  exec (doEvent cfg now ev) s = (doWinLoss cfg now ev false s).2.
Proof.
  intros Hty. unfold doEvent. rewrite exec_tryCatch_ignore.
  by destruct Hty as [-> | ->].
Qed.

Lemma doEvent_campaign now ev s :
  PostAuctionEvent.type ev = PAE_CAMPAIGN_EVENT →
  exec (doEvent cfg now ev) s = (doCampaignEvent cfg ev s).2.
Proof. intros Hty. unfold doEvent. rewrite exec_tryCatch_ignore. by rewrite Hty. Qed.

Lemma doEvent_slot now ev s k : slotStep s (exec (doEvent cfg now ev) s) k.
Proof.
  destruct (PostAuctionEvent.type ev) eqn:Hty.
  - unfold doEvent. rewrite exec_tryCatch_ignore, Hty. by apply slotStep_same.
  - rewrite doEvent_winLoss by auto. apply doWinLoss_slot.
  - rewrite doEvent_winLoss by auto. apply doWinLoss_slot.
  - rewrite doEvent_campaign by done. apply campaignStep_slot, doCampaignEvent_step.
Qed.

(** ** [doAuction] *)

Lemma doAuction_replay now ev s :
  exec (doAuction cfg now ev) s =
  (forEach (λ e, recordHit "replayedEarlyWinEvent";; doWinLoss cfg now e true)
     (replayed ev s) (attached ev s)).2.
Proof.
  unfold doAuction. rewrite exec_tryCatch_ignore.
  destruct s as [sm fm nw nl nc tr].
  unfold replayed, attached, submissionOf, PendingList.insert, PendingList.pop.
  msimpl.
  destruct (sm !! _) as [[i t]|] eqn:Hk; msimpl; simpl.
  - rewrite <- !app_assoc. simpl. done.
  - rewrite <- !app_assoc. simpl. by rewrite delete_id.
Qed.
End Event.

(** ** The sweep *)

Lemma elem_of_expired {V} (m : gmap (string * string) (V * Z)) now k v t :
  (k, (v, t)) ∈ PendingList.expired m now ↔ m !! k = Some (v, t) ∧ t ≤ now.
Proof.
  unfold PendingList.expired. rewrite merge_sort_Permutation.
  rewrite list_elem_of_In, filter_In, <- list_elem_of_In, elem_of_map_to_list.
  simpl. by rewrite bool_decide_eq_true.
Qed.

Lemma foldl_delete_lookup {V} {E} (key : E → string * string) (l : list E)
    (m : gmap (string * string) V) k :
  foldl (λ m e, delete (key e) m) m l !! k =
  if bool_decide (k ∈ key <$> l) then None else m !! k.
Proof.
  revert m. induction l as [|e l IH]; intros m; simpl; [done|].
  rewrite IH. destruct (decide (k = key e)) as [->|Hne].
  - rewrite lookup_delete_eq. rewrite (bool_decide_eq_true_2 (_ ∈ _ :: _)) by left.
    by case_bool_decide.
  - rewrite lookup_delete_ne by done.
    case_bool_decide as H1; case_bool_decide as H2; try done.
    + exfalso. apply H2. by right.
    + exfalso. apply elem_of_cons in H2 as [?|?]; done.
Qed.

Section Sweep.
Variable cfg : Config.

Lemma onExpiredSubmitted_eq now k info s :
  onExpiredSubmitted cfg now k info s =
  (Ok None,
   mkState (submitted s)
     match bidResultEntry cfg now k.1 k.2 info Amount.zero now BS_LOSS "null" [] with
     | Some f => <[k := f]> (finished s)
     | None => finished s
     end
     (numWins s) (numLosses s) (numCampaignEvents s)
     (trace s ++ visitTrace cfg now k info)).
Proof.
  destruct k as [a sp], s as [sm fm nw nl nc tr].
  unfold visitTrace, onExpiredSubmitted. msimpl.
  destruct (SubmissionInfo.bidRequest info) eqn:Hbr; msimpl.
  - rewrite !doBidResult_local. msimpl.
    destruct (bidResultRes _ _ _ _ _ _ _ _ _ _ _) as [[]|w]; msimpl; simpl;
      by rewrite <- ?app_assoc.
  - unfold bidResultEntry, bidResultPrice. rewrite Hbr.
    destruct (isNull sp); simpl; by rewrite <- ?app_assoc.
Qed.

Lemma expireSubmitted_eq now s :
  expireSubmitted (onExpiredSubmitted cfg now) now s =
  (Ok tt, foldl (visitedSubmitted cfg now) s (PendingList.expired (submitted s) now)).
Proof.
  unfold expireSubmitted, mbind at 1, M_bind, bind at 1, getState.
  generalize (PendingList.expired (submitted s) now). intros l.
  revert s. induction l as [|e l IH]; intros s; [done|].
  cbn [forEach foldl]. unfold mbind at 1, M_bind, bind at 1.
  unfold mbind at 1, M_bind, bind at 1. rewrite onExpiredSubmitted_eq.
  unfold modify. apply IH.
Qed.

Lemma expireFinished_eq now s :
  expireFinished onExpiredFinished now s =
  (Ok tt, foldl visitedFinished s (PendingList.expired (finished s) now)).
Proof.
  unfold expireFinished, mbind at 1, M_bind, bind at 1, getState.
  generalize (PendingList.expired (finished s) now). intros l.
  revert s. induction l as [|e l IH]; intros s; [done|].
  cbn [forEach foldl]. unfold mbind at 1, M_bind, bind at 1.
  unfold mbind at 1, M_bind, bind at 1. unfold onExpiredFinished.
  unfold mbind at 1, M_bind, bind at 1. unfold recordHit, modify, mret, M_ret, ret.
  apply IH.
Qed.

(** The sweep as two folds over the expired entries. *)
Lemma checkExpiredAuctions_eq now s :
  exec (checkExpiredAuctions cfg now) s =
  let s1 := foldl (visitedSubmitted cfg now) s (PendingList.expired (submitted s) now) in
  let s2 := foldl visitedFinished s1 (PendingList.expired (finished s1) now) in
  log (Banker LogBidEvents) s2.
Proof.
  unfold checkExpiredAuctions, exec, mbind, M_bind, bind.
  rewrite expireSubmitted_eq, expireFinished_eq. done.
Qed.

Lemma visitedSubmitted_submitted now l s :
  submitted (foldl (visitedSubmitted cfg now) s l) =
  foldl (λ m e, delete e.1 m) (submitted s) l.
Proof. revert s. induction l as [|e l IH]; intros s; simpl; [done|]. by rewrite IH. Qed.

Lemma visitedSubmitted_trace now l s :
  trace (foldl (visitedSubmitted cfg now) s l) =
  trace s ++ flat_map (λ e, visitTrace cfg now e.1 e.2.1) l.
Proof.
  revert s. induction l as [|e l IH]; intros s; simpl; [by rewrite app_nil_r|].
  rewrite IH. simpl. by rewrite <- app_assoc.
Qed.

Lemma visitedFinished_submitted l s :
  submitted (foldl visitedFinished s l) = submitted s.
Proof. revert s. induction l as [|e l IH]; intros s; simpl; [done|]. by rewrite IH. Qed.

Lemma visitedFinished_finished l s :
  finished (foldl visitedFinished s l) = foldl (λ m e, delete e.1 m) (finished s) l.
Proof. revert s. induction l as [|e l IH]; intros s; simpl; [done|]. by rewrite IH. Qed.

Lemma visitedFinished_trace l s :
  trace (foldl visitedFinished s l) =
  trace s ++ flat_map (λ _, [RecordHit "finishedAuctionExpiry"]) l.
Proof.
  revert s. induction l as [|e l IH]; intros s; simpl; [by rewrite app_nil_r|].
  rewrite IH. simpl. by rewrite <- app_assoc.
Qed.

Lemma foldl_inv {A} (P : State → Prop) (f : State → A → State) l :
  (∀ s e, P s → P (f s e)) → ∀ s, P s → P (foldl f s l).
Proof. intros Hf. induction l as [|e l IH]; intros s Hs; simpl; auto. Qed.

Lemma visitedSubmitted_exclusive now s e :
  exclusive s → exclusive (visitedSubmitted cfg now s e).
Proof.
  intros Hex k. unfold visitedSubmitted; simpl.
  destruct (decide (e.1 = k)) as [<-|Hne].
  - left. apply lookup_delete_eq.
  - rewrite lookup_delete_ne, entry_lookup_ne by done. apply Hex.
Qed.

Lemma visitedFinished_exclusive s e : exclusive s → exclusive (visitedFinished s e).
Proof.
  intros Hex k. unfold visitedFinished; simpl.
  destruct (Hex k) as [H|H]; [by left|right].
  destruct (decide (e.1 = k)) as [<-|Hne];
    [apply lookup_delete_eq|by rewrite lookup_delete_ne].
Qed.



Lemma log_exclusive e s : exclusive s → exclusive (log e s).
Proof. done. Qed.


Lemma checkExpiredAuctions_exclusive now s :
  exclusive s → exclusive (exec (checkExpiredAuctions cfg now) s).
Proof.
  intros Hex. rewrite checkExpiredAuctions_eq. simpl. apply log_exclusive.
  apply foldl_inv; [apply visitedFinished_exclusive|].
  apply foldl_inv; [apply visitedSubmitted_exclusive|done].
Qed.

End Sweep.

(** ** The paths of [doWinLoss] *)

Lemma timeGapBelow_lt cfg now bidTimestamp bound :
  getTimeGapMs now bidTimestamp < bound → timeGapBelow cfg now bidTimestamp bound = true.
Proof. intros H. unfold timeGapBelow. apply Z.ltb_lt in H. by rewrite H. Qed.

Lemma timeGapBelow_gt cfg now bidTimestamp bound :
  bound < getTimeGapMs now bidTimestamp → timeGapBelow cfg now bidTimestamp bound = false.
Proof.
  intros H. unfold timeGapBelow.
  rewrite (proj2 (Z.ltb_ge _ _)) by lia. rewrite (proj2 (Z.eqb_neq _ _)) by lia. done.
Qed.

Section WinLossPaths.
Variable cfg : Config.
Implicit Types (ev : PostAuctionEvent.t) (s : State).

Ltac start s rep :=
  destruct s as [sm fm nw nl nc tr]; simpl in *;
  unfold doWinLoss, counted, statusOf, keyOf in *; msimpl;
  destruct (bool_decide (_ = PAE_WIN)) eqn:Hty; msimpl;
  destruct rep; msimpl.

Ltac finish :=
  unfold PendingList.pop, PendingList.insert, confidenceOf;
  rewrite <- ?app_assoc; cbn [app]; done.

(** the submission is found with its bid request: the result is committed *)
Lemma doWinLoss_delivered now ev rep s info t :
  finished s !! keyOf ev = None →
  submitted s !! keyOf ev = Some (info, t) →
  is_Some (SubmissionInfo.bidRequest info) →
  doWinLoss cfg now ev rep s =
  (doBidResult cfg now (PostAuctionEvent.auctionId ev) (PostAuctionEvent.adSpotId ev)
     info (PostAuctionEvent.winPrice ev) (PostAuctionEvent.timestamp ev)
     (statusOf ev) (confidenceOf (statusOf ev)) (PostAuctionEvent.metadata ev)
     (PostAuctionEvent.uids ev);;
   forEach (doCampaignEvent cfg) (SubmissionInfo.earlyCampaignEvents info))
    (log (RecordHit ("bidResult." +:+ print (PostAuctionEvent.type ev) +:+ ".delivered"))
       (set_submitted (delete (keyOf ev) (submitted s)) (counted ev rep s))).
Proof.
  intros Hf Hs [br Hbr]. start s rep; rewrite Hf, Hs, Hbr; finish.
Qed.

(** the key is unknown and the bid is recent: the event is buffered *)
Lemma doWinLoss_buffered now ev rep s :
  finished s !! keyOf ev = None →
  submitted s !! keyOf ev = None →
  getTimeGapMs now (PostAuctionEvent.bidTimestamp ev) < lossTimeout * 1000 →
  doWinLoss cfg now ev rep s =
  (Ok tt,
   set_submitted
     (<[keyOf ev := (SubmissionInfo.set_earlyWinEvents [ev] SubmissionInfo.empty,
                     plusSeconds now lossTimeout)]> (submitted s))
     (log (RecordHit ("bidResult." +:+ print (PostAuctionEvent.type ev)
                      +:+ ".noBidSubmitted"))
        (counted ev rep s))).
Proof.
  intros Hf Hs Hgap. apply (timeGapBelow_lt cfg) in Hgap.
  start s rep; rewrite Hf, Hs, Hgap; finish.
Qed.

(** the stored submission has no bid request yet: the event is buffered *)
Lemma doWinLoss_doubled now ev rep s info t :
  finished s !! keyOf ev = None →
  submitted s !! keyOf ev = Some (info, t) →
  SubmissionInfo.bidRequest info = None →
  doWinLoss cfg now ev rep s =
  (Ok tt,
   set_submitted
     (<[keyOf ev := (SubmissionInfo.set_earlyWinEvents
                       (SubmissionInfo.earlyWinEvents info ++ [ev]) info,
                     plusSeconds now lossTimeout)]>
        (delete (keyOf ev) (submitted s)))
     (counted ev rep s)).
Proof.
  intros Hf Hs Hbr. start s rep; rewrite Hf, Hs, Hbr; finish.
Qed.

(** the key is finished with the result that the event reports *)
Lemma doWinLoss_duplicate now ev rep s info t :
  finished s !! keyOf ev = Some (info, t) →
  FinishedInfo.hasWin info = true →
  FinishedInfo.reportedStatus info = statusOf ev →
  doWinLoss cfg now ev rep s =
  (Ok tt,
   log (RecordHit ("bidResult." +:+ print (PostAuctionEvent.type ev)
                   +:+ (if Amount.eqb (PostAuctionEvent.winPrice ev)
                             (FinishedInfo.winPrice info)
                        then ".duplicate" else ".duplicateWithDifferentPrice")))
     (counted ev rep s)).
Proof.
  intros Hf Hw Hst.
  start s rep; rewrite Hf, Hw, Hst; simpl; msimpl;
    destruct (Amount.eqb _ _); finish.
Qed.

(** the key is finished with another result and the event is a loss *)
Lemma doWinLoss_lossAfterWin now ev rep s info t :
  finished s !! keyOf ev = Some (info, t) →
  PostAuctionEvent.type ev ≠ PAE_WIN →
  FinishedInfo.reportedStatus info = BS_WIN →
  doWinLoss cfg now ev rep s =
  (Ok tt,
   log (RecordOutcome (getTimeGapMs now (PostAuctionEvent.bidTimestamp ev))
          ("bidResult." +:+ print (PostAuctionEvent.type ev)
           +:+ ".alreadyFinishedTimeSinceBidSubmittedMs"))
     (log (RecordHit ("bidResult." +:+ print (PostAuctionEvent.type ev)
                      +:+ ".auctionAlreadyFinished"))
        (counted ev rep s))).
Proof.
  intros Hf Hne Hst.
  start s rep; try (by apply bool_decide_eq_true in Hty).
  all: rewrite Hf, Hst, andb_false_r; finish.
Qed.

(** the key is finished with a loss and the event is a win: a late win *)
Lemma doWinLoss_lateWin now ev rep s info t :
  finished s !! keyOf ev = Some (info, t) →
  PostAuctionEvent.type ev = PAE_WIN →
  FinishedInfo.reportedStatus info = BS_LOSS →
  let info' := FinishedInfo.forceWin (PostAuctionEvent.timestamp ev)
                 (PostAuctionEvent.winPrice ev) (PostAuctionEvent.metadata ev) info in
  doWinLoss cfg now ev rep s =
  (Ok tt,
   let s1 := counted ev rep s in
   mkState (submitted s) (<[keyOf ev := (info', t)]> (finished s))
     (numWins s1) (numLosses s1) (numCampaignEvents s1)
     (trace s1
      ++ [RecordHit "bidResult.WIN.auctionAlreadyFinished";
          RecordOutcome (getTimeGapMs now (PostAuctionEvent.bidTimestamp ev))
            "bidResult.WIN.alreadyFinishedTimeSinceBidSubmittedMs";
          Banker (ForceWinBid (Response.account (FinishedInfo.bid info))
                    (PostAuctionEvent.winPrice ev))]
      ++ (if onMatchedWinLoss cfg then
            [Sink (MatchedWinLossOutcome
                     (MatchedWinLoss.ofEvent LateWin Guaranteed ev info'))]
          else [])
      ++ [RecordHit "bidResult.WIN.winAfterLossAssumed";
          RecordOutcome (Amount.value (PostAuctionEvent.winPrice ev))
            ("bidResult.WIN.winAfterLossAssumedAmount."
             +:+ Amount.getCurrencyStr (PostAuctionEvent.winPrice ev))])).
Proof.
  intros Hf Hwin Hst info'.
  start s rep; try (by apply bool_decide_eq_false in Hty).
  all: rewrite Hf, Hst, andb_false_r, Hwin; unfold PendingList.update; msimpl;
    rewrite Hf.
  all: destruct (onMatchedWinLoss cfg); msimpl; finish.
Qed.
End WinLossPaths.

(** ** Banker calls of the composite steps *)

Lemma commits_flat_map {A} (f : A → list Effect) (l : list A) :
  commits (flat_map f l) = flat_map (λ x, commits (f x)) l.
Proof.
  induction l as [|x l IH]; simpl; [done|]. by rewrite commits_app, IH.
Qed.

Lemma commits_flat_map_hit {A} (n : string) (l : list A) :
  commits (flat_map (λ _, [RecordHit n]) l) = [].
Proof. by induction l. Qed.

Section Commits.
Variable cfg : Config.

(** [doBidResult] followed by the replay of campaign events *)
Lemma bidResult_replay_bankerCalls now a sp info wp ts st conf meta uids l s :
  bankerCalls
    (trace ((doBidResult cfg now a sp info wp ts st conf meta uids;;
             forEach (doCampaignEvent cfg) l) s).2) =
  bankerCalls (trace s)
  ++ (if reachesGuard sp info then [bidResultCommit cfg a sp info wp st meta] else []).
Proof.
  unfold mbind, M_bind, bind. rewrite doBidResult_local.
  rewrite <- bidResultTrace_bankerCalls with (now := now) (ts := ts) (conf := conf)
                                             (uids := uids).
  destruct (bidResultRes _ _ _ _ _ _ _ _ _ _ _) as [[]|w]; simpl.
  - match goal with
    | |- context [forEach ?f ?l ?s2] =>
      pose proof (forEach_doCampaignEvent_step cfg l s2) as (Hb&_)
    end.
    rewrite Hb. simpl. by rewrite bankerCalls_app.
  - by rewrite bankerCalls_app.
Qed.

Lemma visitTrace_eq now k info :
  visitTrace cfg now k info =
  [RecordHit "submittedAuctionExpiry"]
  ++ match SubmissionInfo.bidRequest info with
     | None => [RecordHit "submittedAuctionExpiryWithoutBid"]
     | Some _ =>
       bidResultTrace cfg now k.1 k.2 info Amount.zero now BS_LOSS Inferred "null" []
       ++ match bidResultRes cfg now k.1 k.2 info Amount.zero now BS_LOSS Inferred
                  "null" [] with
          | Ok _ => []
          | Exc w => [DoError "checkExpiredAuctions.loss" w]
          end
     end.
Proof.
  destruct k as [a sp]. unfold visitTrace, onExpiredSubmitted. msimpl.
  destruct (SubmissionInfo.bidRequest info); msimpl; [|done].
  rewrite doBidResult_local. msimpl.
  destruct (bidResultRes _ _ _ _ _ _ _ _ _ _ _) as [[]|w]; msimpl; simpl;
    by rewrite ?app_nil_r.
Qed.

Lemma reachesGuard_bidRequest sp info :
  reachesGuard sp info = true → is_Some (SubmissionInfo.bidRequest info).
Proof.
  unfold reachesGuard. intros H.
  apply andb_true_iff in H as [H _]. apply andb_true_iff in H as [_ H].
  by apply bool_decide_eq_true in H.
Qed.

Lemma visitTrace_commits now k info t :
  commits (visitTrace cfg now k info) = sweepCommit (k, (info, t)).
Proof.
  rewrite visitTrace_eq, commits_app. unfold sweepCommit.
  change (commits [RecordHit "submittedAuctionExpiry"]) with (@nil BankerCall).
  cbn [app fst snd].
  destruct (SubmissionInfo.bidRequest info) eqn:Hbr.
  - rewrite commits_app, bidResultTrace_commits.
    replace (commits match bidResultRes _ _ _ _ _ _ _ _ _ _ _ with
                     | Ok _ => [] | Exc w => _ end) with (@nil BankerCall)
      by (by destruct (bidResultRes _ _ _ _ _ _ _ _ _ _ _)).
    rewrite app_nil_r. destruct (reachesGuard _ _); [|done].
    unfold bidResultCommit. done.
  - destruct (reachesGuard k.2 info) eqn:Hg; [|done].
    apply reachesGuard_bidRequest in Hg as [? ?]. congruence.
Qed.

Lemma checkExpiredAuctions_commits now s :
  commits (trace (exec (checkExpiredAuctions cfg now) s)) =
  commits (trace s) ++ flat_map sweepCommit (PendingList.expired (submitted s) now).
Proof.
  rewrite checkExpiredAuctions_eq. simpl.
  rewrite commits_app, visitedFinished_trace, commits_app, visitedSubmitted_trace.
  rewrite commits_app, commits_flat_map_hit, commits_flat_map. simpl.
  rewrite !app_nil_r. f_equal.
  apply flat_map_ext. intros [k [info t]]. apply visitTrace_commits.
Qed.
End Commits.

(** ** Further lemmas on the entry points *)

Lemma bankerCalls_counted ev rep s :
  bankerCalls (trace (counted ev rep s)) = bankerCalls (trace s).
Proof. unfold counted. simpl. rewrite bankerCalls_app. simpl. by rewrite app_nil_r. Qed.

Lemma outcomes_counted ev rep s :
  outcomes (trace (counted ev rep s)) = outcomes (trace s).
Proof. unfold counted. simpl. rewrite outcomes_app. simpl. by rewrite app_nil_r. Qed.

Lemma bidResultErrors_bankerCalls cfg sp sub wp :
  bankerCalls (bidResultErrors cfg sp sub wp) = [].
Proof. unfold bidResultErrors. by repeat case_match. Qed.

Lemma bidResultErrors_outcomes cfg sp sub wp :
  outcomes (bidResultErrors cfg sp sub wp) = [].
Proof. unfold bidResultErrors. by repeat case_match. Qed.

Section Auction.
Variable cfg : Config.

Lemma replayStep_slot now e s k :
  slotStep s ((recordHit "replayedEarlyWinEvent";; doWinLoss cfg now e true) s).2 k.
Proof.
  unfold mbind, M_bind, bind, recordHit, modify.
  pose proof (doWinLoss_slot cfg now e true (log (RecordHit "replayedEarlyWinEvent") s) k)
    as H.
  destruct (doWinLoss _ _ _ _ _) as [r s']. exact H.
Qed.



Lemma doAuction_exclusive now sev s :
  finished s !! (SubmittedAuctionEvent.auctionId sev,
                 SubmittedAuctionEvent.adSpotId sev) = None →
  exclusive s → exclusive (exec (doAuction cfg now sev) s).
Proof.
  intros Hf Hex. rewrite doAuction_replay.
  apply forEach_inv.
  { intros e s1 H1. eapply slotStep_exclusive; [|done].
    intros k. apply replayStep_slot. }
  intros k. unfold attached; simpl.
  destruct (decide ((SubmittedAuctionEvent.auctionId sev,
                     SubmittedAuctionEvent.adSpotId sev) = k)) as [<-|Hne].
  - by right.
  - rewrite lookup_insert_ne, lookup_delete_ne by done. apply Hex.
Qed.
End Auction.

Section Reorder.
Variable cfg : Config.

Lemma forEach_singleton {A} (f : A → M unit) (x : A) (s : State) :
  (forEach f [x] s).2 = (f x s).2.
Proof.
  simpl. unfold mbind, M_bind, bind, mret, ret. by destruct (f x s) as [[[]|w] s1].
Qed.

(** a delivered win/loss event whose submission buffers no campaign event *)
Lemma doWinLoss_delivered_maps now ev rep s info t :
  finished s !! keyOf ev = None →
  submitted s !! keyOf ev = Some (info, t) →
  is_Some (SubmissionInfo.bidRequest info) →
  SubmissionInfo.earlyCampaignEvents info = [] →
  let s' := (doWinLoss cfg now ev rep s).2 in
  finished s'
  = match bidResultEntry cfg now (PostAuctionEvent.auctionId ev)
            (PostAuctionEvent.adSpotId ev) info (PostAuctionEvent.winPrice ev)
            (PostAuctionEvent.timestamp ev) (statusOf ev)
            (PostAuctionEvent.metadata ev) (PostAuctionEvent.uids ev) with
    | Some e => <[keyOf ev := e]> (finished s)
    | None => finished s
    end
  ∧ submitted s' = delete (keyOf ev) (submitted s).
Proof.
  intros Hf Hs Hbr Hce s'. subst s'.
  rewrite (doWinLoss_delivered cfg now ev rep s info t Hf Hs Hbr), Hce.
  unfold mbind, M_bind, bind. rewrite doBidResult_local. simpl.
  by destruct (bidResultRes _ _ _ _ _ _ _ _ _ _ _) as [[]|w].
Qed.
End Reorder.

Lemma exclusive_afterSubmit : exclusive Sample.afterSubmit.
Proof. intros k. right. reflexivity. Qed.

Section Reachable.
Variable cfg : Config.



End Reachable.

Lemma bankerCalls_flat_map {A} (f : A → list Effect) (l : list A) :
  bankerCalls (flat_map f l) = flat_map (λ x, bankerCalls (f x)) l.
Proof.
  induction l as [|x l IH]; simpl; [done|]. by rewrite bankerCalls_app, IH.
Qed.

Lemma bankerCalls_flat_map_hit {A} (n : string) (l : list A) :
  bankerCalls (flat_map (λ _, [RecordHit n]) l) = [].
Proof. by induction l. Qed.

Section SweepEffects.
Variable cfg : Config.

Lemma visitTrace_bankerCalls now k info t :
  bankerCalls (visitTrace cfg now k info) = sweepCommit (k, (info, t)).
Proof.
  rewrite visitTrace_eq, bankerCalls_app. unfold sweepCommit.
  change (bankerCalls [RecordHit "submittedAuctionExpiry"]) with (@nil BankerCall).
  cbn [app fst snd].
  destruct (SubmissionInfo.bidRequest info) eqn:Hbr.
  - rewrite bankerCalls_app, bidResultTrace_bankerCalls.
    replace (bankerCalls match bidResultRes _ _ _ _ _ _ _ _ _ _ _ with
                         | Ok _ => [] | Exc w => _ end) with (@nil BankerCall)
      by (by destruct (bidResultRes _ _ _ _ _ _ _ _ _ _ _)).
    rewrite app_nil_r. destruct (reachesGuard _ _); [|done].
    unfold bidResultCommit. done.
  - destruct (reachesGuard k.2 info) eqn:Hg; [|done].
    apply reachesGuard_bidRequest in Hg as [? ?]. congruence.
Qed.

Lemma checkExpiredAuctions_bankerCalls now s :
  bankerCalls (trace (exec (checkExpiredAuctions cfg now) s)) =
  bankerCalls (trace s)
  ++ flat_map sweepCommit (PendingList.expired (submitted s) now)
  ++ [LogBidEvents].
Proof.
  rewrite checkExpiredAuctions_eq. simpl.
  rewrite bankerCalls_app, visitedFinished_trace, bankerCalls_app, visitedSubmitted_trace.
  rewrite bankerCalls_app, bankerCalls_flat_map_hit, bankerCalls_flat_map. simpl.
  rewrite !app_nil_r, <- app_assoc. do 2 f_equal.
  apply flat_map_ext. intros [k [info t]]. apply visitTrace_bankerCalls.
Qed.

Lemma visitedSubmitted_finished_other now l s k :
  k ∉ l.*1 →
  finished (foldl (visitedSubmitted cfg now) s l) !! k = finished s !! k.
Proof.
  revert s. induction l as [|e l IH]; intros s Hk; simpl; [done|].
  rewrite fmap_cons, not_elem_of_cons in Hk. destruct Hk as [Hne Hk].
  rewrite IH by done. simpl. by rewrite entry_lookup_ne.
Qed.

Lemma expired_key {V} (m : gmap (string * string) (V * Z)) now k :
  k ∈ (PendingList.expired m now).*1 ↔ ∃ v t, m !! k = Some (v, t) ∧ t ≤ now.
Proof.
  rewrite list_elem_of_fmap. split.
  - intros ([k' [v t]] & -> & He). apply elem_of_expired in He. eauto.
  - intros (v & t & Hk & Ht). exists (k, (v, t)). split; [done|].
    by apply elem_of_expired.
Qed.

(** A finished entry whose key is not submitted: the sweep removes it when
    it has expired and leaves it as it is otherwise. *)
Lemma checkExpiredAuctions_finished now s k :
  submitted s !! k = None →
  finished (exec (checkExpiredAuctions cfg now) s) !! k =
  match finished s !! k with
  | Some (info, t) => if bool_decide (t ≤ now) then None else Some (info, t)
  | None => None
  end.
Proof.
  intros Hs. rewrite checkExpiredAuctions_eq. cbn [log finished].
  rewrite visitedFinished_finished, (foldl_delete_lookup fst).
  set (s1 := foldl (visitedSubmitted cfg now) s (PendingList.expired (submitted s) now)).
  assert (H1 : finished s1 !! k = finished s !! k).
  { apply visitedSubmitted_finished_other. rewrite expired_key.
    intros (v & t & Hk & _). congruence. }
  rewrite H1. destruct (finished s !! k) as [[info t]|] eqn:Hf.
  - case_bool_decide as Hin; case_bool_decide as Hle; try done.
    + apply expired_key in Hin as (v & t' & Hk' & Ht'). simplify_eq. lia.
    + exfalso. apply Hin, expired_key. eauto.
  - by case_bool_decide.
Qed.

Lemma bidResultPrice_loss sp info wp meta :
  reachesGuard sp info = true → isNoBid (SubmissionInfo.bid info) = false →
  bidResultPrice cfg sp info wp BS_LOSS meta = Some wp.
Proof.
  unfold reachesGuard, bidResultPrice. intros Hg Hn. rewrite Hn.
  destruct (isNull sp); [done|].
  destruct (SubmissionInfo.bidRequest info); [|done].
  by destruct (bool_decide (length _ = 0%nat)).
Qed.
End SweepEffects.

(** ** The scenarios of the specification, run on the model *)

(** Normal win: Submit, then WIN(80). *)
Example scenario_normal_win :
  bankerCalls (trace Sample.afterWin)
  = [AttachBid ["acct"] "A1-S1-agent" (Sample.usd 100);
     WinBid ["acct"] "A1-S1-agent" (Sample.usd 80)]
  ∧ outcomes (trace Sample.afterWin)
    = [MatchedWinLossOutcome (MatchedWinLoss.mk Win Guaranteed Sample.winInfo 10 [])]
  ∧ finished Sample.afterWin !! Sample.key = Some (Sample.winInfo, 3600010)
  ∧ submitted Sample.afterWin = ∅.
Proof. split_and!; vm_compute; reflexivity. Qed.

(** Early win: WIN(80), then Submit two seconds later. *)
Example scenario_early_win :
  bankerCalls (trace (run Sample.config [OpEvent 5 (Sample.win 80);
                                         OpAuction 2000 Sample.submit] initial))
  = [AttachBid ["acct"] "A1-S1-agent" (Sample.usd 100);
     WinBid ["acct"] "A1-S1-agent" (Sample.usd 80)]
  ∧ outcomes (trace (run Sample.config [OpEvent 5 (Sample.win 80);
                                        OpAuction 2000 Sample.submit] initial))
    = [MatchedWinLossOutcome (MatchedWinLoss.mk Win Guaranteed Sample.winInfo 10 [])]
  ∧ submitted (run Sample.config [OpEvent 5 (Sample.win 80);
                                  OpAuction 2000 Sample.submit] initial) = ∅.
Proof. split_and!; vm_compute; reflexivity. Qed.

(** Inferred loss, then late win: Submit, sweep at 20 s, WIN(50) at 30 s. *)
Example scenario_late_win :
  bankerCalls (trace Sample.afterInferredLoss)
  = [AttachBid ["acct"] "A1-S1-agent" (Sample.usd 100);
     CancelBid ["acct"] "A1-S1-agent"; LogBidEvents]
  ∧ outcomes (trace Sample.afterInferredLoss)
    = [MatchedWinLossOutcome (MatchedWinLoss.mk Loss Inferred Sample.lossInfo 20000 [])]
  ∧ finished (exec (doEvent Sample.config 30000 (Sample.win 50)) Sample.afterInferredLoss)
      !! Sample.key
    = Some (FinishedInfo.forceWin 10 (Sample.usd 50) "{}" Sample.lossInfo, 10820000).
Proof. split_and!; vm_compute; reflexivity. Qed.

(** Orphan late win: no Submit, a WIN whose bid is one hour old. *)
Example scenario_orphan_win :
  bankerCalls (trace (exec (doEvent Sample.config 3600000 Sample.orphanWin) initial))
  = [ForceWinBid ["acct"] (Sample.usd 50)]
  ∧ outcomes (trace (exec (doEvent Sample.config 3600000 Sample.orphanWin) initial)) = []
  ∧ submitted (exec (doEvent Sample.config 3600000 Sample.orphanWin) initial) = ∅.
Proof. split_and!; vm_compute; reflexivity. Qed.

(** Campaign event before the win: Submit, IMPRESSION, then WIN(80). *)
Example scenario_campaign_event_before_win :
  outcomes (trace (run Sample.config [OpAuction 0 Sample.submit;
                                      OpEvent 5 Sample.impression;
                                      OpEvent 10 (Sample.win 80)] initial))
  = [UnmatchedEvent "inFlight" Sample.impression;
     MatchedWinLossOutcome (MatchedWinLoss.mk Win Guaranteed Sample.winInfo 10 []);
     MatchedCampaignEvent "IMPRESSION"
       (FinishedInfo.setEvent "IMPRESSION" 10 "{}" Sample.winInfo)].
Proof. vm_compute. reflexivity. Qed.

(** * Further properties of the code *)

(** ** [doBidResult]: the paths to its end and its early exits *)

Section BidResultPaths.
Variable cfg : Config.

Lemma doBidResult_win now a sp sub wp ts conf meta uids s price :
  reachesGuard sp sub = true →
  isNoBid (SubmissionInfo.bid sub) = false →
  evaluate cfg (WinCostModel.setData "win" meta (Response.wcm (SubmissionInfo.bid sub)))
    (Response.bidData (SubmissionInfo.bid sub)) (spotIndexOf sp sub) wp = Some price →
  doBidResult cfg now a sp sub wp ts BS_WIN conf meta uids s =
  (Ok tt,
   let account := Response.account (SubmissionInfo.bid sub) in
   let i := finishedInfoOf a sp (spotIndexOf sp sub) sub BS_WIN ts price wp meta uids in
   mkState (submitted s)
     (<[(a, sp) := (i, plusSeconds now (winTimeout cfg))]> (finished s))
     (numWins s) (numLosses s) (numCampaignEvents s)
     (trace s ++ bidResultErrors cfg sp sub wp
      ++ [RecordOutcome (Amount.value wp)
            ("accounts." +:+ AccountKey_toString "." account +:+ ".winPrice."
             +:+ Amount.getCurrencyStr wp);
          RecordOutcome (Amount.value price)
            ("accounts." +:+ AccountKey_toString "." account +:+ ".winCostPrice."
             +:+ Amount.getCurrencyStr price);
          Banker (WinBid account (makeBidId a sp (Response.agent (SubmissionInfo.bid sub)))
                    price)]
      ++ (if onMatchedWinLoss cfg then
            [Sink (MatchedWinLossOutcome (MatchedWinLoss.mk Win conf i ts uids))]
          else []))).
Proof.
  destruct s as [sm fm nw nl nc tr].
  unfold reachesGuard, doBidResult, bidResultErrors, spotIndexOf, PendingList.insert.
  msimpl. intros Hg Hn. rewrite Hn.
  destruct (isNull sp); [done|].
  destruct (SubmissionInfo.bidRequest sub) as [br|]; [|done].
  destruct (bool_decide (length _ = 0%nat)); [done|]. intros He.
  msimpl. rewrite He.
  repeat (mcase; msimpl; simpl in *; rewrite ?app_nil_r, <- ?app_assoc; simpl;
          try done).
Qed.

Lemma doBidResult_loss now a sp sub wp ts conf meta uids s :
  reachesGuard sp sub = true →
  isNoBid (SubmissionInfo.bid sub) = false →
  doBidResult cfg now a sp sub wp ts BS_LOSS conf meta uids s =
  (Ok tt,
   let response := SubmissionInfo.bid sub in
   let i := finishedInfoOf a sp (spotIndexOf sp sub) sub BS_LOSS ts wp wp meta uids in
   mkState (submitted s)
     (<[(a, sp) := (i, plusSeconds now (auctionTimeout cfg))]> (finished s))
     (numWins s) (numLosses s) (numCampaignEvents s)
     (trace s ++ bidResultErrors cfg sp sub wp
      ++ (if onMatchedWinLoss cfg then
            [Sink (MatchedWinLossOutcome (MatchedWinLoss.mk Loss conf i ts uids))]
          else [])
      ++ [Banker (CancelBid (Response.account response)
                    (makeBidId a sp (Response.agent response)))])).
Proof.
  destruct s as [sm fm nw nl nc tr].
  unfold reachesGuard, doBidResult, bidResultErrors, spotIndexOf, PendingList.insert.
  msimpl. intros Hg Hn. rewrite Hn.
  destruct (isNull sp); [done|].
  destruct (SubmissionInfo.bidRequest sub) as [br|]; [|done].
  destruct (bool_decide (length _ = 0%nat)); [done|].
  msimpl.
  repeat (mcase; msimpl; simpl in *; rewrite ?app_nil_r, <- ?app_assoc; simpl;
          try done).
Qed.

Lemma doBidResult_unpriced now a sp sub wp ts conf meta uids s :
  reachesGuard sp sub = true →
  isNoBid (SubmissionInfo.bid sub) = false →
  evaluate cfg (WinCostModel.setData "win" meta (Response.wcm (SubmissionInfo.bid sub)))
    (Response.bidData (SubmissionInfo.bid sub)) (spotIndexOf sp sub) wp = None →
  let r := doBidResult cfg now a sp sub wp ts BS_WIN conf meta uids s in
  (∃ w, r.1 = Exc w)
  ∧ r.2 = mkState (submitted s) (finished s) (numWins s) (numLosses s)
            (numCampaignEvents s)
            (trace s ++ bidResultErrors cfg sp sub wp
             ++ [Banker (CancelBid (Response.account (SubmissionInfo.bid sub))
                           (makeBidId a sp (Response.agent (SubmissionInfo.bid sub))))]).
Proof.
  destruct s as [sm fm nw nl nc tr].
  unfold reachesGuard, doBidResult, bidResultErrors, spotIndexOf.
  msimpl. intros Hg Hn. rewrite Hn.
  destruct (isNull sp); [done|].
  destruct (SubmissionInfo.bidRequest sub) as [br|]; [|done].
  destruct (bool_decide (length _ = 0%nat)); [done|]. intros He.
  msimpl. rewrite He.
  repeat (mcase; msimpl; simpl in *; rewrite ?app_nil_r, <- ?app_assoc; simpl;
          eauto).
Qed.
End BidResultPaths.

(** ** [findAuction] *)

Lemma findAuction_nonNull {V} (m : gmap (string * string) (V * Z)) a sp :
  isNull sp = false → findAuction m a sp = (sp, fst <$> m !! (a, sp)).
Proof.
  intros Hsp. unfold findAuction, PendingList.count, PendingList.get. rewrite Hsp.
  simpl. case_bool_decide as H; simpl; [done|].
  destruct (m !! (a, sp)); [|done]. exfalso. apply H. eauto.
Qed.

(** ** [doCampaignEvent]: its four paths *)

Section CampaignPaths.
Variable cfg : Config.
Implicit Types (ev : PostAuctionEvent.t) (s : State).

Lemma doCampaignEvent_wrongType ev s :
  PostAuctionEvent.type ev ≠ PAE_CAMPAIGN_EVENT →
  doCampaignEvent cfg ev s =
  (Exc ("event type must be PAE_CAMPAIGN_EVENT: " +:+ print (PostAuctionEvent.type ev)), s).
Proof.
  intros Hty. unfold doCampaignEvent. msimpl.
  rewrite bool_decide_eq_false_2 by done. done.
Qed.

Lemma doCampaignEvent_inFlight ev s sp1 info :
  PostAuctionEvent.type ev = PAE_CAMPAIGN_EVENT →
  findAuction (submitted s) (PostAuctionEvent.auctionId ev) (PostAuctionEvent.adSpotId ev)
  = (sp1, Some info) →
  onUnmatchedEvent cfg = true →
  doCampaignEvent cfg ev s =
  (Ok tt,
   let label := PostAuctionEvent.label ev in
   mkState
     (PendingList.update (submitted s) (PostAuctionEvent.auctionId ev, sp1)
        (SubmissionInfo.set_earlyCampaignEvents
           (SubmissionInfo.earlyCampaignEvents info ++ [ev]) info))
     (finished s) (numWins s) (numLosses s) (numCampaignEvents s)
     (trace s
      ++ [RecordHit ("delivery.EVENT." +:+ label +:+ ".messagesReceived");
          RecordHit ("delivery." +:+ label +:+ ".stillInFlight");
          DoError ("doCampaignEvent.auctionNotWon" +:+ label)
            "message for auction that's not won";
          Sink (UnmatchedEvent "inFlight" ev)])).
Proof.
  intros Hty Hfind Hsink. destruct s as [sm fm nw nl nc tr]. simpl in *.
  unfold doCampaignEvent. msimpl. rewrite Hty. simpl. rewrite Hfind, Hsink. msimpl.
  by rewrite <- !app_assoc.
Qed.

Lemma doCampaignEvent_matched ev s sp1 sp2 info :
  PostAuctionEvent.type ev = PAE_CAMPAIGN_EVENT →
  findAuction (submitted s) (PostAuctionEvent.auctionId ev) (PostAuctionEvent.adSpotId ev)
  = (sp1, None) →
  findAuction (finished s) (PostAuctionEvent.auctionId ev) sp1 = (sp2, Some info) →
  FinishedInfo.hasEvent (PostAuctionEvent.label ev) info = false →
  isNull sp2 = false →
  doCampaignEvent cfg ev s =
  (Ok tt,
   let label := PostAuctionEvent.label ev in
   let info' :=
     FinishedInfo.addUids (PostAuctionEvent.uids ev)
       (FinishedInfo.setEvent label (PostAuctionEvent.timestamp ev)
          (PostAuctionEvent.metadata ev) info) in
   mkState (submitted s)
     (PendingList.update (finished s) (PostAuctionEvent.auctionId ev, sp2) info')
     (numWins s) (numLosses s) (numCampaignEvents s + 1)
     (trace s
      ++ [RecordHit ("delivery.EVENT." +:+ label +:+ ".messagesReceived");
          RecordHit ("delivery." +:+ label +:+ ".account."
                     +:+ AccountKey_toString ":" (Response.account (FinishedInfo.bid info))
                     +:+ ".matched")]
      ++ (if onMatchedCampaignEvent cfg then [Sink (MatchedCampaignEvent label info')]
          else []))).
Proof.
  intros Hty Hsub Hfin Hev Hsp. destruct s as [sm fm nw nl nc tr]. simpl in *.
  unfold doCampaignEvent. msimpl. rewrite Hty. simpl. rewrite Hsub, Hfin, Hev. msimpl.
  simpl. rewrite Hsp. msimpl.
  destruct (onMatchedCampaignEvent cfg); msimpl; simpl;
    rewrite <- ?app_assoc, ?app_nil_r; done.
Qed.

Lemma doCampaignEvent_notFound ev s sp1 sp2 :
  PostAuctionEvent.type ev = PAE_CAMPAIGN_EVENT →
  findAuction (submitted s) (PostAuctionEvent.auctionId ev) (PostAuctionEvent.adSpotId ev)
  = (sp1, None) →
  findAuction (finished s) (PostAuctionEvent.auctionId ev) sp1 = (sp2, None) →
  onUnmatchedEvent cfg = true →
  doCampaignEvent cfg ev s =
  (Ok tt,
   let label := PostAuctionEvent.label ev in
   mkState (submitted s) (finished s) (numWins s) (numLosses s) (numCampaignEvents s)
     (trace s
      ++ [RecordHit ("delivery.EVENT." +:+ label +:+ ".messagesReceived");
          RecordHit ("delivery." +:+ label +:+ ".auctionNotFound");
          DoError ("doCampaignEvent.auctionNotFound" +:+ label)
            "auction not found for delivery message";
          Sink (UnmatchedEvent "auctionNotFound" ev)])).
Proof.
  intros Hty Hsub Hfin Hsink. destruct s as [sm fm nw nl nc tr]. simpl in *.
  unfold doCampaignEvent. msimpl. rewrite Hty. simpl. rewrite Hsub, Hfin, Hsink. msimpl. by rewrite <- !app_assoc.
Qed.

(** the finished entry of a key that is not submitted, after a campaign
    event that names the key with its ad spot, whatever the sinks *)
Lemma doCampaignEvent_finished_lookup ev s :
  PostAuctionEvent.type ev = PAE_CAMPAIGN_EVENT →
  isNull (PostAuctionEvent.adSpotId ev) = false →
  submitted s !! keyOf ev = None →
  finished (doCampaignEvent cfg ev s).2 !! keyOf ev =
  match finished s !! keyOf ev with
  | Some (info, t) =>
    if FinishedInfo.hasEvent (PostAuctionEvent.label ev) info then Some (info, t)
    else Some (FinishedInfo.addUids (PostAuctionEvent.uids ev)
                 (FinishedInfo.setEvent (PostAuctionEvent.label ev)
                    (PostAuctionEvent.timestamp ev) (PostAuctionEvent.metadata ev) info),
               t)
  | None => None
  end.
Proof.
  intros Hty Hsp Hsub. destruct s as [sm fm nw nl nc tr]. unfold keyOf in *. simpl in *.
  unfold doCampaignEvent. msimpl. rewrite Hty. simpl.
  rewrite !findAuction_nonNull by done. rewrite Hsub. simpl.
  destruct (fm !! _) as [[info t]|] eqn:Hf; simpl.
  - destruct (FinishedInfo.hasEvent _ _); msimpl.
    + by destruct (onUnmatchedEvent cfg); msimpl.
    + rewrite Hsp. msimpl. unfold PendingList.update. rewrite Hf.
      destruct (onMatchedCampaignEvent cfg); msimpl; simpl; by rewrite lookup_insert_eq.
  - by destruct (onUnmatchedEvent cfg); msimpl.
Qed.

End CampaignPaths.

(** ** [doWinLoss]: the orphan path, the banker calls and the counters *)

Section WinLossEffects.
Variable cfg : Config.
Implicit Types (ev : PostAuctionEvent.t) (s : State).

(** the key is unknown and the bid is old: a really late event *)
Lemma doWinLoss_orphan now ev rep s :
  finished s !! keyOf ev = None →
  submitted s !! keyOf ev = None →
  timeGapBelow cfg now (PostAuctionEvent.bidTimestamp ev) (lossTimeout * 1000) = false →
  doWinLoss cfg now ev rep s =
  (Ok tt,
   let s1 := counted ev rep s in
   let typeStr := print (PostAuctionEvent.type ev) in
   mkState (submitted s) (finished s) (numWins s1) (numLosses s1) (numCampaignEvents s)
     (trace s1
      ++ [RecordHit ("bidResult." +:+ typeStr +:+ ".notInSubmitted");
          RecordOutcome (getTimeGapMs now (PostAuctionEvent.bidTimestamp ev))
            ("bidResult." +:+ typeStr +:+ ".notInSubmittedTimeSinceBidSubmittedMs")]
      ++ (if bool_decide (PostAuctionEvent.account ev = []) then []
          else [Banker (ForceWinBid (PostAuctionEvent.account ev)
                          (PostAuctionEvent.winPrice ev))]))).
Proof.
  intros Hf Hs Hgap.
  destruct s as [sm fm nw nl nc tr]; simpl in *.
  unfold doWinLoss, counted, keyOf in *; msimpl.
  destruct (bool_decide (_ = PAE_WIN)) eqn:Hty; msimpl; destruct rep; msimpl.
  all: rewrite Hf, Hs, Hgap; msimpl.
  all: destruct (bool_decide (_ = [])); msimpl; simpl;
    rewrite <- ?app_assoc, ?app_nil_r; simpl; done.
Qed.

(** One win/loss event makes at most one banker call, a commit; it adds one
    to the counter of its type and leaves the other as it is. *)
Lemma doWinLoss_effects now ev rep s :
  let s' := (doWinLoss cfg now ev rep s).2 in
  (∃ cs, bankerCalls (trace s') = bankerCalls (trace s) ++ cs
         ∧ (length cs ≤ 1)%nat ∧ Forall (λ c, isCommit c = true) cs)
  ∧ numWins s' = (if bool_decide (PostAuctionEvent.type ev = PAE_WIN)
                  then numWins s + 1 else numWins s)
  ∧ numLosses s' = (if bool_decide (PostAuctionEvent.type ev = PAE_WIN)
                    then numLosses s else numLosses s + 1).
Proof.
  assert (Hnone : ∀ (l l' : list BankerCall),
    l' = l →
    ∃ cs, l' = l ++ cs ∧ (length cs ≤ 1)%nat ∧ Forall (λ c, isCommit c = true) cs).
  { intros l l' E. exists []. rewrite app_nil_r. split_and!; [done|simpl; lia|done]. }
  assert (Hone : ∀ (l l' : list BankerCall) c,
    l' = l ++ [c] → isCommit c = true →
    ∃ cs, l' = l ++ cs ∧ (length cs ≤ 1)%nat ∧ Forall (λ c, isCommit c = true) cs).
  { intros l l' c E Hc. exists [c]. split_and!; [done|simpl; lia|by constructor]. }
  destruct s as [sm fm nw nl nc tr].
  unfold doWinLoss. msimpl.
  set (key := (PostAuctionEvent.auctionId ev, PostAuctionEvent.adSpotId ev)).
  destruct (bool_decide (PostAuctionEvent.type ev = PAE_WIN)) eqn:Hty; msimpl;
    destruct rep; msimpl.
  all: destruct (fm !! key) as [[fi ft]|] eqn:Hfin.
  all: try (destruct (FinishedInfo.hasWin fi && _); msimpl;
            [destruct (Amount.eqb _ _); msimpl; simpl;
             (split; [|done]); apply Hnone;
             rewrite ?bankerCalls_app; simpl; by rewrite ?app_nil_r|]).
  (* late win *)
  1,3: destruct (onMatchedWinLoss cfg); msimpl; simpl; (split; [|done]);
       (eapply Hone;
        [rewrite ?bankerCalls_app; simpl; rewrite ?app_nil_r; reflexivity|done]).
  (* a loss for a finished key *)
  all: try (simpl; (split; [|done]); apply Hnone;
                rewrite ?bankerCalls_app; simpl; by rewrite ?app_nil_r).
  (* not finished *)
  all: destruct (sm !! key) as [[si st]|] eqn:Hsub;
    [destruct (SubmissionInfo.bidRequest si) eqn:Hbr; msimpl
    |destruct (timeGapBelow _ _ _ _); msimpl;
     [|destruct (bool_decide (_ = [])); msimpl]].
  all: try (simpl; (split; [|done]); apply Hnone;
            rewrite ?bankerCalls_app; simpl; by rewrite ?app_nil_r).
  all: try (simpl; (split; [|done]);
            (eapply Hone;
             [rewrite ?bankerCalls_app; simpl; rewrite ?app_nil_r; reflexivity|done])).
  (* delivered *)
  all: rewrite doBidResult_local; msimpl.
  all: match goal with
       | |- context [bidResultRes ?c ?n ?a ?sp ?i ?wp ?ts ?st ?cf ?m ?u] =>
         pose proof (bidResultTrace_bankerCalls c n a sp i wp ts st cf m u) as Hbt;
         pose proof (bidResultCommit_isCommit c a sp i wp st m) as Hic;
         destruct (bidResultRes c n a sp i wp ts st cf m u) as [[]|w]
       end.
  all: try match goal with
       | |- context [forEach ?f ?l ?s2] =>
         pose proof (forEach_doCampaignEvent_step cfg l s2) as (Hb&Hw&Hl&_);
         destruct (forEach f l s2) as [r3 [sm3 fm3 nw3 nl3 nc3 tr3]]; simpl in Hb, Hw, Hl
       end.
  all: simpl; rewrite ?Hb, ?Hw, ?Hl; (split; [|done]).
  all: rewrite ?bankerCalls_app, Hbt; simpl; rewrite ?app_nil_r.
  all: destruct (reachesGuard _ _);
    [eapply Hone; [reflexivity|first [exact Hic|by repeat case_match]]
    |apply Hnone; by rewrite ?app_nil_r].
Qed.
End WinLossEffects.

(** ** The entry points: exceptions, banker calls, counters *)

Section EntryPoints.
Variable cfg : Config.

Lemma replayStep_effects now e s :
  let s' := ((recordHit "replayedEarlyWinEvent";; doWinLoss cfg now e true) s).2 in
  ∃ cs, bankerCalls (trace s') = bankerCalls (trace s) ++ cs
        ∧ (length cs ≤ 1)%nat ∧ Forall (λ c, isCommit c = true) cs.
Proof.
  unfold mbind, M_bind, bind, recordHit, modify.
  destruct (doWinLoss_effects cfg now e true (log (RecordHit "replayedEarlyWinEvent") s))
    as [(cs & Hcs & Hlen & Hall) _].
  destruct (doWinLoss _ _ _ _ _) as [r s']. simpl in *.
  exists cs. split_and!; [|done..].
  rewrite Hcs, bankerCalls_app. simpl. by rewrite app_nil_r.
Qed.

Lemma forEach_replay_effects now l s :
  let s' := (forEach (λ e, recordHit "replayedEarlyWinEvent";; doWinLoss cfg now e true)
               l s).2 in
  ∃ cs, bankerCalls (trace s') = bankerCalls (trace s) ++ cs
        ∧ (length cs ≤ length l)%nat ∧ Forall (λ c, isCommit c = true) cs.
Proof.
  revert s. induction l as [|e l IH]; intros s; simpl.
  - exists []. by rewrite app_nil_r.
  - unfold mbind at 1, M_bind at 1, bind at 1.
    destruct (replayStep_effects now e s) as (cs1 & H1 & Hl1 & Ha1).
    destruct ((recordHit "replayedEarlyWinEvent";; doWinLoss cfg now e true) s)
      as [[[]|w] s1]; simpl in *.
    + destruct (IH s1) as (cs2 & H2 & Hl2 & Ha2). exists (cs1 ++ cs2).
      rewrite H2, H1, app_assoc, length_app, Forall_app. split_and!; [done|lia|done..].
    + exists cs1. split_and!; [done|lia|done].
Qed.
End EntryPoints.

(** ** The sweep: nothing expired *)

Lemma expired_nil {V} (m : gmap (string * string) (V * Z)) now :
  (∀ k v t, m !! k = Some (v, t) → now < t) → PendingList.expired m now = [].
Proof.
  intros Hm. destruct (PendingList.expired m now) as [|[k [v t]] l] eqn:E; [done|].
  assert (Hin : (k, (v, t)) ∈ PendingList.expired m now) by (rewrite E; left).
  apply elem_of_expired in Hin as [Hk Ht]. apply Hm in Hk. lia.
Qed.

Section SweepAgain.
Variable cfg : Config.

Lemma sweep_submitted_lookup now s k :
  submitted (exec (checkExpiredAuctions cfg now) s) !! k =
  match submitted s !! k with
  | Some (info, t) => if bool_decide (t ≤ now) then None else Some (info, t)
  | None => None
  end.
Proof.
  rewrite checkExpiredAuctions_eq. cbn [log submitted].
  rewrite visitedFinished_submitted, visitedSubmitted_submitted,
    (foldl_delete_lookup fst).
  destruct (submitted s !! k) as [[info t]|] eqn:Hs.
  - case_bool_decide as Hin; case_bool_decide as Hle; try done.
    + apply expired_key in Hin as (v & t' & Hk' & Ht'). simplify_eq. lia.
    + exfalso. apply Hin, expired_key. eauto.
  - by case_bool_decide.
Qed.

Lemma sweep_finished_unexpired now s k info t :
  finished (exec (checkExpiredAuctions cfg now) s) !! k = Some (info, t) → now < t.
Proof.
  rewrite checkExpiredAuctions_eq. cbn [log finished].
  rewrite visitedFinished_finished, (foldl_delete_lookup fst).
  case_bool_decide as Hin; [done|]. intros Hk.
  destruct (decide (t ≤ now)) as [Hle|]; [|lia].
  exfalso. apply Hin, expired_key. eauto.
Qed.

Lemma NoDup_expired_keys {V} (m : gmap (string * string) (V * Z)) now :
  NoDup (PendingList.expired m now).*1.
Proof.
  unfold PendingList.expired. rewrite merge_sort_Permutation.
  pose proof (NoDup_fst_map_to_list m) as Hnd.
  induction (map_to_list m) as [|e l IH]; simpl; [constructor|].
  apply NoDup_cons in Hnd as [Hne Hnd].
  destruct (bool_decide _); simpl; [|by apply IH].
  apply NoDup_cons. split; [|by apply IH].
  intros Hin. apply Hne. apply list_elem_of_fmap in Hin as (e' & -> & Hin).
  apply list_elem_of_fmap. exists e'. split; [done|].
  apply list_elem_of_In, filter_In in Hin as [Hin _]. by apply list_elem_of_In.
Qed.

Lemma visitedSubmitted_finished_entry now l s k info t e :
  NoDup l.*1 → (k, (info, t)) ∈ l →
  bidResultEntry cfg now k.1 k.2 info Amount.zero now BS_LOSS "null" [] = Some e →
  finished (foldl (visitedSubmitted cfg now) s l) !! k = Some e.
Proof.
  revert s. induction l as [|[k' [i' t']] l IH]; intros s Hnd Hin He.
  - by apply elem_of_nil in Hin.
  - rewrite fmap_cons in Hnd. apply NoDup_cons in Hnd as [Hk' Hnd].
    apply elem_of_cons in Hin as [Heq|Hin].
    + simplify_eq. simpl. rewrite visitedSubmitted_finished_other by done.
      simpl. rewrite He. apply lookup_insert_eq.
    + simpl. by apply IH.
Qed.
End SweepAgain.

(** ** Properties of [doBidResult] *)

(** X1.  A win that reaches the guard of [doBidResult], for a bid that is not
    a no-bid and that the win cost model prices: the call returns normally
    with one banker call, [winBid] for the account, the bid id and the price
    of the model (also when the win price exceeds the bid price, which is
    only recorded as an error); the finished entry is inserted under the key
    with expiry [now + winTimeout]; the outcome [MatchedWinLoss] of kind
    [Win] is delivered when the sink is set; [submitted] is not touched. *)
Theorem bidResult_win_is_charged (cfg : Config) (now : Z) (a sp : Id)
    (sub : SubmissionInfo.t) (wp : Amount.t) (ts : Z) (conf : Confidence)
    (meta : string) (uids : UserIds) (s : State) (price : Amount.t) :
  reachesGuard sp sub = true →
  isNoBid (SubmissionInfo.bid sub) = false →
  evaluate cfg (WinCostModel.setData "win" meta (Response.wcm (SubmissionInfo.bid sub)))
    (Response.bidData (SubmissionInfo.bid sub)) (spotIndexOf sp sub) wp = Some price →
  let r := doBidResult cfg now a sp sub wp ts BS_WIN conf meta uids s in
  let i := finishedInfoOf a sp (spotIndexOf sp sub) sub BS_WIN ts price wp meta uids in
  r.1 = Ok tt
  ∧ finished r.2 = <[(a, sp) := (i, plusSeconds now (winTimeout cfg))]> (finished s)
  ∧ submitted r.2 = submitted s
  ∧ bankerCalls (trace r.2)
    = bankerCalls (trace s)
      ++ [WinBid (Response.account (SubmissionInfo.bid sub))
            (makeBidId a sp (Response.agent (SubmissionInfo.bid sub))) price]
  ∧ outcomes (trace r.2)
    = outcomes (trace s)
      ++ (if onMatchedWinLoss cfg then
            [MatchedWinLossOutcome (MatchedWinLoss.mk Win conf i ts uids)]
          else [])
  ∧ FinishedInfo.reportedStatus i = BS_WIN
  ∧ FinishedInfo.price i = price
  ∧ FinishedInfo.winPrice i = wp.
Proof.
  intros Hg Hn He r i. subst r.
  rewrite (doBidResult_win cfg now a sp sub wp ts conf meta uids s price Hg Hn He).
  cbn [fst snd finished submitted trace].
  split_and!; try done.
  - rewrite !bankerCalls_app, bidResultErrors_bankerCalls. simpl.
    by destruct (onMatchedWinLoss cfg).
  - rewrite !outcomes_app, bidResultErrors_outcomes. simpl.
    by destruct (onMatchedWinLoss cfg).
Qed.

(** Witness of X1: the sample submission, won at 80. *)
Lemma bidResult_win_witness :
  let r := doBidResult Sample.config 10 "A1" "S1" Sample.submission (Sample.usd 80) 10
             BS_WIN Guaranteed "{}" [] initial in
  r.1 = Ok tt
  ∧ bankerCalls (trace r.2) = [WinBid ["acct"] "A1-S1-agent" (Sample.usd 80)].
Proof.
  pose proof (bidResult_win_is_charged Sample.config 10 "A1" "S1" Sample.submission
                (Sample.usd 80) 10 Guaranteed "{}" [] initial (Sample.usd 80)
                eq_refl eq_refl eq_refl) as (H1 & _ & _ & H2 & _).
  split; [exact H1|exact H2].
Defined.

(** X2.  A loss that reaches the guard of [doBidResult], for a bid that is
    not a no-bid: the call returns normally; the finished entry is inserted
    with status LOSS and expiry [now + auctionTimeout]; the outcome of kind
    [Loss] is delivered when the sink is set; the one banker call is the
    [cancelBid] of the guard, made after the outcome, when the scope is
    left. *)
Theorem bidResult_loss_is_cancelled (cfg : Config) (now : Z) (a sp : Id)
    (sub : SubmissionInfo.t) (wp : Amount.t) (ts : Z) (conf : Confidence)
    (meta : string) (uids : UserIds) (s : State) :
  reachesGuard sp sub = true →
  isNoBid (SubmissionInfo.bid sub) = false →
  let r := doBidResult cfg now a sp sub wp ts BS_LOSS conf meta uids s in
  let i := finishedInfoOf a sp (spotIndexOf sp sub) sub BS_LOSS ts wp wp meta uids in
  let cancel := CancelBid (Response.account (SubmissionInfo.bid sub))
                  (makeBidId a sp (Response.agent (SubmissionInfo.bid sub))) in
  r.1 = Ok tt
  ∧ finished r.2 = <[(a, sp) := (i, plusSeconds now (auctionTimeout cfg))]> (finished s)
  ∧ submitted r.2 = submitted s
  ∧ bankerCalls (trace r.2) = bankerCalls (trace s) ++ [cancel]
  ∧ outcomes (trace r.2)
    = outcomes (trace s)
      ++ (if onMatchedWinLoss cfg then
            [MatchedWinLossOutcome (MatchedWinLoss.mk Loss conf i ts uids)]
          else [])
  ∧ (∃ tr, trace r.2 = tr ++ [Banker cancel])
  ∧ FinishedInfo.reportedStatus i = BS_LOSS.
Proof.
  intros Hg Hn r i cancel. subst r.
  rewrite (doBidResult_loss cfg now a sp sub wp ts conf meta uids s Hg Hn).
  cbn [fst snd finished submitted trace].
  split_and!; try done.
  - rewrite !bankerCalls_app, bidResultErrors_bankerCalls. simpl.
    by destruct (onMatchedWinLoss cfg).
  - rewrite !outcomes_app, bidResultErrors_outcomes. simpl.
    destruct (onMatchedWinLoss cfg); simpl; by rewrite ?app_nil_r.
  - eexists. rewrite !app_assoc. reflexivity.
Qed.

(** Witness of X2: the sample submission, reported lost at 20 s. *)
Lemma bidResult_loss_witness :
  let r := doBidResult Sample.config 20000 "A1" "S1" Sample.submission Amount.zero 20000
             BS_LOSS Inferred "null" [] initial in
  r.1 = Ok tt ∧ bankerCalls (trace r.2) = [CancelBid ["acct"] "A1-S1-agent"].
Proof.
  pose proof (bidResult_loss_is_cancelled Sample.config 20000 "A1" "S1" Sample.submission
                Amount.zero 20000 Inferred "null" [] initial eq_refl eq_refl)
    as (H1 & _ & _ & H2 & _).
  split; [exact H1|exact H2].
Defined.

(** X3.  With a null ad spot or an empty account, [doBidResult] raises before
    its guard is armed: no banker call (no [cancelBid]), no outcome, neither
    map changed; with a null ad spot the state is left as it was. *)
Theorem bidResult_rejects_before_guard (cfg : Config) (now : Z) (a sp : Id)
    (sub : SubmissionInfo.t) (wp : Amount.t) (ts : Z) (st : BidStatus) (conf : Confidence)
    (meta : string) (uids : UserIds) (s : State) :
  is_Some (SubmissionInfo.bidRequest sub) →
  isNull sp = true ∨ Response.account (SubmissionInfo.bid sub) = [] →
  let r := doBidResult cfg now a sp sub wp ts st conf meta uids s in
  r.1 = Exc (if isNull sp then "inserting null entry in finished map"
             else "invalid account key")
  ∧ submitted r.2 = submitted s ∧ finished r.2 = finished s
  ∧ bankerCalls (trace r.2) = bankerCalls (trace s)
  ∧ outcomes (trace r.2) = outcomes (trace s)
  ∧ (isNull sp = true → r.2 = s).
Proof.
  destruct s as [sm fm nw nl nc tr]. intros [br Hbr] Hrej.
  unfold doBidResult. msimpl. rewrite Hbr.
  destruct (isNull sp) eqn:Hsp; msimpl; [done|].
  destruct Hrej as [?|Hacc]; [done|]. rewrite Hacc. simpl.
  destruct (_ =? -1); msimpl; simpl;
    rewrite ?bankerCalls_app, ?outcomes_app; simpl; by rewrite ?app_nil_r.
Qed.

(** Witness of X3: the sample submission under a null ad spot. *)
Lemma bidResult_rejects_witness :
  let r := doBidResult Sample.config 10 "A1" nullId Sample.submission (Sample.usd 80) 10
             BS_WIN Guaranteed "{}" [] initial in
  r.1 = Exc "inserting null entry in finished map" ∧ bankerCalls (trace r.2) = [].
Proof.
  pose proof (bidResult_rejects_before_guard Sample.config 10 "A1" nullId
                Sample.submission (Sample.usd 80) 10 BS_WIN Guaranteed "{}" [] initial
                (ex_intro _ (BidRequest.mk ["S1"]) eq_refl) (or_introl eq_refl))
    as (H1 & _ & _ & H2 & _).
  split; [exact H1|exact H2].
Defined.

(** X4.  A win that reaches the guard and whose price cannot be computed (the
    win cost model or the parsing of the bid throws): [doBidResult] raises,
    the guard cancels the bid, nothing is inserted in [finished] and no
    outcome is delivered. *)
Theorem bidResult_unpriced_win_is_cancelled (cfg : Config) (now : Z) (a sp : Id)
    (sub : SubmissionInfo.t) (wp : Amount.t) (ts : Z) (conf : Confidence)
    (meta : string) (uids : UserIds) (s : State) :
  reachesGuard sp sub = true →
  isNoBid (SubmissionInfo.bid sub) = false →
  evaluate cfg (WinCostModel.setData "win" meta (Response.wcm (SubmissionInfo.bid sub)))
    (Response.bidData (SubmissionInfo.bid sub)) (spotIndexOf sp sub) wp = None →
  let r := doBidResult cfg now a sp sub wp ts BS_WIN conf meta uids s in
  (∃ w, r.1 = Exc w)
  ∧ finished r.2 = finished s ∧ submitted r.2 = submitted s
  ∧ bankerCalls (trace r.2)
    = bankerCalls (trace s)
      ++ [CancelBid (Response.account (SubmissionInfo.bid sub))
            (makeBidId a sp (Response.agent (SubmissionInfo.bid sub)))]
  ∧ outcomes (trace r.2) = outcomes (trace s).
Proof.
  intros Hg Hn He r. subst r.
  destruct (doBidResult_unpriced cfg now a sp sub wp ts conf meta uids s Hg Hn He)
    as [Hw ->].
  cbn [finished submitted trace]. split_and!; try done.
  - by rewrite !bankerCalls_app, bidResultErrors_bankerCalls.
  - rewrite !outcomes_app, bidResultErrors_outcomes. simpl. by rewrite app_nil_r.
Qed.

(** Witness of X4: the sample submission under a model that prices nothing. *)
Lemma bidResult_unpriced_witness :
  let cfg := mkConfig 3600 10800 true true true (λ _ _ _ _, None) (λ _, "none") (λ _ _, false) in
  bankerCalls (trace (doBidResult cfg 10 "A1" "S1" Sample.submission (Sample.usd 80) 10
                        BS_WIN Guaranteed "{}" [] initial).2)
  = [CancelBid ["acct"] "A1-S1-agent"].
Proof.
  pose proof (bidResult_unpriced_win_is_cancelled
                (mkConfig 3600 10800 true true true (λ _ _ _ _, None) (λ _, "none") (λ _ _, false))
                10 "A1" "S1" Sample.submission (Sample.usd 80) 10 Guaranteed "{}" []
                initial eq_refl eq_refl eq_refl) as (_ & _ & _ & H & _).
  exact H.
Defined.

(** ** Properties of [doCampaignEvent] *)

(** X5.  A campaign event whose auction is found in [submitted] is buffered:
    it is appended to the [earlyCampaignEvents] of the stored submission,
    which keeps its expiry; with the [onUnmatchedEvent] sink set, an
    [UnmatchedEvent] with reason [inFlight] is delivered; [finished] and the
    counter of campaign events stay and no banker call is made. *)
Theorem campaign_event_in_flight_is_buffered (cfg : Config) (now : Z)
    (ev : PostAuctionEvent.t) (s : State) (sp1 : Id) (info : SubmissionInfo.t) :
  PostAuctionEvent.type ev = PAE_CAMPAIGN_EVENT →
  findAuction (submitted s) (PostAuctionEvent.auctionId ev) (PostAuctionEvent.adSpotId ev)
  = (sp1, Some info) →
  onUnmatchedEvent cfg = true →
  let s' := exec (doEvent cfg now ev) s in
  let key := (PostAuctionEvent.auctionId ev, sp1) in
  let info' := SubmissionInfo.set_earlyCampaignEvents
                 (SubmissionInfo.earlyCampaignEvents info ++ [ev]) info in
  (∃ t, submitted s !! key = Some (info, t)
        ∧ submitted s' = <[key := (info', t)]> (submitted s))
  ∧ finished s' = finished s
  ∧ numCampaignEvents s' = numCampaignEvents s
  ∧ bankerCalls (trace s') = bankerCalls (trace s)
  ∧ outcomes (trace s') = outcomes (trace s) ++ [UnmatchedEvent "inFlight" ev].
Proof.
  intros Hty Hfind Hsink s' key info'. subst s' key.
  rewrite doEvent_campaign by done.
  rewrite (doCampaignEvent_inFlight cfg ev s sp1 info Hty Hfind Hsink).
  cbn [fst snd finished submitted trace numCampaignEvents].
  apply findAuction_Some in Hfind as [t Ht].
  split_and!; try done.
  - exists t. split; [done|]. unfold PendingList.update. by rewrite Ht.
  - rewrite bankerCalls_app. simpl. by rewrite app_nil_r.
  - by rewrite outcomes_app.
Qed.

(** Witness of X5: IMPRESSION after Submit. *)
Lemma campaign_event_in_flight_witness :
  submitted (exec (doEvent Sample.config 5 Sample.impression) Sample.afterSubmit)
  = <[Sample.key :=
        (SubmissionInfo.set_earlyCampaignEvents [Sample.impression] Sample.submission,
         15000)]> (submitted Sample.afterSubmit)
  ∧ outcomes (trace (exec (doEvent Sample.config 5 Sample.impression) Sample.afterSubmit))
    = outcomes (trace Sample.afterSubmit) ++ [UnmatchedEvent "inFlight" Sample.impression].
Proof.
  assert (H1 : findAuction (submitted Sample.afterSubmit) "A1" "S1"
               = ("S1", Some Sample.submission)) by (vm_compute; reflexivity).
  pose proof (campaign_event_in_flight_is_buffered Sample.config 5 Sample.impression
                Sample.afterSubmit "S1" Sample.submission eq_refl H1 eq_refl)
    as ((t & Ht & H2) & _ & _ & _ & H3).
  assert (Ht' : submitted Sample.afterSubmit !! ("A1", "S1")
                = Some (Sample.submission, 15000)) by (vm_compute; reflexivity).
  split; [|exact H3].
  change (submitted Sample.afterSubmit !! ("A1", "S1") = Some (Sample.submission, t)) in Ht.
  rewrite Ht' in Ht. injection Ht as <-. exact H2.
Defined.

(** X6.  A campaign event whose auction is found in [finished] only, under a
    label that the entry does not hold yet: the label is recorded with the
    time and the meta of the event, the user ids are added, the entry keeps
    its expiry, the counter of campaign events grows by one and the outcome
    [MatchedCampaignEvent] is delivered when its sink is set; the entry then
    holds the label, so that the same event again is a duplicate.  No banker
    call is made and [submitted] stays. *)
Theorem campaign_event_is_matched (cfg : Config) (now : Z) (ev : PostAuctionEvent.t)
    (s : State) (sp1 sp2 : Id) (info : FinishedInfo.t) :
  PostAuctionEvent.type ev = PAE_CAMPAIGN_EVENT →
  findAuction (submitted s) (PostAuctionEvent.auctionId ev) (PostAuctionEvent.adSpotId ev)
  = (sp1, None) →
  findAuction (finished s) (PostAuctionEvent.auctionId ev) sp1 = (sp2, Some info) →
  FinishedInfo.hasEvent (PostAuctionEvent.label ev) info = false →
  isNull sp2 = false →
  let s' := exec (doEvent cfg now ev) s in
  let key := (PostAuctionEvent.auctionId ev, sp2) in
  let info' :=
    FinishedInfo.addUids (PostAuctionEvent.uids ev)
      (FinishedInfo.setEvent (PostAuctionEvent.label ev) (PostAuctionEvent.timestamp ev)
         (PostAuctionEvent.metadata ev) info) in
  (∃ t, finished s !! key = Some (info, t)
        ∧ finished s' = <[key := (info', t)]> (finished s))
  ∧ FinishedInfo.hasEvent (PostAuctionEvent.label ev) info' = true
  ∧ FinishedInfo.reportedStatus info' = FinishedInfo.reportedStatus info
  ∧ submitted s' = submitted s
  ∧ numCampaignEvents s' = numCampaignEvents s + 1
  ∧ bankerCalls (trace s') = bankerCalls (trace s)
  ∧ outcomes (trace s')
    = outcomes (trace s)
      ++ (if onMatchedCampaignEvent cfg then
            [MatchedCampaignEvent (PostAuctionEvent.label ev) info']
          else []).
Proof.
  intros Hty Hsub Hfin Hev Hsp s' key info'. subst s' key.
  rewrite doEvent_campaign by done.
  rewrite (doCampaignEvent_matched cfg ev s sp1 sp2 info Hty Hsub Hfin Hev Hsp).
  cbn [fst snd finished submitted trace numCampaignEvents].
  apply findAuction_Some in Hfin as [t Ht].
  split_and!; try done.
  - exists t. split; [done|]. unfold PendingList.update. by rewrite Ht.
  - unfold FinishedInfo.hasEvent. simpl. rewrite lookup_insert_eq.
    apply bool_decide_eq_true_2. eauto.
  - rewrite !bankerCalls_app. destruct (onMatchedCampaignEvent cfg); simpl;
      by rewrite ?app_nil_r.
  - rewrite !outcomes_app. destruct (onMatchedCampaignEvent cfg); simpl;
      by rewrite ?app_nil_r.
Qed.

(** Witness of X6: IMPRESSION after Submit and WIN(80). *)
Lemma campaign_event_is_matched_witness :
  numCampaignEvents (exec (doEvent Sample.config 20 Sample.impression) Sample.afterWin)
  = numCampaignEvents Sample.afterWin + 1
  ∧ bankerCalls (trace (exec (doEvent Sample.config 20 Sample.impression) Sample.afterWin))
    = bankerCalls (trace Sample.afterWin).
Proof.
  assert (H1 : findAuction (submitted Sample.afterWin) "A1" "S1" = ("S1", None))
    by (vm_compute; reflexivity).
  assert (H2 : findAuction (finished Sample.afterWin) "A1" "S1"
               = ("S1", Some Sample.winInfo)) by (vm_compute; reflexivity).
  pose proof (campaign_event_is_matched Sample.config 20 Sample.impression
                Sample.afterWin "S1" "S1" Sample.winInfo eq_refl H1 H2 eq_refl eq_refl)
    as (_ & _ & _ & _ & H3 & H4 & _).
  split; [exact H3|exact H4].
Defined.

(** X7.  A campaign event whose auction is in neither map changes nothing in
    the matcher: with the [onUnmatchedEvent] sink set, the event is reported
    as an [UnmatchedEvent] with reason [auctionNotFound], after its counter
    and error record, and dropped. *)
Theorem campaign_event_for_unknown_auction (cfg : Config) (now : Z)
    (ev : PostAuctionEvent.t) (s : State) (sp1 sp2 : Id) :
  PostAuctionEvent.type ev = PAE_CAMPAIGN_EVENT →
  findAuction (submitted s) (PostAuctionEvent.auctionId ev) (PostAuctionEvent.adSpotId ev)
  = (sp1, None) →
  findAuction (finished s) (PostAuctionEvent.auctionId ev) sp1 = (sp2, None) →
  onUnmatchedEvent cfg = true →
  let label := PostAuctionEvent.label ev in
  exec (doEvent cfg now ev) s
  = mkState (submitted s) (finished s) (numWins s) (numLosses s) (numCampaignEvents s)
      (trace s
       ++ [RecordHit ("delivery.EVENT." +:+ label +:+ ".messagesReceived");
           RecordHit ("delivery." +:+ label +:+ ".auctionNotFound");
           DoError ("doCampaignEvent.auctionNotFound" +:+ label)
             "auction not found for delivery message";
           Sink (UnmatchedEvent "auctionNotFound" ev)]).
Proof.
  intros Hty Hsub Hfin Hsink label.
  rewrite doEvent_campaign by done.
  by rewrite (doCampaignEvent_notFound cfg ev s sp1 sp2 Hty Hsub Hfin Hsink).
Qed.

(** Witness of X7: IMPRESSION on the empty matcher. *)
Lemma campaign_event_for_unknown_auction_witness :
  outcomes (trace (exec (doEvent Sample.config 5 Sample.impression) initial))
  = [UnmatchedEvent "auctionNotFound" Sample.impression].
Proof.
  assert (H1 : findAuction (submitted initial) "A1" "S1" = ("S1", None))
    by (vm_compute; reflexivity).
  assert (H2 : findAuction (finished initial) "A1" "S1" = ("S1", None))
    by (vm_compute; reflexivity).
  rewrite (campaign_event_for_unknown_auction Sample.config 5 Sample.impression initial
             "S1" "S1" eq_refl H1 H2 eq_refl).
  reflexivity.
Defined.

(** X8.  Whatever the event, the state and the sinks, [doCampaignEvent] makes
    no banker call, leaves the counters of wins and losses, adds no key to
    and removes no key from either map, and changes no expiry. *)
Theorem campaign_event_frame (cfg : Config) (ev : PostAuctionEvent.t) (s : State) :
  let s' := (doCampaignEvent cfg ev s).2 in
  bankerCalls (trace s') = bankerCalls (trace s)
  ∧ numWins s' = numWins s ∧ numLosses s' = numLosses s
  ∧ dom (submitted s') = dom (submitted s)
  ∧ dom (finished s') = dom (finished s)
  ∧ (∀ k, snd <$> submitted s' !! k = snd <$> submitted s !! k)
  ∧ (∀ k, snd <$> finished s' !! k = snd <$> finished s !! k).
Proof.
  destruct (doCampaignEvent_step cfg ev s) as (Hb & Hw & Hl & Hs & Hf).
  split_and!; try done.
  - apply set_eq. intros k. rewrite !elem_of_dom. specialize (Hs k).
    destruct Hs; split; intros [? ?]; done.
  - apply set_eq. intros k. rewrite !elem_of_dom. specialize (Hf k).
    destruct Hf; split; intros [? ?]; done.
  - intros k. specialize (Hs k). destruct Hs as [? ? [Ht _]|]; [|done].
    simpl. by rewrite Ht.
  - intros k. specialize (Hf k). destruct Hf as [? ? [Ht _]|]; [|done].
    simpl. by rewrite Ht.
Qed.

(** ** Properties of [doWinLoss] *)

(** X9.  A win or loss event for a key in neither map whose bid is more than
    15 seconds old is dropped: neither map changes and no outcome is
    delivered; when the event carries an account, [forceWinBid] is called for
    that account and the win price of the event, for a LOSS event as for a
    WIN event; without an account no banker call is made. *)
Theorem orphan_event_forces_win (cfg : Config) (now : Z) (ev : PostAuctionEvent.t)
    (s : State) :
  PostAuctionEvent.type ev = PAE_WIN ∨ PostAuctionEvent.type ev = PAE_LOSS →
  finished s !! keyOf ev = None →
  submitted s !! keyOf ev = None →
  lossTimeout * 1000 < getTimeGapMs now (PostAuctionEvent.bidTimestamp ev) →
  let s' := exec (doEvent cfg now ev) s in
  submitted s' = submitted s ∧ finished s' = finished s
  ∧ bankerCalls (trace s')
    = bankerCalls (trace s)
      ++ (if bool_decide (PostAuctionEvent.account ev = []) then []
          else [ForceWinBid (PostAuctionEvent.account ev) (PostAuctionEvent.winPrice ev)])
  ∧ outcomes (trace s') = outcomes (trace s).
Proof.
  intros Hty Hf Hs Hgap s'. subst s'.
  rewrite doEvent_winLoss by done.
  rewrite (doWinLoss_orphan cfg now ev false s Hf Hs (timeGapBelow_gt cfg _ _ _ Hgap)).
  cbn [fst snd finished submitted trace].
  split_and!; try done.
  - rewrite !bankerCalls_app, bankerCalls_counted. simpl.
    by destruct (bool_decide (_ = [])).
  - rewrite !outcomes_app, outcomes_counted. simpl.
    destruct (bool_decide (_ = [])); simpl; by rewrite ?app_nil_r.
Qed.

(** Witness of X9: a LOSS with an account, one hour after its bid, on the
    empty matcher. *)
Lemma orphan_event_witness :
  let ev := PostAuctionEvent.mk PAE_LOSS "A1" "S1" nullId (Sample.usd 50) 3600000 0 "{}" []
              ["acct"] in
  bankerCalls (trace (exec (doEvent Sample.config 3600000 ev) initial))
  = [ForceWinBid ["acct"] (Sample.usd 50)].
Proof.
  assert (Hgap : lossTimeout * 1000 < getTimeGapMs 3600000 0) by reflexivity.
  pose proof (orphan_event_forces_win Sample.config 3600000
                (PostAuctionEvent.mk PAE_LOSS "A1" "S1" nullId (Sample.usd 50) 3600000 0
                   "{}" [] ["acct"])
                initial (or_intror eq_refl) eq_refl eq_refl Hgap) as (_ & _ & H & _).
  exact H.
Defined.

(** X10.  A win or loss event for a key in neither map whose bid is less than
    15 seconds old is buffered: [submitted] gets, under the key, a submission
    without bid request that holds the event as its one early event, with
    expiry 15 seconds after [now]; [finished] stays, no banker call is made
    and no outcome is delivered. *)
Theorem early_event_is_buffered (cfg : Config) (now : Z) (ev : PostAuctionEvent.t)
    (s : State) :
  PostAuctionEvent.type ev = PAE_WIN ∨ PostAuctionEvent.type ev = PAE_LOSS →
  finished s !! keyOf ev = None →
  submitted s !! keyOf ev = None →
  getTimeGapMs now (PostAuctionEvent.bidTimestamp ev) < lossTimeout * 1000 →
  let s' := exec (doEvent cfg now ev) s in
  submitted s'
  = <[keyOf ev := (SubmissionInfo.set_earlyWinEvents [ev] SubmissionInfo.empty,
                   now + 15000)]> (submitted s)
  ∧ finished s' = finished s
  ∧ bankerCalls (trace s') = bankerCalls (trace s)
  ∧ outcomes (trace s') = outcomes (trace s).
Proof.
  intros Hty Hf Hs Hgap s'. subst s'.
  rewrite doEvent_winLoss by done.
  rewrite (doWinLoss_buffered cfg now ev false s Hf Hs Hgap).
  cbn [snd set_submitted log finished submitted trace].
  split_and!; try done.
  - rewrite bankerCalls_app, bankerCalls_counted. simpl. by rewrite app_nil_r.
  - rewrite outcomes_app, outcomes_counted. simpl. by rewrite app_nil_r.
Qed.

(** Witness of X10: WIN(80) at 5 ms on the empty matcher. *)
Lemma early_event_is_buffered_witness :
  submitted (exec (doEvent Sample.config 5 (Sample.win 80)) initial)
  = <[Sample.key := (SubmissionInfo.set_earlyWinEvents [Sample.win 80] SubmissionInfo.empty,
                     15005)]> ∅.
Proof.
  pose proof (early_event_is_buffered Sample.config 5 (Sample.win 80) initial
                (or_introl eq_refl) eq_refl eq_refl eq_refl) as (H & _).
  exact H.
Defined.

(** X11.  A further win or loss event for a key that is buffered without bid
    request is appended to the early events of the entry, behind those that
    it holds, and the expiry of the entry is set to 15 seconds after [now];
    the campaign events that the entry buffers are kept; [finished] stays and
    no banker call is made. *)
Theorem further_early_event_is_appended (cfg : Config) (now : Z)
    (ev : PostAuctionEvent.t) (s : State) (info : SubmissionInfo.t) (t : Z) :
  PostAuctionEvent.type ev = PAE_WIN ∨ PostAuctionEvent.type ev = PAE_LOSS →
  finished s !! keyOf ev = None →
  submitted s !! keyOf ev = Some (info, t) →
  SubmissionInfo.bidRequest info = None →
  let s' := exec (doEvent cfg now ev) s in
  submitted s'
  = <[keyOf ev := (SubmissionInfo.set_earlyWinEvents
                     (SubmissionInfo.earlyWinEvents info ++ [ev]) info,
                   now + 15000)]> (submitted s)
  ∧ finished s' = finished s
  ∧ bankerCalls (trace s') = bankerCalls (trace s)
  ∧ outcomes (trace s') = outcomes (trace s).
Proof.
  intros Hty Hf Hs Hbr s'. subst s'.
  rewrite doEvent_winLoss by done.
  rewrite (doWinLoss_doubled cfg now ev false s info t Hf Hs Hbr).
  cbn [snd set_submitted finished submitted trace].
  split_and!.
  - by rewrite insert_delete_eq.
  - done.
  - apply bankerCalls_counted.
  - apply outcomes_counted.
Qed.

(** Witness of X11: LOSS at 7 ms after the early WIN(80) at 5 ms. *)
Lemma further_early_event_witness :
  let s := exec (doEvent Sample.config 5 (Sample.win 80)) initial in
  submitted (exec (doEvent Sample.config 7 Sample.loss) s)
  = <[Sample.key :=
        (SubmissionInfo.set_earlyWinEvents [Sample.win 80; Sample.loss] SubmissionInfo.empty,
         15007)]> (submitted s).
Proof.
  assert (H1 : submitted (exec (doEvent Sample.config 5 (Sample.win 80)) initial)
                 !! keyOf Sample.loss
               = Some (SubmissionInfo.set_earlyWinEvents [Sample.win 80] SubmissionInfo.empty,
                       15005)) by (vm_compute; reflexivity).
  pose proof (further_early_event_is_appended Sample.config 7 Sample.loss
                (exec (doEvent Sample.config 5 (Sample.win 80)) initial) _ _
                (or_intror eq_refl) eq_refl H1 eq_refl) as (H & _).
  exact H.
Defined.

(** X12.  One event of [doEvent] makes at most one banker call, and that call
    is a commit ([winBid], [cancelBid] or [forceWinBid]), never [attachBid]
    or [logBidEvents]; a WIN event adds one to the counter of wins and a LOSS
    event one to the counter of losses, whatever path the event takes, and
    no other event changes these counters; an event of another type than
    win, loss and campaign event leaves the state as it was. *)
Theorem event_makes_at_most_one_commit (cfg : Config) (now : Z)
    (ev : PostAuctionEvent.t) (s : State) :
  let s' := exec (doEvent cfg now ev) s in
  (∃ cs, bankerCalls (trace s') = bankerCalls (trace s) ++ cs
         ∧ (length cs ≤ 1)%nat ∧ Forall (λ c, isCommit c = true) cs)
  ∧ numWins s' = (if bool_decide (PostAuctionEvent.type ev = PAE_WIN)
                  then numWins s + 1 else numWins s)
  ∧ numLosses s' = (if bool_decide (PostAuctionEvent.type ev = PAE_LOSS)
                    then numLosses s + 1 else numLosses s)
  ∧ (PostAuctionEvent.type ev = PAE_INVALID → s' = s).
Proof.
  intros s'. subst s'. destruct (PostAuctionEvent.type ev) eqn:Hty.
  - unfold doEvent. rewrite exec_tryCatch_ignore, Hty. unfold throw. simpl.
    split_and!; try done. exists []. rewrite app_nil_r. split_and!; [done|simpl; lia|done].
  - rewrite doEvent_winLoss by auto.
    destruct (doWinLoss_effects cfg now ev false s) as (Hcs & Hw & Hl).
    rewrite Hty in Hw, Hl. simpl in *. done.
  - rewrite doEvent_winLoss by auto.
    destruct (doWinLoss_effects cfg now ev false s) as (Hcs & Hw & Hl).
    rewrite Hty in Hw, Hl. simpl in *. done.
  - rewrite doEvent_campaign by done.
    destruct (doCampaignEvent_step cfg ev s) as (Hb & Hw & Hl & _).
    simpl. split_and!; try done. exists []. rewrite app_nil_r.
    split_and!; [done|simpl; lia|done].
Qed.

(** Witness of X12: an event of no known type on the matcher after Submit. *)
Lemma event_of_unknown_type_witness :
  let ev := PostAuctionEvent.mk PAE_INVALID "A1" "S1" nullId Amount.zero 10 0 "{}" [] [] in
  exec (doEvent Sample.config 10 ev) Sample.afterSubmit = Sample.afterSubmit.
Proof.
  exact (proj2 (proj2 (proj2
           (event_makes_at_most_one_commit Sample.config 10
              (PostAuctionEvent.mk PAE_INVALID "A1" "S1" nullId Amount.zero 10 0 "{}" [] [])
              Sample.afterSubmit))) eq_refl).
Defined.

(** ** Properties of [doAuction] *)

(** X13.  [doAuction] calls [attachBid] once, with the account, the bid id
    and the maximum price of the response, before it replays the early
    win/loss events of the key; each replayed event makes at most one banker
    call, a commit. *)
Theorem auction_attaches_then_replays (cfg : Config) (now : Z)
    (sev : SubmittedAuctionEvent.t) (s : State) :
  let s' := exec (doAuction cfg now sev) s in
  let response := SubmittedAuctionEvent.bidResponse sev in
  ∃ cs, bankerCalls (trace s')
        = bankerCalls (trace s)
          ++ AttachBid (Response.account response)
               (makeBidId (SubmittedAuctionEvent.auctionId sev)
                  (SubmittedAuctionEvent.adSpotId sev) (Response.agent response))
               (Price.maxPrice (Response.price response))
             :: cs
        ∧ (length cs ≤ length (replayed sev s))%nat
        ∧ Forall (λ c, isCommit c = true) cs.
Proof.
  intros s' response. subst s'. rewrite doAuction_replay.
  destruct (forEach_replay_effects cfg now (replayed sev s) (attached sev s))
    as (cs & Hcs & Hlen & Hall).
  exists cs. split_and!; [|done..]. rewrite Hcs. unfold attached.
  cbn [trace]. rewrite !bankerCalls_app. simpl.
  destruct (submitted s !! _); simpl; by rewrite <- app_assoc.
Qed.

(** X14.  [doAuction] for a key under which no early win/loss event is
    buffered: the submission of the event is stored under the key with the
    loss timeout of the event as expiry, replacing what was stored there but
    for the campaign events buffered so far; [finished] and the counters
    stay, the one banker call is [attachBid] and no outcome is delivered. *)
Theorem auction_is_stored (cfg : Config) (now : Z) (sev : SubmittedAuctionEvent.t)
    (s : State) :
  let key := (SubmittedAuctionEvent.auctionId sev, SubmittedAuctionEvent.adSpotId sev) in
  (∀ info t, submitted s !! key = Some (info, t) → SubmissionInfo.earlyWinEvents info = []) →
  let s' := exec (doAuction cfg now sev) s in
  let response := SubmittedAuctionEvent.bidResponse sev in
  submitted s'
  = <[key := (submissionOf sev (submitted s !! key), SubmittedAuctionEvent.lossTimeout sev)]>
      (submitted s)
  ∧ finished s' = finished s
  ∧ numWins s' = numWins s ∧ numLosses s' = numLosses s
  ∧ bankerCalls (trace s')
    = bankerCalls (trace s)
      ++ [AttachBid (Response.account response)
            (makeBidId (SubmittedAuctionEvent.auctionId sev)
               (SubmittedAuctionEvent.adSpotId sev) (Response.agent response))
            (Price.maxPrice (Response.price response))]
  ∧ outcomes (trace s') = outcomes (trace s).
Proof.
  intros key Hearly s' response. subst s'. rewrite doAuction_replay.
  assert (Hr : replayed sev s = []).
  { unfold replayed. fold key. destruct (submitted s !! key) as [[i t]|] eqn:Hk; [|done].
    by apply (Hearly i t). }
  rewrite Hr. cbn [forEach]. unfold mret, M_ret, ret, attached. fold key.
  cbn [snd finished submitted trace numWins numLosses].
  split_and!; try done.
  - by rewrite insert_delete_eq.
  - rewrite !bankerCalls_app. simpl. by destruct (submitted s !! key).
  - rewrite !outcomes_app. simpl. destruct (submitted s !! key); simpl;
      by rewrite app_nil_r.
Qed.

(** Witness of X14: Submit on the empty matcher. *)
Lemma auction_is_stored_witness :
  submitted (exec (doAuction Sample.config 0 Sample.submit) initial)
  = <[Sample.key := (Sample.submission, 15000)]> ∅
  ∧ bankerCalls (trace (exec (doAuction Sample.config 0 Sample.submit) initial))
    = [AttachBid ["acct"] "A1-S1-agent" (Sample.usd 100)].
Proof.
  assert (H0 : ∀ info t,
             submitted initial !! ("A1", "S1") = Some (info, t) →
             SubmissionInfo.earlyWinEvents info = []) by (vm_compute; by intros).
  pose proof (auction_is_stored Sample.config 0 Sample.submit initial H0)
    as (H1 & _ & _ & _ & H2 & _).
  split; [exact H1|exact H2].
Defined.

(** ** Properties of the sweep *)

(** X16.  A sweep at a time at which no entry of either map has expired
    changes nothing in the matcher but for its one banker call,
    [logBidEvents]. *)
Theorem sweep_without_expired_entries (cfg : Config) (now : Z) (s : State) :
  (∀ k info t, submitted s !! k = Some (info, t) → now < t) →
  (∀ k info t, finished s !! k = Some (info, t) → now < t) →
  exec (checkExpiredAuctions cfg now) s = log (Banker LogBidEvents) s.
Proof.
  intros Hs Hf. rewrite checkExpiredAuctions_eq.
  rewrite (expired_nil (submitted s)) by done. cbn [foldl].
  rewrite (expired_nil (finished s)) by done. done.
Qed.

(** Witness of X16: a sweep at 10 ms after Submit, whose loss timeout is at
    15 s. *)
Lemma sweep_without_expired_entries_witness :
  exec (checkExpiredAuctions Sample.config 10) Sample.afterSubmit
  = log (Banker LogBidEvents) Sample.afterSubmit.
Proof.
  assert (Hsub : submitted Sample.afterSubmit
                 = {[Sample.key := (Sample.submission, 15000)]})
    by (vm_compute; reflexivity).
  assert (Hfin : finished Sample.afterSubmit = ∅) by (vm_compute; reflexivity).
  apply (sweep_without_expired_entries Sample.config 10 Sample.afterSubmit).
  - intros k info t. rewrite Hsub. intros [_ [= _ <-]]%lookup_singleton_Some. lia.
  - intros k info t. rewrite Hfin, lookup_empty. by intros.
Defined.

(** X17.  After a sweep at [now], a sweep at the same or an earlier time
    finds nothing to expire: it only calls [logBidEvents] again.  No entry of
    either map is expired at [now] after the first sweep. *)
Theorem sweep_again_only_logs (cfg : Config) (now now' : Z) (s : State) :
  now' ≤ now →
  let s1 := exec (checkExpiredAuctions cfg now) s in
  exec (checkExpiredAuctions cfg now') s1 = log (Banker LogBidEvents) s1
  ∧ (∀ k info t, submitted s1 !! k = Some (info, t) → now < t)
  ∧ (∀ k info t, finished s1 !! k = Some (info, t) → now < t).
Proof.
  intros Hle s1.
  assert (Hs : ∀ k info t, submitted s1 !! k = Some (info, t) → now < t).
  { intros k info t. subst s1. rewrite sweep_submitted_lookup.
    destruct (submitted s !! k) as [[i t']|]; [|done].
    case_bool_decide; [done|]. intros [= <- <-]. lia. }
  assert (Hf : ∀ k info t, finished s1 !! k = Some (info, t) → now < t).
  { intros k info t. apply sweep_finished_unexpired. }
  split_and!; [|done..].
  rewrite checkExpiredAuctions_eq.
  rewrite (expired_nil (submitted s1)) by (intros k v t Hk; apply Hs in Hk; lia).
  cbn [foldl].
  rewrite (expired_nil (finished s1)) by (intros k v t Hk; apply Hf in Hk; lia).
  done.
Qed.

(** Witness of X17: two sweeps at 20 s after Submit. *)
Lemma sweep_again_witness :
  exec (checkExpiredAuctions Sample.config 20000) Sample.afterInferredLoss
  = log (Banker LogBidEvents) Sample.afterInferredLoss.
Proof.
  assert (Hle : 20000 ≤ 20000) by lia.
  exact (proj1 (sweep_again_only_logs Sample.config 20000 20000 Sample.afterSubmit Hle)).
Defined.

(** X18.  The sweep resolves an expired submission that reaches the guard of
    [doBidResult] with a bid that is not a no-bid, its key not being
    finished, as an inferred loss: the key leaves [submitted] and [finished]
    holds, under the key, the entry of a LOSS at price 0 timed at the sweep,
    with expiry [now + auctionTimeout]; when [auctionTimeout] is not
    positive, that entry is expired and removed by the same sweep. *)
Theorem sweep_infers_loss (cfg : Config) (now : Z) (s : State) (k : string * string)
    (info : SubmissionInfo.t) (t : Z) :
  submitted s !! k = Some (info, t) → t ≤ now →
  finished s !! k = None →
  reachesGuard k.2 info = true →
  isNoBid (SubmissionInfo.bid info) = false →
  let s' := exec (checkExpiredAuctions cfg now) s in
  let i := finishedInfoOf k.1 k.2 (spotIndexOf k.2 info) info BS_LOSS now
             Amount.zero Amount.zero "null" [] in
  submitted s' !! k = None
  ∧ finished s' !! k
    = (if bool_decide (0 < auctionTimeout cfg)
       then Some (i, plusSeconds now (auctionTimeout cfg)) else None)
  ∧ FinishedInfo.reportedStatus i = BS_LOSS
  ∧ FinishedInfo.hasWin i = true.
Proof.
  intros Hk Ht Hfin Hg Hn s' i. subst s'. split_and!; [| |done..].
  - rewrite sweep_submitted_lookup, Hk. by rewrite bool_decide_eq_true_2.
  - rewrite checkExpiredAuctions_eq. cbn [log finished].
    rewrite visitedFinished_finished, (foldl_delete_lookup fst).
    set (s1 := foldl (visitedSubmitted cfg now) s (PendingList.expired (submitted s) now)).
    assert (H1 : finished s1 !! k = Some (i, plusSeconds now (auctionTimeout cfg))).
    { apply (visitedSubmitted_finished_entry cfg now _ s k info t).
      - apply NoDup_expired_keys.
      - by apply elem_of_expired.
      - unfold bidResultEntry. by rewrite (bidResultPrice_loss cfg _ _ _ _ Hg Hn). }
    rewrite H1. unfold plusSeconds in *.
    case_bool_decide as Hin; case_bool_decide as Hpos; try done.
    + apply expired_key in Hin as (v & t' & Hk' & Ht'). simplify_eq. lia.
    + exfalso. apply Hin, expired_key. eexists _, _. split; [done|]. lia.
Qed.

(** Witness of X18: the sweep at 20 s after Submit. *)
Lemma sweep_infers_loss_witness :
  finished Sample.afterInferredLoss !! Sample.key = Some (Sample.lossInfo, 10820000)
  ∧ submitted Sample.afterInferredLoss !! Sample.key = None.
Proof.
  assert (H1 : submitted Sample.afterSubmit !! Sample.key = Some (Sample.submission, 15000))
    by (vm_compute; reflexivity).
  assert (H2 : 15000 ≤ 20000) by lia.
  assert (H3 : finished Sample.afterSubmit !! Sample.key = None)
    by (vm_compute; reflexivity).
  pose proof (sweep_infers_loss Sample.config 20000 Sample.afterSubmit Sample.key
                Sample.submission 15000 H1 H2 H3 eq_refl eq_refl) as (H4 & H5 & _).
  split; [exact H5|exact H4].
Defined.

(** ** Sequences of events *)

Lemma option_Forall2_Some_l {A} (R : relation A) (x : A) (y : option A) :
  option_Forall2 R (Some x) y → ∃ x', y = Some x' ∧ R x x'.
Proof. inversion 1; eauto. Qed.

Lemma hasEvent_finishedInfoOf l a sp n sub st ts p wp meta uids :
  FinishedInfo.hasEvent l (finishedInfoOf a sp n sub st ts p wp meta uids) = false.
Proof.
  unfold FinishedInfo.hasEvent, finishedInfoOf. simpl. rewrite lookup_empty.
  apply bool_decide_eq_false_2. by intros [? ?].
Qed.

Lemma bidResultPrice_win cfg sp info wp meta :
  reachesGuard sp info = true → isNoBid (SubmissionInfo.bid info) = false →
  bidResultPrice cfg sp info wp BS_WIN meta
  = evaluate cfg (WinCostModel.setData "win" meta (Response.wcm (SubmissionInfo.bid info)))
      (Response.bidData (SubmissionInfo.bid info)) (spotIndexOf sp info) wp.
Proof.
  unfold reachesGuard, bidResultPrice, spotIndexOf. intros Hg Hn. rewrite Hn.
  destruct (isNull sp); [done|].
  destruct (SubmissionInfo.bidRequest info); [|done].
  by destruct (bool_decide (length _ = 0%nat)).
Qed.

(** X19.  With the [onUnmatchedEvent] sink set, for a submission that is
    stored with its bid request and buffers no campaign event yet, a campaign
    event that names the key with its ad spot and the win/loss event of the
    key commute on the finished entry (without the sink the campaign event
    that comes first is lost and the entry gets no label): the
    campaign event first (it is buffered, then replayed after the result is
    committed) and the win/loss event first end with the same finished entry,
    which holds the label of the campaign event, or with no entry in both
    orders when [doBidResult] raises; in both orders the key leaves
    [submitted]. *)
Theorem campaign_event_commutes_with_result (cfg : Config) (s : State)
    (e w : PostAuctionEvent.t) (info : SubmissionInfo.t) (t n1 n2 n3 n4 : Z) :
  PostAuctionEvent.type e = PAE_CAMPAIGN_EVENT →
  keyOf e = keyOf w →
  isNull (PostAuctionEvent.adSpotId e) = false →
  PostAuctionEvent.type w = PAE_WIN ∨ PostAuctionEvent.type w = PAE_LOSS →
  finished s !! keyOf w = None →
  submitted s !! keyOf w = Some (info, t) →
  is_Some (SubmissionInfo.bidRequest info) →
  SubmissionInfo.earlyCampaignEvents info = [] →
  onUnmatchedEvent cfg = true →
  let sA := run cfg [OpEvent n1 e; OpEvent n2 w] s in
  let sB := run cfg [OpEvent n3 w; OpEvent n4 e] s in
  fst <$> finished sA !! keyOf w = fst <$> finished sB !! keyOf w
  ∧ fst <$> finished sA !! keyOf w
    = (λ price,
         FinishedInfo.addUids (PostAuctionEvent.uids e)
           (FinishedInfo.setEvent (PostAuctionEvent.label e) (PostAuctionEvent.timestamp e)
              (PostAuctionEvent.metadata e)
              (finishedInfoOf (PostAuctionEvent.auctionId w) (PostAuctionEvent.adSpotId w)
                 (spotIndexOf (PostAuctionEvent.adSpotId w) info) info (statusOf w)
                 (PostAuctionEvent.timestamp w) price (PostAuctionEvent.winPrice w)
                 (PostAuctionEvent.metadata w) (PostAuctionEvent.uids w))))
      <$> bidResultPrice cfg (PostAuctionEvent.adSpotId w) info
            (PostAuctionEvent.winPrice w) (statusOf w) (PostAuctionEvent.metadata w)
  ∧ submitted sA !! keyOf w = None
  ∧ submitted sB !! keyOf w = None.
Proof.
  intros Hte Hkey Hsp Htw Hf Hs Hbr Hce Hsink sA sB.
  set (a := PostAuctionEvent.auctionId w). set (sp := PostAuctionEvent.adSpotId w).
  (* the finished entry of the key after the campaign event, for a state in
     which the key holds the result and is not submitted *)
  assert (Hlookup : ∀ s0,
    submitted s0 !! keyOf w = None →
    fst <$> finished (doCampaignEvent cfg e s0).2 !! keyOf w
    = match finished s0 !! keyOf w with
      | Some (i, _) =>
        Some (if FinishedInfo.hasEvent (PostAuctionEvent.label e) i then i
              else FinishedInfo.addUids (PostAuctionEvent.uids e)
                     (FinishedInfo.setEvent (PostAuctionEvent.label e)
                        (PostAuctionEvent.timestamp e) (PostAuctionEvent.metadata e) i))
      | None => None
      end).
  { intros s0 Hs0. rewrite <- Hkey in *.
    rewrite (doCampaignEvent_finished_lookup cfg e s0 Hte Hsp Hs0).
    destruct (finished s0 !! keyOf e) as [[i ti]|]; [|done].
    by destruct (FinishedInfo.hasEvent _ _). }
  set (res := (λ price,
         FinishedInfo.addUids (PostAuctionEvent.uids e)
           (FinishedInfo.setEvent (PostAuctionEvent.label e) (PostAuctionEvent.timestamp e)
              (PostAuctionEvent.metadata e)
              (finishedInfoOf a sp (spotIndexOf sp info) info (statusOf w)
                 (PostAuctionEvent.timestamp w) price (PostAuctionEvent.winPrice w)
                 (PostAuctionEvent.metadata w) (PostAuctionEvent.uids w))))
      <$> bidResultPrice cfg sp info (PostAuctionEvent.winPrice w) (statusOf w)
            (PostAuctionEvent.metadata w)).
  (* the win/loss event first *)
  assert (HB : fst <$> finished sB !! keyOf w = res ∧ submitted sB !! keyOf w = None).
  { subst sB. unfold run. cbn [foldl step].
    rewrite (doEvent_winLoss cfg n3 w s Htw).
    destruct (doWinLoss_delivered_maps cfg n3 w false s info t Hf Hs Hbr Hce)
      as [Hfin1 Hsub1].
    set (s1 := (doWinLoss cfg n3 w false s).2) in *.
    assert (Hs1 : submitted s1 !! keyOf w = None)
      by (rewrite Hsub1; apply lookup_delete_eq).
    rewrite (doEvent_campaign cfg n4 e s1 Hte). split.
    - rewrite (Hlookup s1 Hs1), Hfin1. subst res.
      unfold bidResultEntry. fold a sp.
      destruct (bidResultPrice cfg sp info _ _ _) as [price|]; simpl.
      + unfold keyOf. fold a sp. rewrite lookup_insert_eq.
        by rewrite hasEvent_finishedInfoOf.
      + by rewrite Hf.
    - destruct (doCampaignEvent_step cfg e s1) as (_ & _ & _ & Hsub & _).
      specialize (Hsub (keyOf w)). rewrite Hs1 in Hsub.
      by apply option_Forall2_None_l in Hsub. }
  (* the campaign event first *)
  assert (HA : fst <$> finished sA !! keyOf w = res ∧ submitted sA !! keyOf w = None).
  { subst sA. unfold run. cbn [foldl step].
    rewrite (doEvent_campaign cfg n1 e s Hte).
    assert (Hfind : findAuction (submitted s) (PostAuctionEvent.auctionId e)
                      (PostAuctionEvent.adSpotId e)
                    = (PostAuctionEvent.adSpotId e, Some info)).
    { rewrite findAuction_nonNull by done. fold (keyOf e). by rewrite Hkey, Hs. }
    rewrite (doCampaignEvent_inFlight cfg e s _ info Hte Hfind Hsink).
    cbn [snd]. fold (keyOf e). rewrite Hkey. unfold PendingList.update. rewrite Hs.
    set (info' := SubmissionInfo.set_earlyCampaignEvents
                    (SubmissionInfo.earlyCampaignEvents info ++ [e]) info).
    match goal with |- context [exec _ ?s0] => set (s1 := s0) end.
    rewrite (doEvent_winLoss cfg n2 w s1 Htw).
    assert (Hf1 : finished s1 !! keyOf w = None) by done.
    assert (Hs1 : submitted s1 !! keyOf w = Some (info', t))
      by (subst s1; cbn [submitted]; apply lookup_insert_eq).
    assert (Hbr1 : is_Some (SubmissionInfo.bidRequest info')) by done.
    rewrite (doWinLoss_delivered cfg n2 w false s1 info' t Hf1 Hs1 Hbr1).
    unfold mbind, M_bind, bind. rewrite doBidResult_local.
    pose proof (bidResultRes_price cfg n2 a sp info' (PostAuctionEvent.winPrice w)
                  (PostAuctionEvent.timestamp w) (statusOf w) (confidenceOf (statusOf w))
                  (PostAuctionEvent.metadata w) (PostAuctionEvent.uids w)) as Hres.
    fold a sp. unfold bidResultEntry in *.
    change (bidResultPrice cfg sp info' (PostAuctionEvent.winPrice w) (statusOf w)
              (PostAuctionEvent.metadata w))
      with (bidResultPrice cfg sp info (PostAuctionEvent.winPrice w) (statusOf w)
              (PostAuctionEvent.metadata w)) in *.
    subst res.
    destruct (bidResultPrice cfg sp info _ _ _) as [price|]; simpl in *.
    - rewrite Hres. rewrite Hce. simpl.
      match goal with |- context [(_ ≫= _) ?s0] => set (s2 := s0) end.
      assert (Hs2 : submitted s2 !! keyOf w = None)
        by (subst s2; cbn [submitted log set_submitted]; apply lookup_delete_eq).
      unfold mbind, M_bind, bind, mret, M_ret, ret.
      assert (Hgoal :
        fst <$> finished (doCampaignEvent cfg e s2).2 !! keyOf w
        = Some (FinishedInfo.addUids (PostAuctionEvent.uids e)
                  (FinishedInfo.setEvent (PostAuctionEvent.label e)
                     (PostAuctionEvent.timestamp e) (PostAuctionEvent.metadata e)
                     (finishedInfoOf a sp (spotIndexOf sp info) info (statusOf w)
                        (PostAuctionEvent.timestamp w) price (PostAuctionEvent.winPrice w)
                        (PostAuctionEvent.metadata w) (PostAuctionEvent.uids w))))
        ∧ submitted (doCampaignEvent cfg e s2).2 !! keyOf w = None).
      { split.
        - rewrite (Hlookup s2 Hs2). subst s2. cbn [finished].
          unfold keyOf. fold a sp. rewrite lookup_insert_eq.
          by rewrite hasEvent_finishedInfoOf.
        - destruct (doCampaignEvent_step cfg e s2) as (_ & _ & _ & Hsub & _).
          specialize (Hsub (keyOf w)). rewrite Hs2 in Hsub.
          by apply option_Forall2_None_l in Hsub. }
      by destruct (doCampaignEvent cfg e s2) as [[[]|?] s3].
    - destruct Hres as [what ->]. simpl. split; [by rewrite Hf|].
      apply lookup_delete_eq. }
  destruct HA as [HA1 HA2], HB as [HB1 HB2]. split_and!; try done. congruence.
Qed.

(** Witness of X19: IMPRESSION and WIN(80) after Submit, in both orders. *)
Lemma campaign_event_commutes_witness :
  let sA := run Sample.config [OpEvent 5 Sample.impression; OpEvent 10 (Sample.win 80)]
              Sample.afterSubmit in
  let sB := run Sample.config [OpEvent 10 (Sample.win 80); OpEvent 20 Sample.impression]
              Sample.afterSubmit in
  fst <$> finished sA !! Sample.key = fst <$> finished sB !! Sample.key
  ∧ submitted sA !! Sample.key = None.
Proof.
  assert (H1 : finished Sample.afterSubmit !! keyOf (Sample.win 80) = None)
    by (vm_compute; reflexivity).
  assert (H2 : submitted Sample.afterSubmit !! keyOf (Sample.win 80)
               = Some (Sample.submission, 15000)) by (vm_compute; reflexivity).
  pose proof (campaign_event_commutes_with_result Sample.config Sample.afterSubmit
                Sample.impression (Sample.win 80) Sample.submission 15000 5 10 10 20
                eq_refl eq_refl eq_refl (or_introl eq_refl) H1 H2
                (ex_intro _ (BidRequest.mk ["S1"]) eq_refl) eq_refl eq_refl)
    as (H3 & _ & H4 & _).
  split; [exact H3|exact H4].
Defined.

(** X20.  A WIN event for a key that is stored with its bid request, followed
    by another WIN event for the key, charges the bid once: when the first
    is priced, the two events make one banker call, the [winBid] of the
    first; the second finds the key finished with a win and is counted as a
    duplicate, whatever its win price. *)
Theorem win_twice_is_charged_once (cfg : Config) (s : State) (w1 w2 : PostAuctionEvent.t)
    (info : SubmissionInfo.t) (t n1 n2 : Z) (price : Amount.t) :
  PostAuctionEvent.type w1 = PAE_WIN →
  PostAuctionEvent.type w2 = PAE_WIN →
  keyOf w2 = keyOf w1 →
  finished s !! keyOf w1 = None →
  submitted s !! keyOf w1 = Some (info, t) →
  reachesGuard (PostAuctionEvent.adSpotId w1) info = true →
  isNoBid (SubmissionInfo.bid info) = false →
  evaluate cfg
    (WinCostModel.setData "win" (PostAuctionEvent.metadata w1)
       (Response.wcm (SubmissionInfo.bid info)))
    (Response.bidData (SubmissionInfo.bid info))
    (spotIndexOf (PostAuctionEvent.adSpotId w1) info) (PostAuctionEvent.winPrice w1)
  = Some price →
  let s1 := exec (doEvent cfg n1 w1) s in
  let s2 := exec (doEvent cfg n2 w2) s1 in
  bankerCalls (trace s2)
  = bankerCalls (trace s)
    ++ [WinBid (Response.account (SubmissionInfo.bid info))
          (makeBidId (PostAuctionEvent.auctionId w1) (PostAuctionEvent.adSpotId w1)
             (Response.agent (SubmissionInfo.bid info))) price]
  ∧ finished s2 = finished s1
  ∧ submitted s2 = submitted s1
  ∧ numWins s2 = numWins s + 2.
Proof.
  intros Hw1 Hw2 Hkey Hf Hs Hg Hn He s1 s2.
  pose proof (reachesGuard_bidRequest _ _ Hg) as Hbr.
  assert (Hst1 : statusOf w1 = BS_WIN) by (unfold statusOf; by rewrite Hw1).
  assert (Hp : bidResultPrice cfg (PostAuctionEvent.adSpotId w1) info
                 (PostAuctionEvent.winPrice w1) BS_WIN (PostAuctionEvent.metadata w1)
               = Some price) by (by rewrite bidResultPrice_win).
  (* the first event *)
  assert (H1 : bankerCalls (trace s1)
               = bankerCalls (trace s)
                 ++ [WinBid (Response.account (SubmissionInfo.bid info))
                       (makeBidId (PostAuctionEvent.auctionId w1)
                          (PostAuctionEvent.adSpotId w1)
                          (Response.agent (SubmissionInfo.bid info))) price]
               ∧ numWins s1 = numWins s + 1
               ∧ ∃ i te, finished s1 !! keyOf w1 = Some (i, te)
                         ∧ FinishedInfo.hasWin i = true
                         ∧ FinishedInfo.reportedStatus i = BS_WIN).
  { subst s1. rewrite doEvent_winLoss by auto.
    rewrite (doWinLoss_delivered cfg n1 w1 false s info t Hf Hs Hbr). split_and!.
    - rewrite bidResult_replay_bankerCalls, Hg. cbn [log trace].
      rewrite bankerCalls_app. cbn [set_submitted trace].
      rewrite bankerCalls_counted. simpl. rewrite app_nil_r. f_equal.
      unfold bidResultCommit. by rewrite Hst1, Hp.
    - unfold mbind, M_bind, bind. rewrite doBidResult_local.
      destruct (bidResultRes _ _ _ _ _ _ _ _ _ _ _) as [[]|?].
      + match goal with
        | |- context [forEach ?f ?l ?s0] =>
          destruct (forEach_doCampaignEvent_step cfg l s0) as (_ & -> & _)
        end.
        unfold counted. simpl. by rewrite Hw1.
      + unfold counted. simpl. by rewrite Hw1.
    - unfold mbind, M_bind, bind. rewrite doBidResult_local.
      pose proof (bidResultRes_price cfg n1 (PostAuctionEvent.auctionId w1)
                    (PostAuctionEvent.adSpotId w1) info (PostAuctionEvent.winPrice w1)
                    (PostAuctionEvent.timestamp w1) (statusOf w1)
                    (confidenceOf (statusOf w1)) (PostAuctionEvent.metadata w1)
                    (PostAuctionEvent.uids w1)) as Hres.
      unfold bidResultEntry. rewrite Hst1 in *. rewrite Hp in *. rewrite Hres. simpl.
      match goal with
      | |- context [forEach ?f ?l ?s0] =>
        destruct (forEach_doCampaignEvent_step cfg l s0) as (_ & _ & _ & _ & Hfin)
      end.
      specialize (Hfin (keyOf w1)). cbn [finished] in Hfin.
      unfold keyOf in Hfin at 1. rewrite lookup_insert_eq in Hfin.
      apply option_Forall2_Some_l in Hfin as ([i te] & Hlk & (Ht & Hstat & Hwt & _)).
      simpl in *. exists i, te. split_and!; [done| |by rewrite Hstat].
      unfold FinishedInfo.hasWin. rewrite Hwt. by apply bool_decide_eq_true_2. }
  destruct H1 as (Hb1 & Hn1 & i & te & Hfin1 & Hhas & Hstat).
  (* the second event *)
  subst s2. rewrite doEvent_winLoss by auto.
  rewrite <- Hkey in Hfin1.
  rewrite (doWinLoss_duplicate cfg n2 w2 false s1 i te Hfin1 Hhas)
    by (unfold statusOf; by rewrite Hw2).
  cbn [snd log finished submitted trace numWins].
  split_and!; try done.
  - rewrite bankerCalls_app, bankerCalls_counted, Hb1. simpl. by rewrite app_nil_r.
  - unfold counted. simpl. rewrite Hw2. simpl. lia.
Qed.

(** Witness of X20: WIN(80) and WIN(90) after Submit. *)
Lemma win_twice_witness :
  bankerCalls (trace (exec (doEvent Sample.config 30 (Sample.win 90)) Sample.afterWin))
  = bankerCalls (trace Sample.afterSubmit)
    ++ [WinBid ["acct"] "A1-S1-agent" (Sample.usd 80)].
Proof.
  assert (H1 : finished Sample.afterSubmit !! keyOf (Sample.win 80) = None)
    by (vm_compute; reflexivity).
  assert (H2 : submitted Sample.afterSubmit !! keyOf (Sample.win 80)
               = Some (Sample.submission, 15000)) by (vm_compute; reflexivity).
  exact (proj1 (win_twice_is_charged_once Sample.config Sample.afterSubmit (Sample.win 80)
                  (Sample.win 90) Sample.submission 15000 10 30 (Sample.usd 80)
                  eq_refl eq_refl eq_refl H1 H2 eq_refl eq_refl eq_refl)).
Defined.

(** X21.  Two WIN events for a key that is finished with a loss force the win
    once: the first is a late win, with one [forceWinBid] on the account of
    the finished entry; the second finds the entry with a win and is counted
    as a duplicate, so that it makes no banker call and changes neither
    map. *)
Theorem late_win_is_forced_once (cfg : Config) (s : State) (w1 w2 : PostAuctionEvent.t)
    (info : FinishedInfo.t) (t n1 n2 : Z) :
  PostAuctionEvent.type w1 = PAE_WIN →
  PostAuctionEvent.type w2 = PAE_WIN →
  keyOf w2 = keyOf w1 →
  finished s !! keyOf w1 = Some (info, t) →
  FinishedInfo.reportedStatus info = BS_LOSS →
  let s1 := exec (doEvent cfg n1 w1) s in
  let s2 := exec (doEvent cfg n2 w2) s1 in
  bankerCalls (trace s2)
  = bankerCalls (trace s)
    ++ [ForceWinBid (Response.account (FinishedInfo.bid info))
          (PostAuctionEvent.winPrice w1)]
  ∧ finished s2 = finished s1
  ∧ submitted s2 = submitted s
  ∧ finished s2 !! keyOf w1
    = Some (FinishedInfo.forceWin (PostAuctionEvent.timestamp w1)
              (PostAuctionEvent.winPrice w1) (PostAuctionEvent.metadata w1) info, t).
Proof.
  intros Hw1 Hw2 Hkey Hf Hst s1 s2. subst s2 s1.
  rewrite (doEvent_winLoss cfg n1 w1 s) by auto.
  rewrite (doWinLoss_lateWin cfg n1 w1 false s info t Hf Hw1 Hst). cbn [snd].
  match goal with |- context [exec _ ?s0] => set (s1 := s0) end.
  rewrite (doEvent_winLoss cfg n2 w2 s1) by auto.
  assert (Hf1 : finished s1 !! keyOf w2
                = Some (FinishedInfo.forceWin (PostAuctionEvent.timestamp w1)
                          (PostAuctionEvent.winPrice w1) (PostAuctionEvent.metadata w1) info,
                        t))
    by (rewrite Hkey; subst s1; cbn [finished]; apply lookup_insert_eq).
  rewrite (doWinLoss_duplicate cfg n2 w2 false s1 _ t Hf1)
    by (try done; unfold statusOf; by rewrite Hw2).
  cbn [snd log finished submitted trace].
  split_and!; try done.
  - rewrite bankerCalls_app, bankerCalls_counted. subst s1. cbn [trace].
    rewrite !bankerCalls_app, bankerCalls_counted. simpl.
    destruct (onMatchedWinLoss cfg); simpl; by rewrite ?app_nil_r.
  - by rewrite <- Hkey.
Qed.

(** Witness of X21: WIN(50) twice after Submit and the sweep at 20 s. *)
Lemma late_win_is_forced_once_witness :
  let s1 := exec (doEvent Sample.config 30000 (Sample.win 50)) Sample.afterInferredLoss in
  bankerCalls (trace (exec (doEvent Sample.config 40000 (Sample.win 50)) s1))
  = bankerCalls (trace Sample.afterInferredLoss) ++ [ForceWinBid ["acct"] (Sample.usd 50)].
Proof.
  assert (H1 : finished Sample.afterInferredLoss !! keyOf (Sample.win 50)
               = Some (Sample.lossInfo, 10820000)) by (vm_compute; reflexivity).
  exact (proj1 (late_win_is_forced_once Sample.config Sample.afterInferredLoss
                  (Sample.win 50) (Sample.win 50) Sample.lossInfo 10820000 30000 40000
                  eq_refl eq_refl eq_refl H1 eq_refl)).
Defined.

(** ** Properties of [findAuction] and [makeBidId] *)

(** X22.  What [findAuction] finds is stored: it returns a value only with
    the ad spot under which the map holds that value for the auction; with an
    ad spot that is not null it does no completion: the ad spot comes back as
    it was and the value is the one stored under (auction, ad spot), if
    any. *)
Theorem findAuction_finds_stored_entries {V : Type}
    (pending : gmap (string * string) (V * Z)) (auctionId adSpotId : Id) :
  (∀ adSpotId' v,
     findAuction pending auctionId adSpotId = (adSpotId', Some v) →
     ∃ t, pending !! (auctionId, adSpotId') = Some (v, t))
  ∧ (isNull adSpotId = false →
     findAuction pending auctionId adSpotId
     = (adSpotId, fst <$> pending !! (auctionId, adSpotId))).
Proof.
  split.
  - intros sp' v. apply findAuction_Some.
  - apply findAuction_nonNull.
Qed.

(** Witness of X22: the key of the sample submission, and another ad spot of
    the same auction. *)
Lemma findAuction_witness :
  findAuction (submitted Sample.afterSubmit) "A1" "S1" = ("S1", Some Sample.submission)
  ∧ findAuction (submitted Sample.afterSubmit) "A1" "S2" = ("S2", None).
Proof.
  assert (H1 : fst <$> submitted Sample.afterSubmit !! ("A1", "S1")
               = Some Sample.submission) by (vm_compute; reflexivity).
  assert (H2 : fst <$> submitted Sample.afterSubmit !! ("A1", "S2") = None)
    by (vm_compute; reflexivity).
  split.
  - rewrite <- H1.
    exact (proj2 (findAuction_finds_stored_entries (submitted Sample.afterSubmit)
                    "A1" "S1") eq_refl).
  - rewrite <- H2.
    exact (proj2 (findAuction_finds_stored_entries (submitted Sample.afterSubmit)
                    "A1" "S2") eq_refl).
Defined.

Lemma append_dash_inj (a1 a2 r1 r2 : string) :
  dashFree a1 = true → dashFree a2 = true →
  a1 +:+ String "-" r1 = a2 +:+ String "-" r2 → a1 = a2 ∧ r1 = r2.
Proof.
  revert a2. induction a1 as [|c1 a1 IH]; intros [|c2 a2] H1 H2 E; simpl in *.
  - by injection E as ->.
  - injection E as <- _. by rewrite Ascii.eqb_refl in H2.
  - injection E as -> _. by rewrite Ascii.eqb_refl in H1.
  - injection E as -> E. apply andb_true_iff in H1 as [_ H1], H2 as [_ H2].
    destruct (IH a2 H1 H2 E) as [-> ->]. done.
Qed.

(** X23.  [makeBidId] tells bids apart when the auction id and the ad spot
    hold no ['-']: two bids that differ in the auction, the ad spot or the
    agent then get different bid ids.  Without that condition two bids can
    share their id. *)
Theorem makeBidId_tells_bids_apart :
  (∀ a1 sp1 ag1 a2 sp2 ag2,
     dashFree a1 = true → dashFree a2 = true →
     dashFree sp1 = true → dashFree sp2 = true →
     (a1, sp1, ag1) ≠ (a2, sp2, ag2) →
     makeBidId a1 sp1 ag1 ≠ makeBidId a2 sp2 ag2)
  ∧ makeBidId "A-1" "S" "agent" = makeBidId "A" "1-S" "agent".
Proof.
  split; [|reflexivity].
  intros a1 sp1 ag1 a2 sp2 ag2 Ha1 Ha2 Hs1 Hs2 Hne E. apply Hne.
  unfold makeBidId in E.
  apply (append_dash_inj a1 a2) in E as [-> E]; [|done..].
  apply (append_dash_inj sp1 sp2) in E as [-> ->]; done.
Qed.

(** Witness of X23: two ad spots of one auction, bid on by the same agent. *)
Lemma makeBidId_tells_bids_apart_witness :
  makeBidId "A1" "S1" "agent" ≠ makeBidId "A1" "S2" "agent".
Proof.
  assert (Hne : ("A1", "S1", "agent") ≠ ("A1", "S2", "agent")) by discriminate.
  exact (proj1 makeBidId_tells_bids_apart "A1" "S1" "agent" "A1" "S2" "agent"
           eq_refl eq_refl eq_refl eq_refl Hne).
Defined.

(** ** Submission and result in either order *)

Section EitherOrder.
Variable cfg : Config.

Lemma bidResult_alone_effects now a sp info wp ts st conf meta uids s :
  let s' := ((doBidResult cfg now a sp info wp ts st conf meta uids;;
              forEach (doCampaignEvent cfg) []) s).2 in
  bankerCalls (trace s')
  = bankerCalls (trace s)
    ++ (if reachesGuard sp info then [bidResultCommit cfg a sp info wp st meta] else [])
  ∧ outcomes (trace s')
    = outcomes (trace s)
      ++ match bidResultPrice cfg sp info wp st meta with
         | Some price =>
           if onMatchedWinLoss cfg then
             [MatchedWinLossOutcome
                (MatchedWinLoss.mk match st with BS_WIN => Win | BS_LOSS => Loss end conf
                   (finishedInfoOf a sp (spotIndexOf sp info) info st ts price wp meta uids)
                   ts uids)]
           else []
         | None => []
         end.
Proof.
  intros s'. subst s'. split; [apply bidResult_replay_bankerCalls|].
  unfold mbind, M_bind, bind. rewrite doBidResult_local.
  pose proof (bidResultTrace_outcomes cfg now a sp info wp ts st conf meta uids) as Ho.
  unfold bidResultEntry in Ho.
  destruct (bidResultRes _ _ _ _ _ _ _ _ _ _ _) as [[]|?]; simpl;
    rewrite outcomes_app, Ho; by destruct (bidResultPrice _ _ _ _ _ _).
Qed.
End EitherOrder.

(** X24.  For a key that is in neither map, Submit followed by the win or
    loss event of the key, and the event (within 15 seconds of its bid, so
    that it is buffered) followed by Submit, which replays it, make the same
    banker calls, [attachBid] and then the commit of [doBidResult] if its
    guard is reached, and deliver the same outcomes, whatever the four
    clock readings. *)
Theorem either_order_same_banker_calls (cfg : Config) (s : State)
    (sev : SubmittedAuctionEvent.t) (w : PostAuctionEvent.t) (nowA1 nowA2 nowB1 nowB2 : Z) :
  let key := (SubmittedAuctionEvent.auctionId sev, SubmittedAuctionEvent.adSpotId sev) in
  PostAuctionEvent.type w = PAE_WIN ∨ PostAuctionEvent.type w = PAE_LOSS →
  keyOf w = key →
  submitted s !! key = None →
  finished s !! key = None →
  getTimeGapMs nowB1 (PostAuctionEvent.bidTimestamp w) < lossTimeout * 1000 →
  let sA := run cfg [OpAuction nowA1 sev; OpEvent nowA2 w] s in
  let sB := run cfg [OpEvent nowB1 w; OpAuction nowB2 sev] s in
  let submission := submissionOf sev None in
  let response := SubmittedAuctionEvent.bidResponse sev in
  bankerCalls (trace sA) = bankerCalls (trace sB)
  ∧ bankerCalls (trace sA)
    = bankerCalls (trace s)
      ++ AttachBid (Response.account response)
           (makeBidId (SubmittedAuctionEvent.auctionId sev)
              (SubmittedAuctionEvent.adSpotId sev) (Response.agent response))
           (Price.maxPrice (Response.price response))
         :: (if reachesGuard (SubmittedAuctionEvent.adSpotId sev) submission then
               [bidResultCommit cfg (SubmittedAuctionEvent.auctionId sev)
                  (SubmittedAuctionEvent.adSpotId sev) submission
                  (PostAuctionEvent.winPrice w) (statusOf w) (PostAuctionEvent.metadata w)]
             else [])
  ∧ outcomes (trace sA) = outcomes (trace sB).
Proof.
  intros key Hty Hkey Hs Hf Hgap sA sB submission response.
  assert (Ha : PostAuctionEvent.auctionId w = SubmittedAuctionEvent.auctionId sev)
    by (by injection Hkey).
  assert (Hp : PostAuctionEvent.adSpotId w = SubmittedAuctionEvent.adSpotId sev)
    by (by injection Hkey).
  set (attach := AttachBid (Response.account response)
                   (makeBidId (SubmittedAuctionEvent.auctionId sev)
                      (SubmittedAuctionEvent.adSpotId sev) (Response.agent response))
                   (Price.maxPrice (Response.price response))).
  set (commit := if reachesGuard (SubmittedAuctionEvent.adSpotId sev) submission then
               [bidResultCommit cfg (SubmittedAuctionEvent.auctionId sev)
                  (SubmittedAuctionEvent.adSpotId sev) submission
                  (PostAuctionEvent.winPrice w) (statusOf w) (PostAuctionEvent.metadata w)]
             else []).
  set (out := match bidResultPrice cfg (SubmittedAuctionEvent.adSpotId sev) submission
                      (PostAuctionEvent.winPrice w) (statusOf w)
                      (PostAuctionEvent.metadata w) with
              | Some price =>
                if onMatchedWinLoss cfg then
                  [MatchedWinLossOutcome
                     (MatchedWinLoss.mk
                        match statusOf w with BS_WIN => Win | BS_LOSS => Loss end
                        (confidenceOf (statusOf w))
                        (finishedInfoOf (SubmittedAuctionEvent.auctionId sev)
                           (SubmittedAuctionEvent.adSpotId sev)
                           (spotIndexOf (SubmittedAuctionEvent.adSpotId sev) submission)
                           submission (statusOf w) (PostAuctionEvent.timestamp w) price
                           (PostAuctionEvent.winPrice w) (PostAuctionEvent.metadata w)
                           (PostAuctionEvent.uids w))
                        (PostAuctionEvent.timestamp w) (PostAuctionEvent.uids w))]
                else []
              | None => []
              end).
  assert (Hnone : SubmittedAuctionEvent.bidRequest sev = None →
                  commit = [] ∧ out = []).
  { intros Hbr. subst commit out. unfold reachesGuard, bidResultPrice. simpl.
    rewrite Hbr. by destruct (isNull _). }
  (* Submit, then the event *)
  assert (HA : bankerCalls (trace sA) = bankerCalls (trace s) ++ attach :: commit
               ∧ outcomes (trace sA) = outcomes (trace s) ++ out).
  { subst sA. unfold run. cbn [foldl step].
    rewrite doEvent_winLoss by auto.
    rewrite doAuction_replay. unfold replayed. fold key. rewrite Hs. cbn [forEach ret snd].
    unfold mret, M_ret, ret. cbn [snd].
    assert (Hsub : submitted (attached sev s) !! keyOf w
                   = Some (submission, SubmittedAuctionEvent.lossTimeout sev)).
    { rewrite Hkey. unfold attached. fold key. rewrite Hs. apply lookup_insert_eq. }
    assert (Hfin : finished (attached sev s) !! keyOf w = None)
      by (rewrite Hkey; exact Hf).
    destruct (SubmittedAuctionEvent.bidRequest sev) as [br|] eqn:Hbr; cycle 1.
    { rewrite (doWinLoss_doubled cfg nowA2 w false (attached sev s) submission _
                 Hfin Hsub) by (simpl; by rewrite Hbr).
      destruct Hnone as [-> ->]; [done|]. cbn [snd set_submitted trace].
      rewrite bankerCalls_counted, outcomes_counted.
      unfold attached. fold key. rewrite Hs. cbn [trace].
      rewrite !bankerCalls_app, !outcomes_app. simpl. by rewrite !app_nil_r. }
    rewrite (doWinLoss_delivered cfg nowA2 w false (attached sev s) submission
               (SubmittedAuctionEvent.lossTimeout sev)).
    - destruct (bidResult_alone_effects cfg nowA2 (PostAuctionEvent.auctionId w)
                  (PostAuctionEvent.adSpotId w) submission (PostAuctionEvent.winPrice w)
                  (PostAuctionEvent.timestamp w) (statusOf w) (confidenceOf (statusOf w))
                  (PostAuctionEvent.metadata w) (PostAuctionEvent.uids w)
                  (log (RecordHit ("bidResult." +:+ print (PostAuctionEvent.type w)
                                   +:+ ".delivered"))
                     (set_submitted (delete (keyOf w) (submitted (attached sev s)))
                        (counted w false (attached sev s))))) as [Hb Ho].
      change (SubmissionInfo.earlyCampaignEvents submission) with (@nil PostAuctionEvent.t).
      rewrite Hb, Ho, Ha, Hp. cbn [log set_submitted trace].
      rewrite bankerCalls_app, outcomes_app, bankerCalls_counted, outcomes_counted.
      unfold attached. fold key. rewrite Hs. cbn [trace].
      rewrite !bankerCalls_app, !outcomes_app. simpl.
      rewrite !app_nil_r, <- !app_assoc. done.
    - exact Hfin.
    - exact Hsub.
    - simpl. rewrite Hbr. by eexists. }
  (* the event, then Submit *)
  assert (HB : bankerCalls (trace sB) = bankerCalls (trace s) ++ attach :: commit
               ∧ outcomes (trace sB) = outcomes (trace s) ++ out).
  { subst sB. unfold run. cbn [foldl step].
    rewrite (doEvent_winLoss cfg nowB1 w s) by auto.
    rewrite (doWinLoss_buffered cfg nowB1 w false s) by (by rewrite ?Hkey).
    cbn [snd]. rewrite doAuction_replay. unfold replayed. cbn [submitted set_submitted].
    fold key. rewrite Hkey, lookup_insert_eq. cbn [SubmissionInfo.earlyWinEvents
      SubmissionInfo.set_earlyWinEvents].
    rewrite forEach_singleton. unfold mbind, M_bind, bind, recordHit, modify.
    match goal with
    | |- context [doWinLoss cfg nowB2 w true ?s1] => set (s2 := s1)
    end.
    assert (Hsub : submitted s2 !! keyOf w
                   = Some (submission, SubmittedAuctionEvent.lossTimeout sev)).
    { rewrite Hkey. subst s2. unfold attached. cbn [log submitted set_submitted].
      fold key. rewrite !lookup_insert_eq. reflexivity. }
    assert (Hfin : finished s2 !! keyOf w = None) by (rewrite Hkey; exact Hf).
    destruct (SubmittedAuctionEvent.bidRequest sev) as [br|] eqn:Hbr; cycle 1.
    { rewrite (doWinLoss_doubled cfg nowB2 w true s2 submission _ Hfin Hsub)
        by (simpl; by rewrite Hbr).
      destruct Hnone as [-> ->]; [done|]. cbn [snd set_submitted trace].
      rewrite bankerCalls_counted, outcomes_counted.
      subst s2. unfold attached. cbn [log set_submitted submitted trace].
      fold key. rewrite lookup_insert_eq. cbn [trace].
      rewrite !bankerCalls_app, !outcomes_app, bankerCalls_counted, outcomes_counted.
      simpl. by rewrite !app_nil_r, <- ?app_assoc. }
    rewrite (doWinLoss_delivered cfg nowB2 w true s2 submission
               (SubmittedAuctionEvent.lossTimeout sev)).
    - destruct (bidResult_alone_effects cfg nowB2 (PostAuctionEvent.auctionId w)
                  (PostAuctionEvent.adSpotId w) submission (PostAuctionEvent.winPrice w)
                  (PostAuctionEvent.timestamp w) (statusOf w) (confidenceOf (statusOf w))
                  (PostAuctionEvent.metadata w) (PostAuctionEvent.uids w)
                  (log (RecordHit ("bidResult." +:+ print (PostAuctionEvent.type w)
                                   +:+ ".delivered"))
                     (set_submitted (delete (keyOf w) (submitted s2))
                        (counted w true s2)))) as [Hb Ho].
      change (SubmissionInfo.earlyCampaignEvents submission) with (@nil PostAuctionEvent.t).
      rewrite Hb, Ho, Ha, Hp. cbn [log set_submitted trace].
      rewrite bankerCalls_app, outcomes_app, bankerCalls_counted, outcomes_counted.
      subst s2. unfold attached. cbn [log set_submitted submitted trace].
      fold key. rewrite lookup_insert_eq. cbn [trace].
      rewrite !bankerCalls_app, !outcomes_app, bankerCalls_counted, outcomes_counted.
      simpl. rewrite !app_nil_r, <- !app_assoc. done.
    - exact Hfin.
    - exact Hsub.
    - simpl. rewrite Hbr. by eexists. }
  destruct HA as [HA1 HA2], HB as [HB1 HB2]. split_and!; congruence.
Qed.

(** Witness of X24: Submit at 0 and WIN(80) at 10 ms, against WIN(80) at 5 ms
    and Submit at 2 s. *)
Lemma either_order_witness :
  bankerCalls (trace (run Sample.config [OpAuction 0 Sample.submit; OpEvent 10 (Sample.win 80)]
                        initial))
  = bankerCalls (trace (run Sample.config
                          [OpEvent 5 (Sample.win 80); OpAuction 2000 Sample.submit] initial))
  ∧ bankerCalls (trace (run Sample.config
                          [OpAuction 0 Sample.submit; OpEvent 10 (Sample.win 80)] initial))
    = [AttachBid ["acct"] "A1-S1-agent" (Sample.usd 100);
       WinBid ["acct"] "A1-S1-agent" (Sample.usd 80)].
Proof.
  pose proof (either_order_same_banker_calls Sample.config initial Sample.submit
                (Sample.win 80) 0 10 5 2000 (or_introl eq_refl) eq_refl eq_refl eq_refl
                eq_refl) as (H1 & H2 & _).
  split; [exact H1|exact H2].
Defined.

(** ** The finished entries of the states that the matcher reaches *)

Lemma recorded_same s s' :
  finished s' = finished s → resultsRecorded s → resultsRecorded s'.
Proof. intros E H k info t. rewrite E. apply H. Qed.

Lemma recorded_insert s s' k i t :
  finished s' = <[k := (i, t)]> (finished s) →
  FinishedInfo.hasWin i = true → isNull k.2 = false →
  resultsRecorded s → resultsRecorded s'.
Proof.
  intros E Hw Hk H k' i' t'. rewrite E. destruct (decide (k = k')) as [<-|Hne].
  - rewrite lookup_insert_eq. by intros [= <- <-].
  - rewrite lookup_insert_ne by done. apply H.
Qed.

Lemma recorded_update s s' k i :
  finished s' = PendingList.update (finished s) k i →
  FinishedInfo.hasWin i = true →
  resultsRecorded s → resultsRecorded s'.
Proof.
  intros E Hw H. unfold PendingList.update in E.
  destruct (finished s !! k) as [[i0 t0]|] eqn:Hk.
  - eapply recorded_insert; [exact E|done| |done]. by destruct (H k i0 t0 Hk).
  - by eapply recorded_same.
Qed.

Lemma recorded_entry cfg now a sp sub wp ts st meta uids s s' :
  finished s'
  = match bidResultEntry cfg now a sp sub wp ts st meta uids with
    | Some e => <[(a, sp) := e]> (finished s)
    | None => finished s
    end →
  resultsRecorded s → resultsRecorded s'.
Proof.
  intros E H. unfold bidResultEntry in E.
  destruct (bidResultPrice cfg sp sub wp st meta) as [price|] eqn:Hp; simpl in E.
  - eapply recorded_insert; [exact E|done| |done].
    unfold bidResultPrice in Hp. simpl. by destruct (isNull sp).
  - by eapply recorded_same.
Qed.

Lemma campaignStep_recorded s s' :
  campaignStep s s' → resultsRecorded s → resultsRecorded s'.
Proof.
  intros (_ & _ & _ & _ & Hf) H k info t Hk. specialize (Hf k). rewrite Hk in Hf.
  inversion Hf as [[i0 t0] ? (_ & _ & Hwt & _) E1 E2|]; subst. simpl in *.
  destruct (H k i0 t0) as [Hw Hsp]; [done|]. split; [|done].
  unfold FinishedInfo.hasWin in *. by rewrite Hwt.
Qed.

Section Recorded.
Variable cfg : Config.

Lemma doWinLoss_recorded now ev rep s :
  resultsRecorded s → resultsRecorded (doWinLoss cfg now ev rep s).2.
Proof.
  destruct s as [sm fm nw nl nc tr]. intros H.
  unfold doWinLoss. msimpl.
  set (key := (PostAuctionEvent.auctionId ev, PostAuctionEvent.adSpotId ev)).
  destruct (bool_decide (PostAuctionEvent.type ev = PAE_WIN)) eqn:Hty; msimpl;
    destruct rep; msimpl.
  all: destruct (fm !! key) as [[fi ft]|] eqn:Hfin.
  all: try (destruct (FinishedInfo.hasWin fi && _); msimpl;
            [destruct (Amount.eqb _ _); msimpl; by eapply recorded_same|]).
  all: try (by eapply recorded_same).
  (* late win *)
  1,3: destruct (onMatchedWinLoss cfg); msimpl;
       (eapply recorded_update; [| |exact H]; [reflexivity|done]).
  (* not finished *)
  all: destruct (sm !! key) as [[si st]|] eqn:Hsub;
    [destruct (SubmissionInfo.bidRequest si) eqn:Hbr; msimpl
    |destruct (timeGapBelow _ _ _ _); msimpl;
     [|destruct (bool_decide (_ = [])); msimpl]].
  all: try (by eapply recorded_same).
  (* delivered *)
  all: rewrite doBidResult_local; msimpl.
  all: match goal with
       | |- context [bidResultRes ?c ?n ?a ?sp ?i ?wp ?ts ?st ?cf ?m ?u] =>
         destruct (bidResultRes c n a sp i wp ts st cf m u) as [[]|w]
       end.
  all: try match goal with
       | |- context [forEach ?f ?l ?s2] =>
         pose proof (forEach_doCampaignEvent_step cfg l s2) as Hstep;
         destruct (forEach f l s2) as [r3 s3]; simpl in Hstep;
         eapply campaignStep_recorded; [exact Hstep|]
       end.
  all: simpl; (eapply recorded_entry; [|exact H]); reflexivity.
Qed.

Lemma doEvent_recorded now ev s :
  resultsRecorded s → resultsRecorded (exec (doEvent cfg now ev) s).
Proof.
  intros H. destruct (PostAuctionEvent.type ev) eqn:Hty.
  - unfold doEvent. by rewrite exec_tryCatch_ignore, Hty.
  - rewrite doEvent_winLoss by auto. by apply doWinLoss_recorded.
  - rewrite doEvent_winLoss by auto. by apply doWinLoss_recorded.
  - rewrite doEvent_campaign by done.
    eapply campaignStep_recorded; [apply doCampaignEvent_step|done].
Qed.

Lemma doAuction_recorded now sev s :
  resultsRecorded s → resultsRecorded (exec (doAuction cfg now sev) s).
Proof.
  intros H. rewrite doAuction_replay. apply forEach_inv.
  - intros e s1 H1. unfold mbind, M_bind, bind, recordHit, modify.
    pose proof (doWinLoss_recorded now e true (log (RecordHit "replayedEarlyWinEvent") s1))
      as Hw.
    destruct (doWinLoss _ _ _ _ _) as [r s']. by apply Hw.
  - by eapply recorded_same.
Qed.

Lemma checkExpiredAuctions_recorded now s :
  resultsRecorded s → resultsRecorded (exec (checkExpiredAuctions cfg now) s).
Proof.
  intros H. rewrite checkExpiredAuctions_eq. cbn zeta.
  match goal with
  | |- resultsRecorded (log _ ?s2) => apply (recorded_same s2); [reflexivity|]
  end.
  apply foldl_inv.
  { intros s1 e H1 k info t. unfold visitedFinished. cbn [finished].
    destruct (decide (e.1 = k)) as [<-|Hne];
      [by rewrite lookup_delete_eq|rewrite lookup_delete_ne by done; apply H1]. }
  apply foldl_inv; [|done].
  intros s1 [[a sp] [i t]] H1. eapply recorded_entry; [|exact H1].
  unfold visitedSubmitted. cbn [finished fst snd]. reflexivity.
Qed.

Lemma run_recorded ops s : resultsRecorded s → resultsRecorded (run cfg ops s).
Proof.
  revert s. induction ops as [|o ops IH]; intros s H; [done|].
  apply IH. destruct o as [now sev|now ev|now]; simpl.
  - by apply doAuction_recorded.
  - by apply doEvent_recorded.
  - by apply checkExpiredAuctions_recorded.
Qed.
End Recorded.

(** X25.  In every state that the matcher reaches from the empty one, each
    finished entry holds a recorded result and is stored under a key whose ad
    spot is not null; so a win or loss event for a finished key makes a
    banker call only when it is a WIN for an entry that reports a loss (the
    late win): an event that reports the status of the entry is counted as a
    duplicate and a LOSS for an entry that reports a win is only counted,
    both without banker call, outcome or change to either map. *)
Theorem finished_entries_hold_a_result (cfg : Config) (ops : list Op) :
  let s := run cfg ops initial in
  ∀ k info t, finished s !! k = Some (info, t) →
    FinishedInfo.hasWin info = true
    ∧ isNull k.2 = false
    ∧ ∀ now ev,
        PostAuctionEvent.type ev = PAE_WIN ∨ PostAuctionEvent.type ev = PAE_LOSS →
        keyOf ev = k →
        ¬ (PostAuctionEvent.type ev = PAE_WIN ∧ FinishedInfo.reportedStatus info = BS_LOSS) →
        let s' := exec (doEvent cfg now ev) s in
        bankerCalls (trace s') = bankerCalls (trace s)
        ∧ outcomes (trace s') = outcomes (trace s)
        ∧ finished s' = finished s ∧ submitted s' = submitted s.
Proof.
  intros s k info t Hk.
  destruct (run_recorded cfg ops initial) with (k := k) (info := info) (t := t)
    as [Hw Hsp]; [by intros ? ? ? ?|exact Hk|].
  split_and!; [done..|].
  intros now ev Hty Hkey Hnl s'. subst s'. rewrite <- Hkey in Hk.
  rewrite doEvent_winLoss by done.
  destruct (decide (FinishedInfo.reportedStatus info = statusOf ev)) as [Hst|Hst].
  - rewrite (doWinLoss_duplicate cfg now ev false s info t Hk Hw Hst).
    cbn [snd log finished submitted trace].
    rewrite bankerCalls_app, outcomes_app, bankerCalls_counted, outcomes_counted.
    simpl. by rewrite !app_nil_r.
  - assert (Hloss : PostAuctionEvent.type ev ≠ PAE_WIN).
    { intros Hwin. unfold statusOf in Hst. rewrite Hwin in Hst. simpl in Hst.
      apply Hnl. split; [done|]. by destruct (FinishedInfo.reportedStatus info). }
    assert (Hwon : FinishedInfo.reportedStatus info = BS_WIN).
    { unfold statusOf in Hst. rewrite bool_decide_eq_false_2 in Hst by done.
      by destruct (FinishedInfo.reportedStatus info). }
    rewrite (doWinLoss_lossAfterWin cfg now ev false s info t Hk Hloss Hwon).
    cbn [snd log finished submitted trace].
    rewrite !bankerCalls_app, !outcomes_app, bankerCalls_counted, outcomes_counted.
    simpl. by rewrite !app_nil_r.
Qed.

(** Witness of X25: the finished entry after Submit and WIN(80), and a LOSS
    for its key. *)
Lemma finished_entries_witness :
  FinishedInfo.hasWin Sample.winInfo = true
  ∧ bankerCalls (trace (exec (doEvent Sample.config 30 Sample.loss) Sample.afterWin))
    = bankerCalls (trace Sample.afterWin).
Proof.
  assert (H1 : finished (run Sample.config
                           [OpAuction 0 Sample.submit; OpEvent 10 (Sample.win 80)] initial)
                 !! Sample.key = Some (Sample.winInfo, 3600010)) by (vm_compute; reflexivity).
  pose proof (finished_entries_hold_a_result Sample.config
                [OpAuction 0 Sample.submit; OpEvent 10 (Sample.win 80)]
                Sample.key Sample.winInfo 3600010 H1) as (H2 & _ & H3).
  split; [exact H2|].
  assert (Hn : ¬ (PostAuctionEvent.type Sample.loss = PAE_WIN
                  ∧ FinishedInfo.reportedStatus Sample.winInfo = BS_LOSS))
    by (intros [? _]; discriminate).
  exact (proj1 (H3 30 Sample.loss (or_intror eq_refl) eq_refl Hn)).
Defined.

(** ** The resolutions of the bids *)

Section Counting.
Implicit Types (m : gmap (string * string) (SubmissionInfo.t * Z)) (b : string).

Lemma count_delete b m k :
  (size (filter (awaits b) (delete k m)) + ind b k (m !! k))%nat
  = size (filter (awaits b) m).
Proof.
  rewrite map_filter_delete. destruct (m !! k) as [v|] eqn:Hk; simpl.
  - case_decide as Hv.
    + assert (Hf : filter (awaits b) m !! k = Some v)
        by (by apply map_lookup_filter_Some).
      rewrite <- (insert_id _ _ _ Hf) at 2. rewrite <- insert_delete_eq.
      rewrite map_size_insert_None by apply lookup_delete_eq. lia.
    + rewrite delete_id; [lia|]. apply map_lookup_filter_None. right.
      intros v' Hk'. by simplify_eq.
  - rewrite delete_id; [lia|]. apply map_lookup_filter_None. by left.
Qed.

Lemma count_change b m m' k :
  (∀ k', k ≠ k' → m' !! k' = m !! k') →
  (size (filter (awaits b) m') + ind b k (m !! k))%nat
  = (size (filter (awaits b) m) + ind b k (m' !! k))%nat.
Proof.
  intros Hne.
  assert (Hd : delete k m' = delete k m).
  { apply map_eq. intros k'. destruct (decide (k = k')) as [<-|Hk].
    - by rewrite !lookup_delete_eq.
    - rewrite !lookup_delete_ne by done. auto. }
  rewrite <- (count_delete b m k), <- (count_delete b m' k), Hd. lia.
Qed.

Lemma count_ext b m m' :
  (∀ k, option_Forall2 subExt (m !! k) (m' !! k)) →
  size (filter (awaits b) m') = size (filter (awaits b) m).
Proof.
  intros H. rewrite <- !size_dom. f_equal. apply set_eq. intros k.
  rewrite !elem_of_dom. unfold is_Some. setoid_rewrite map_lookup_filter_Some.
  specialize (H k). split.
  - intros ([i' t'] & Hk & Hg & Hb). rewrite Hk in H.
    inversion H as [[i t] ? [_ [l Hl]] E1 E2|]; subst. simpl in *. subst i'.
    exists (i, t). split; [done|]. split; [|done].
    by destruct i.
  - intros ([i t] & Hk & Hg & Hb). rewrite Hk in H.
    inversion H as [? [i' t'] [_ [l Hl]] E1 E2|]; subst. simpl in *. subst i'.
    eexists. split; [done|]. split; [|done]. by destruct i.
Qed.

Lemma ind_no_bidRequest b k i t :
  SubmissionInfo.bidRequest i = None → ind b k (Some (i, t)) = 0%nat.
Proof.
  intros Hbr. simpl. case_decide as H; [|done]. destruct H as [Hg _]. simpl in Hg.
  apply reachesGuard_bidRequest in Hg as [? ?]. congruence.
Qed.

Lemma ind_resolution cfg b a sp i t wp st meta :
  length (List.filter (isResolution b)
            (if reachesGuard sp i then [bidResultCommit cfg a sp i wp st meta] else []))
  = ind b (a, sp) (Some (i, t)).
Proof.
  assert (E : isResolution b (bidResultCommit cfg a sp i wp st meta)
              = bool_decide (makeBidId a sp (Response.agent (SubmissionInfo.bid i)) = b)).
  { unfold bidResultCommit. by repeat case_match. }
  unfold ind. destruct (decide (awaits b (a, sp, (i, t)))) as [H|H].
  - unfold awaits, bidIdOf in H. simpl in H. destruct H as [Hg Hb].
    rewrite Hg. simpl. rewrite E. by rewrite bool_decide_eq_true_2.
  - destruct (reachesGuard sp i) eqn:Hg; simpl; [|done]. rewrite E.
    rewrite bool_decide_eq_false_2; [done|]. intros Hb. apply H.
    unfold awaits, bidIdOf. by split.
Qed.
End Counting.

Lemma resolutions_calls b tr tr' cs :
  bankerCalls tr' = bankerCalls tr ++ cs →
  resolutions b tr' = (resolutions b tr + length (List.filter (isResolution b) cs))%nat.
Proof. intros E. unfold resolutions. by rewrite E, List.filter_app, length_app. Qed.

Lemma attachments_calls b tr tr' cs :
  bankerCalls tr' = bankerCalls tr ++ cs →
  attachments b tr' = (attachments b tr + length (List.filter (isAttachment b) cs))%nat.
Proof. intros E. unfold attachments. by rewrite E, List.filter_app, length_app. Qed.

Lemma resolutions_same b tr tr' :
  bankerCalls tr' = bankerCalls tr → resolutions b tr' = resolutions b tr.
Proof. intros E. unfold resolutions. by rewrite E. Qed.

Lemma attachments_same b tr tr' :
  bankerCalls tr' = bankerCalls tr → attachments b tr' = attachments b tr.
Proof. intros E. unfold attachments. by rewrite E. Qed.

#[global] Instance conserves_refl : Reflexive conserves.
Proof. by intros s b. Qed.

#[global] Instance conserves_trans : Transitive conserves.
Proof.
  intros s1 s2 s3 H12 H23 b. destruct (H12 b) as [? ?], (H23 b) as [? ?].
  split; congruence.
Qed.

(** a step that changes the submitted map under one key at most, and makes
    the banker calls [cs] *)
Lemma conserves_at (s s' : State) (k : string * string) (cs : list BankerCall) :
  bankerCalls (trace s') = bankerCalls (trace s) ++ cs →
  (∀ k', k ≠ k' → submitted s' !! k' = submitted s !! k') →
  (∀ b, (length (List.filter (isResolution b) cs) + ind b k (submitted s' !! k))%nat
        = ind b k (submitted s !! k)) →
  (∀ b, List.filter (isAttachment b) cs = []) →
  conserves s s'.
Proof.
  intros Hcs Hne Hind Hatt b. split.
  - rewrite (resolutions_calls b _ _ _ Hcs). unfold pending.
    pose proof (count_change b (submitted s) (submitted s') k Hne) as Hc.
    specialize (Hind b). lia.
  - rewrite (attachments_calls b _ _ _ Hcs), Hatt. simpl. lia.
Qed.

Lemma campaignStep_conserves s s' : campaignStep s s' → conserves s s'.
Proof.
  intros (Hb & _ & _ & Hs & _) b. unfold pending.
  rewrite (resolutions_same b _ _ Hb), (attachments_same b _ _ Hb).
  by rewrite (count_ext b _ _ Hs).
Qed.

Section Conservation.
Variable cfg : Config.
Implicit Types (ev : PostAuctionEvent.t) (s : State).

(** the key is unknown and the gap test of line 311 holds *)
Lemma doWinLoss_buffered_below now ev rep s :
  finished s !! keyOf ev = None →
  submitted s !! keyOf ev = None →
  timeGapBelow cfg now (PostAuctionEvent.bidTimestamp ev) (lossTimeout * 1000) = true →
  doWinLoss cfg now ev rep s =
  (Ok tt,
   set_submitted
     (<[keyOf ev := (SubmissionInfo.set_earlyWinEvents [ev] SubmissionInfo.empty,
                     plusSeconds now lossTimeout)]> (submitted s))
     (log (RecordHit ("bidResult." +:+ print (PostAuctionEvent.type ev)
                      +:+ ".noBidSubmitted"))
        (counted ev rep s))).
Proof.
  intros Hf Hs Hgap.
  destruct s as [sm fm nw nl nc tr]; simpl in *.
  unfold doWinLoss, counted, statusOf, keyOf in *; msimpl.
  destruct (bool_decide (_ = PAE_WIN)) eqn:Hty; msimpl; destruct rep; msimpl.
  all: rewrite Hf, Hs, Hgap; unfold PendingList.insert; msimpl;
    rewrite <- ?app_assoc; cbn [app]; done.
Qed.

(** the key is finished: [submitted] stays and the one banker call that may
    be made is [forceWinBid] *)
Lemma doWinLoss_finished now ev rep s fi ft :
  finished s !! keyOf ev = Some (fi, ft) →
  let s' := (doWinLoss cfg now ev rep s).2 in
  submitted s' = submitted s
  ∧ (bankerCalls (trace s') = bankerCalls (trace s)
     ∨ bankerCalls (trace s')
       = bankerCalls (trace s)
         ++ [ForceWinBid (Response.account (FinishedInfo.bid fi))
               (PostAuctionEvent.winPrice ev)]).
Proof.
  intros Hf. destruct s as [sm fm nw nl nc tr]; simpl in *.
  unfold doWinLoss, keyOf in *; msimpl.
  destruct (bool_decide (_ = PAE_WIN)) eqn:Hty; msimpl; destruct rep; msimpl.
  all: rewrite Hf.
  all: destruct (FinishedInfo.hasWin fi && _); msimpl;
    [destruct (Amount.eqb _ _); msimpl; simpl; (split; [done|left]);
     rewrite ?bankerCalls_app; simpl; by rewrite ?app_nil_r|].
  all: try (destruct (onMatchedWinLoss cfg); msimpl; simpl; (split; [done|right]);
            rewrite ?bankerCalls_app; simpl; by rewrite ?app_nil_r).
  all: simpl; (split; [done|left]); rewrite ?bankerCalls_app; simpl;
    by rewrite ?app_nil_r.
Qed.

Lemma bidResultCommit_not_attachment b a sp i wp st meta :
  isAttachment b (bidResultCommit cfg a sp i wp st meta) = false.
Proof. unfold bidResultCommit. by repeat case_match. Qed.

Lemma doWinLoss_conserves now ev rep s : conserves s (doWinLoss cfg now ev rep s).2.
Proof.
  destruct (finished s !! keyOf ev) as [[fi ft]|] eqn:Hf.
  { destruct (doWinLoss_finished now ev rep s fi ft Hf) as [Hs Hb].
    destruct Hb as [Hb|Hb].
    - intros b. unfold pending.
      by rewrite Hs, (resolutions_same b _ _ Hb), (attachments_same b _ _ Hb).
    - eapply (conserves_at _ _ (keyOf ev)); [exact Hb|by rewrite Hs| |done].
      intros b. by rewrite Hs. }
  destruct (submitted s !! keyOf ev) as [[info t]|] eqn:Hs.
  - destruct (SubmissionInfo.bidRequest info) as [br|] eqn:Hbr.
    + (* delivered *)
      rewrite (doWinLoss_delivered cfg now ev rep s info t Hf Hs) by (by eexists).
      set (cs := if reachesGuard (PostAuctionEvent.adSpotId ev) info then
                   [bidResultCommit cfg (PostAuctionEvent.auctionId ev)
                      (PostAuctionEvent.adSpotId ev) info (PostAuctionEvent.winPrice ev)
                      (statusOf ev) (PostAuctionEvent.metadata ev)]
                 else []).
      assert (H1 : ∀ s1, submitted s1 = delete (keyOf ev) (submitted s) →
                         bankerCalls (trace s1) = bankerCalls (trace s) ++ cs →
                         conserves s s1).
      { intros s1 Hs1 Hb1. eapply (conserves_at _ _ (keyOf ev) cs); [exact Hb1| | |].
        - intros k' Hk'. by rewrite Hs1, lookup_delete_ne.
        - intros b. rewrite Hs1, lookup_delete_eq, Hs. simpl ind at 1.
          rewrite Nat.add_0_r. apply ind_resolution.
        - intros b. subst cs. destruct (reachesGuard _ _); [|done]. simpl.
          by rewrite bidResultCommit_not_attachment. }
      unfold mbind, M_bind, bind. rewrite doBidResult_local.
      assert (Hb : ∀ tr0, bankerCalls tr0 = bankerCalls (trace s) →
                bankerCalls
                  (tr0 ++ bidResultTrace cfg now (PostAuctionEvent.auctionId ev)
                            (PostAuctionEvent.adSpotId ev) info
                            (PostAuctionEvent.winPrice ev) (PostAuctionEvent.timestamp ev)
                            (statusOf ev) (confidenceOf (statusOf ev))
                            (PostAuctionEvent.metadata ev) (PostAuctionEvent.uids ev))
                = bankerCalls (trace s) ++ cs).
      { intros tr0 E. by rewrite bankerCalls_app, bidResultTrace_bankerCalls, E. }
      assert (H0 : bankerCalls
                     (trace (log (RecordHit ("bidResult."
                                             +:+ print (PostAuctionEvent.type ev)
                                             +:+ ".delivered"))
                               (set_submitted (delete (keyOf ev) (submitted s))
                                  (counted ev rep s))))
                   = bankerCalls (trace s)).
      { cbn [trace log set_submitted]. rewrite bankerCalls_app, bankerCalls_counted.
        simpl. by rewrite app_nil_r. }
      destruct (bidResultRes _ _ _ _ _ _ _ _ _ _ _) as [[]|?].
      * match goal with |- context [forEach _ _ ?s2] => set (s1 := s2) end.
        transitivity s1; [|apply campaignStep_conserves, forEach_doCampaignEvent_step].
        apply H1; [reflexivity|]. subst s1. cbn [trace]. by apply Hb.
      * cbn [snd]. apply H1; [reflexivity|]. cbn [trace]. by apply Hb.
    + (* a further early event *)
      rewrite (doWinLoss_doubled cfg now ev rep s info t Hf Hs Hbr).
      eapply (conserves_at _ _ (keyOf ev) []).
      * cbn [snd trace set_submitted]. by rewrite bankerCalls_counted, app_nil_r.
      * intros k' Hk'. cbn [snd submitted set_submitted].
        by rewrite lookup_insert_ne, lookup_delete_ne.
      * intros b. cbn [snd submitted set_submitted]. rewrite lookup_insert_eq, Hs.
        by rewrite !ind_no_bidRequest.
      * done.
  - destruct (timeGapBelow cfg now (PostAuctionEvent.bidTimestamp ev) (lossTimeout * 1000))
      eqn:Hgap.
    + rewrite (doWinLoss_buffered_below now ev rep s Hf Hs Hgap).
      eapply (conserves_at _ _ (keyOf ev) []).
      * cbn [snd trace set_submitted log]. rewrite bankerCalls_app, bankerCalls_counted.
        done.
      * intros k' Hk'. cbn [snd submitted set_submitted log]. by rewrite lookup_insert_ne.
      * intros b. cbn [snd submitted set_submitted log]. rewrite lookup_insert_eq, Hs.
        by rewrite ind_no_bidRequest.
      * done.
    + rewrite (doWinLoss_orphan cfg now ev rep s Hf Hs Hgap).
      eapply (conserves_at _ _ (keyOf ev)
                (if bool_decide (PostAuctionEvent.account ev = []) then []
                 else [ForceWinBid (PostAuctionEvent.account ev)
                         (PostAuctionEvent.winPrice ev)])).
      * cbn [snd trace]. rewrite !bankerCalls_app, bankerCalls_counted. simpl.
        by destruct (bool_decide (_ = [])).
      * done.
      * intros b. cbn [snd submitted]. by destruct (bool_decide (_ = [])).
      * intros b. by destruct (bool_decide (_ = [])).
Qed.

Lemma doCampaignEvent_conserves ev s : conserves s (doCampaignEvent cfg ev s).2.
Proof. apply campaignStep_conserves, doCampaignEvent_step. Qed.

Lemma doEvent_conserves now ev s : conserves s (exec (doEvent cfg now ev) s).
Proof.
  destruct (PostAuctionEvent.type ev) eqn:Hty.
  - unfold doEvent. rewrite exec_tryCatch_ignore, Hty. reflexivity.
  - rewrite doEvent_winLoss by auto. apply doWinLoss_conserves.
  - rewrite doEvent_winLoss by auto. apply doWinLoss_conserves.
  - rewrite doEvent_campaign by done. apply doCampaignEvent_conserves.
Qed.

Lemma sweepCommit_count (b : string) (l : list ((string * string) * (SubmissionInfo.t * Z)))
    (m : gmap (string * string) (SubmissionInfo.t * Z)) :
  NoDup l.*1 → (∀ e, e ∈ l → m !! e.1 = Some e.2) →
  (length (List.filter (isResolution b) (flat_map sweepCommit l))
   + size (filter (awaits b) (foldl (λ m e, delete e.1 m) m l)))%nat
  = size (filter (awaits b) m).
Proof.
  revert m. induction l as [|[k [i t]] l IH]; intros m Hnd Hin; simpl; [done|].
  rewrite fmap_cons in Hnd. apply NoDup_cons in Hnd as [Hk Hnd].
  rewrite List.filter_app, length_app.
  assert (Hk0 : m !! k = Some (i, t)) by (apply (Hin (k, (i, t))); left).
  rewrite <- (count_delete b m k), Hk0.
  rewrite <- (IH (delete k m)); [|done|].
  - assert (E : length (List.filter (isResolution b) (sweepCommit (k, (i, t))))
                = ind b k (Some (i, t))).
    { destruct k as [a sp]. unfold sweepCommit. cbn [fst snd].
      rewrite <- (ind_resolution cfg b a sp i t Amount.zero BS_LOSS "null").
      destruct (reachesGuard sp i); [|done]. unfold bidResultCommit. done. }
    rewrite E. simpl. lia.
  - intros e He. rewrite lookup_delete_ne; [apply Hin; by right|].
    intros ->. apply Hk. apply list_elem_of_fmap. by exists e.
Qed.

Lemma checkExpiredAuctions_conserves now s :
  conserves s (exec (checkExpiredAuctions cfg now) s).
Proof.
  intros b. split.
  - rewrite (resolutions_calls b _ _ _ (checkExpiredAuctions_bankerCalls cfg now s)).
    rewrite List.filter_app, length_app. simpl. rewrite Nat.add_0_r.
    unfold pending. rewrite checkExpiredAuctions_eq. cbn [log submitted].
    rewrite visitedFinished_submitted, visitedSubmitted_submitted.
    rewrite <- (sweepCommit_count b (PendingList.expired (submitted s) now) (submitted s)).
    + lia.
    + apply NoDup_expired_keys.
    + intros [k [i t]] He. by apply elem_of_expired in He as [? _].
  - rewrite (attachments_calls b _ _ _ (checkExpiredAuctions_bankerCalls cfg now s)).
    rewrite List.filter_app, length_app. simpl. rewrite Nat.add_0_r.
    assert (E : List.filter (isAttachment b)
                  (flat_map sweepCommit (PendingList.expired (submitted s) now)) = []).
    { induction (PendingList.expired (submitted s) now) as [|e l IH]; simpl; [done|].
      rewrite List.filter_app, IH, app_nil_r. unfold sweepCommit.
      by destruct (reachesGuard _ _). }
    rewrite E. simpl. lia.
Qed.

Lemma conserves_balanced s s' : conserves s s' → balanced s → balanced s'.
Proof. intros Hc Hb b. destruct (Hc b) as [H1 H2]. specialize (Hb b). lia. Qed.

Lemma doAuction_balanced now sev s :
  balanced s → balanced (exec (doAuction cfg now sev) s).
Proof.
  intros Hb. rewrite doAuction_replay. apply forEach_inv.
  { intros e s1 H1. unfold mbind, M_bind, bind, recordHit, modify.
    pose proof (doWinLoss_conserves now e true (log (RecordHit "replayedEarlyWinEvent") s1))
      as Hc.
    destruct (doWinLoss _ _ _ _ _) as [r s2]. simpl in *.
    eapply conserves_balanced; [exact Hc|]. intros b. specialize (H1 b).
    unfold pending, resolutions, attachments in *. cbn [log trace submitted] in *.
    rewrite bankerCalls_app in *. simpl. by rewrite app_nil_r. }
  intros b. specialize (Hb b).
  set (key := (SubmittedAuctionEvent.auctionId sev, SubmittedAuctionEvent.adSpotId sev)).
  set (attach := AttachBid (Response.account (SubmittedAuctionEvent.bidResponse sev))
                   (makeBidId (SubmittedAuctionEvent.auctionId sev)
                      (SubmittedAuctionEvent.adSpotId sev)
                      (Response.agent (SubmittedAuctionEvent.bidResponse sev)))
                   (Price.maxPrice (Response.price (SubmittedAuctionEvent.bidResponse sev)))).
  assert (Hcalls : bankerCalls (trace (attached sev s)) = bankerCalls (trace s) ++ [attach]).
  { unfold attached. cbn [trace]. rewrite !bankerCalls_app. simpl.
    by destruct (submitted s !! _). }
  rewrite (resolutions_calls b _ _ _ Hcalls), (attachments_calls b _ _ _ Hcalls).
  unfold pending.
  pose proof (count_change b (submitted s) (submitted (attached sev s)) key) as Hc.
  assert (Hne : ∀ k', key ≠ k' → submitted (attached sev s) !! k' = submitted s !! k').
  { intros k' Hk'. unfold attached. cbn [submitted]. fold key.
    by rewrite lookup_insert_ne, lookup_delete_ne. }
  specialize (Hc Hne).
  assert (Hnew : (ind b key (submitted (attached sev s) !! key)
                  ≤ length (List.filter (isAttachment b) [attach]))%nat).
  { unfold attached. cbn [submitted]. fold key. rewrite lookup_insert_eq. simpl.
    case_decide as Ha; [|lia]. destruct Ha as [_ Ha]. unfold bidIdOf in Ha. simpl in Ha.
    rewrite bool_decide_eq_true_2 by done. simpl. lia. }
  simpl List.filter at 1. simpl length at 1. unfold pending in Hb. lia.
Qed.

Lemma balanced_initial : balanced initial.
Proof. intros b. unfold pending, resolutions, attachments. simpl. rewrite map_filter_empty. done. Qed.

Lemma run_balanced ops s : balanced s → balanced (run cfg ops s).
Proof.
  revert s. induction ops as [|o ops IH]; intros s H; [done|].
  apply IH. destruct o as [now sev|now ev|now]; simpl.
  - by apply doAuction_balanced.
  - eapply conserves_balanced; [apply doEvent_conserves|done].
  - eapply conserves_balanced; [apply checkExpiredAuctions_conserves|done].
Qed.
End Conservation.

(** ** The finished entries across a sweep *)

Section SweepFinished.
Variable cfg : Config.


End SweepFinished.

(** * The claims *)

(** C1, as amended.  Of the calls [winBid] and [cancelBid], at most one is
    made for each submission: an event of [doEvent] and a sweep make, under
    every bid id, as many of these calls as submissions with that bid id that
    reach the guard of [doBidResult] leave [submitted], and make no
    [attachBid]; so, over every sequence of submissions, events and sweeps
    from the empty matcher, these calls together with the submissions that
    still await theirs never exceed the [attachBid] calls for the bid id.  A
    submission that is stored with its bid request, a non-null ad spot and a
    non-empty account is resolved with exactly one banker commit: the
    win/loss event that finds it in [submitted] commits [cancelBid], or
    [winBid] when the event is a win, and the key leaves [submitted]; a
    sweep commits one [cancelBid] for each expired submission of that kind
    and nothing else, and every expired key leaves [submitted].  No
    [forceWinBid] is made on these paths. *)
Theorem C1_one_commit_when_resolved (cfg : Config) :
  (∀ now ev s info t,
     PostAuctionEvent.type ev = PAE_WIN ∨ PostAuctionEvent.type ev = PAE_LOSS →
     finished s !! keyOf ev = None →
     submitted s !! keyOf ev = Some (info, t) →
     reachesGuard (PostAuctionEvent.adSpotId ev) info = true →
     let account := Response.account (SubmissionInfo.bid info) in
     let bidId := makeBidId (PostAuctionEvent.auctionId ev) (PostAuctionEvent.adSpotId ev)
                    (Response.agent (SubmissionInfo.bid info)) in
     let s' := exec (doEvent cfg now ev) s in
     (∃ c, commits (trace s') = commits (trace s) ++ [c]
           ∧ (c = CancelBid account bidId
              ∨ ∃ price, PostAuctionEvent.type ev = PAE_WIN ∧ c = WinBid account bidId price))
     ∧ submitted s' !! keyOf ev = None)
  ∧ (∀ start s,
       let s' := exec (checkExpiredAuctions cfg start) s in
       commits (trace s')
       = commits (trace s) ++ flat_map sweepCommit (PendingList.expired (submitted s) start)
       ∧ ∀ k info t,
           submitted s !! k = Some (info, t) → t ≤ start →
           submitted s' !! k = None
           ∧ (k, (info, t)) ∈ PendingList.expired (submitted s) start
           ∧ (reachesGuard k.2 info = true →
              sweepCommit (k, (info, t))
              = [CancelBid (Response.account (SubmissionInfo.bid info))
                   (makeBidId k.1 k.2 (Response.agent (SubmissionInfo.bid info)))]))
  ∧ (∀ now ev s b,
       let s' := exec (doEvent cfg now ev) s in
       (resolutions b (trace s') + pending b s'
        = resolutions b (trace s) + pending b s)%nat
       ∧ attachments b (trace s') = attachments b (trace s))
  ∧ (∀ start s b,
       let s' := exec (checkExpiredAuctions cfg start) s in
       (resolutions b (trace s') + pending b s'
        = resolutions b (trace s) + pending b s)%nat
       ∧ attachments b (trace s') = attachments b (trace s))
  ∧ (∀ ops b,
       let s := run cfg ops initial in
       (resolutions b (trace s) + pending b s ≤ attachments b (trace s))%nat).
Proof.
  split_and!.
  - intros now ev s info t Hty Hf Hs Hg account bidId s'. subst s'.
    rewrite doEvent_winLoss by done.
    rewrite (doWinLoss_delivered cfg now ev false s info t Hf Hs)
      by by eapply reachesGuard_bidRequest.
    split.
    + unfold commits. rewrite bidResult_replay_bankerCalls, Hg.
      cbn [log set_submitted trace].
      rewrite bankerCalls_app, bankerCalls_counted. cbn [bankerCalls omap].
      rewrite app_nil_r, List.filter_app. cbn [List.filter].
      rewrite bidResultCommit_isCommit.
      eexists; split; [done|].
      unfold bidResultCommit, statusOf. case_bool_decide as Hwin; [|by left].
      destruct (bidResultPrice _ _ _ _ _ _); [right; eauto|by left].
    + unfold mbind, M_bind, bind. rewrite doBidResult_local.
      destruct (bidResultRes _ _ _ _ _ _ _ _ _ _ _) as [[]|?];
        [|cbn [snd submitted log set_submitted]; apply lookup_delete_eq].
      match goal with
      | |- context [forEach ?f ?l ?s0] =>
        destruct (forEach_doCampaignEvent_step cfg l s0) as (_ & _ & _ & Hsub & _)
      end.
      specialize (Hsub (keyOf ev)). cbn [submitted log set_submitted] in Hsub.
      rewrite lookup_delete_eq in Hsub. by apply option_Forall2_None_l in Hsub.
  - intros start s s'. subst s'. split; [apply checkExpiredAuctions_commits|].
    intros k info t Hk Ht. split_and!.
    + rewrite sweep_submitted_lookup, Hk. by rewrite bool_decide_eq_true_2.
    + by apply elem_of_expired.
    + intros Hg. unfold sweepCommit. simpl. by rewrite Hg.
  - intros now ev s b. apply doEvent_conserves.
  - intros start s b. apply checkExpiredAuctions_conserves.
  - intros ops b. apply run_balanced, balanced_initial.
Qed.

(** Witness of C1: Submit, then WIN(80). *)
Lemma C1_one_commit_witness :
  finished Sample.afterSubmit !! keyOf (Sample.win 80) = None
  ∧ submitted Sample.afterSubmit !! keyOf (Sample.win 80) = Some (Sample.submission, 15000)
  ∧ reachesGuard "S1" Sample.submission = true
  ∧ (∃ c, commits (trace (exec (doEvent Sample.config 10 (Sample.win 80))
                            Sample.afterSubmit))
          = commits (trace Sample.afterSubmit) ++ [c]
          ∧ (c = CancelBid ["acct"] (makeBidId "A1" "S1" "agent")
             ∨ ∃ price, PAE_WIN = PAE_WIN
                        ∧ c = WinBid ["acct"] (makeBidId "A1" "S1" "agent") price))
  ∧ submitted (exec (doEvent Sample.config 10 (Sample.win 80)) Sample.afterSubmit)
      !! keyOf (Sample.win 80) = None.
Proof.
  assert (H1 : finished Sample.afterSubmit !! keyOf (Sample.win 80) = None)
    by (vm_compute; reflexivity).
  assert (H2 : submitted Sample.afterSubmit !! keyOf (Sample.win 80)
               = Some (Sample.submission, 15000)) by (vm_compute; reflexivity).
  assert (H3 : reachesGuard "S1" Sample.submission = true) by (vm_compute; reflexivity).
  pose proof (proj1 (C1_one_commit_when_resolved Sample.config) 10 (Sample.win 80)
                Sample.afterSubmit Sample.submission 15000
                (or_introl eq_refl) H1 H2 H3) as [H4 H5].
  split_and!; [exact H1|exact H2|exact H3|exact H4|exact H5].
Defined.

(** Counterexample to C1 as stated: Submit, a sweep after the loss timeout
    and a late WIN(50) make two commits for the one submission, [cancelBid]
    and then [forceWinBid]. *)
Lemma C1_two_commits_for_one_submission :
  commits (trace (run Sample.config
                    [OpAuction 0 Sample.submit; OpSweep 20000;
                     OpEvent 30000 (Sample.win 50)] initial))
  = [CancelBid ["acct"] "A1-S1-agent"; ForceWinBid ["acct"] (Sample.usd 50)]
  ∧ ¬ (length (commits (trace (run Sample.config
                    [OpAuction 0 Sample.submit; OpSweep 20000;
                     OpEvent 30000 (Sample.win 50)] initial))) ≤ 1)%nat.
Proof. split; [vm_compute; reflexivity|vm_compute; lia]. Qed.

(** C2, as amended.  When the bid of the submission is a no-bid, [doBidResult]
    raises its exception after the guard has been armed: the state is left
    with exactly one more banker call, [cancelBid(account, bidId)] made by the
    guard, with the error records that precede it, with no outcome and with
    both maps as they were. *)
Theorem C2_noBid_raises_under_guard (cfg : Config) (now : Z) (auctionId adSpotId : Id)
    (submission : SubmissionInfo.t) (winPrice : Amount.t) (timestamp : Z)
    (status : BidStatus) (confidence : Confidence) (winLossMeta : string)
    (uids : UserIds) (s : State) :
  reachesGuard adSpotId submission = true →
  isNoBid (SubmissionInfo.bid submission) = true →
  let cancel := CancelBid (Response.account (SubmissionInfo.bid submission))
                  (makeBidId auctionId adSpotId
                     (Response.agent (SubmissionInfo.bid submission))) in
  let r := doBidResult cfg now auctionId adSpotId submission winPrice timestamp status
             confidence winLossMeta uids s in
  r = (Exc "bid response had no bid price",
       mkState (submitted s) (finished s) (numWins s) (numLosses s) (numCampaignEvents s)
         (trace s ++ bidResultErrors cfg adSpotId submission winPrice ++ [Banker cancel]))
  ∧ bankerCalls (trace r.2) = bankerCalls (trace s) ++ [cancel]
  ∧ outcomes (trace r.2) = outcomes (trace s).
Proof.
  intros Hg Hn cancel r. subst r.
  rewrite doBidResult_noBid by done. split_and!; [done|..]; simpl.
  - rewrite !bankerCalls_app, bidResultErrors_bankerCalls. done.
  - rewrite !outcomes_app, bidResultErrors_outcomes. simpl. by rewrite app_nil_r.
Qed.

(** Witness of C2: the no-bid submission, reported as a win. *)
Lemma C2_noBid_witness :
  reachesGuard "S1" Sample.noBidSubmission = true
  ∧ isNoBid (SubmissionInfo.bid Sample.noBidSubmission) = true
  ∧ bankerCalls
      (trace (doBidResult Sample.config 10 "A1" "S1" Sample.noBidSubmission
                (Sample.usd 80) 10 BS_WIN Guaranteed "{}" [] initial).2)
    = bankerCalls (trace initial) ++ [CancelBid ["acct"] (makeBidId "A1" "S1" "agent")].
Proof.
  assert (H1 : reachesGuard "S1" Sample.noBidSubmission = true) by reflexivity.
  assert (H2 : isNoBid (SubmissionInfo.bid Sample.noBidSubmission) = true) by reflexivity.
  split_and!; [exact H1|exact H2|].
  exact (proj1 (proj2 (C2_noBid_raises_under_guard Sample.config 10 "A1" "S1"
                         Sample.noBidSubmission (Sample.usd 80) 10 BS_WIN Guaranteed
                         "{}" [] initial H1 H2))).
Defined.

(** Counterexample to C2 as stated: on a no-bid, [doBidResult] raises and
    the invocation has made a banker call, the [cancelBid] of its guard. *)
Lemma C2_noBid_makes_a_banker_call :
  (doBidResult Sample.config 10 "A1" "S1" Sample.noBidSubmission
     (Sample.usd 80) 10 BS_WIN Guaranteed "{}" [] initial).1
  = Exc "bid response had no bid price"
  ∧ bankerCalls
      (trace (doBidResult Sample.config 10 "A1" "S1" Sample.noBidSubmission
                (Sample.usd 80) 10 BS_WIN Guaranteed "{}" [] initial).2)
    = [CancelBid ["acct"] "A1-S1-agent"]
  ∧ bankerCalls
      (trace (doBidResult Sample.config 10 "A1" "S1" Sample.noBidSubmission
                (Sample.usd 80) 10 BS_WIN Guaranteed "{}" [] initial).2)
    ≠ [].
Proof. split_and!; [vm_compute; reflexivity..|vm_compute; discriminate]. Qed.




(** C4, as amended.  For a key finished with a win, a duplicate WIN event
    only adds the counters of the event, with [duplicate] or
    [duplicateWithDifferentPrice] last: no outcome, no banker call, both maps
    unchanged.  A duplicate campaign event (the finished entry has its label)
    changes neither map and makes no banker call, but it is reported: with
    the [onUnmatchedEvent] sink set, an [UnmatchedEvent] with reason
    [duplicate] is delivered after the duplicate counter and error record. *)
Theorem C4_duplicates (cfg : Config) (now : Z) (ev : PostAuctionEvent.t) (s : State)
    (info : FinishedInfo.t) :
  let s' := exec (doEvent cfg now ev) s in
  (∀ t,
     PostAuctionEvent.type ev = PAE_WIN →
     finished s !! keyOf ev = Some (info, t) →
     FinishedInfo.hasWin info = true →
     FinishedInfo.reportedStatus info = BS_WIN →
     s' = mkState (submitted s) (finished s) (numWins s + 1) (numLosses s)
            (numCampaignEvents s)
            (trace s
             ++ [RecordHit "processedWin";
                 RecordHit "bidResult.WIN.messagesReceived";
                 RecordHit (if Amount.eqb (PostAuctionEvent.winPrice ev)
                                 (FinishedInfo.winPrice info)
                            then "bidResult.WIN.duplicate"
                            else "bidResult.WIN.duplicateWithDifferentPrice")]))
  ∧ (∀ adSpotId1 adSpotId2,
       PostAuctionEvent.type ev = PAE_CAMPAIGN_EVENT →
       findAuction (submitted s) (PostAuctionEvent.auctionId ev)
         (PostAuctionEvent.adSpotId ev) = (adSpotId1, None) →
       findAuction (finished s) (PostAuctionEvent.auctionId ev) adSpotId1
       = (adSpotId2, Some info) →
       FinishedInfo.hasEvent (PostAuctionEvent.label ev) info = true →
       onUnmatchedEvent cfg = true →
       s' = mkState (submitted s) (finished s) (numWins s) (numLosses s)
              (numCampaignEvents s)
              (trace s
               ++ [RecordHit ("delivery.EVENT." +:+ PostAuctionEvent.label ev
                              +:+ ".messagesReceived");
                   RecordHit ("delivery." +:+ PostAuctionEvent.label ev +:+ ".duplicate");
                   DoError ("doCampaignEvent.duplicate" +:+ PostAuctionEvent.label ev)
                     "message duplicated";
                   Sink (UnmatchedEvent "duplicate" ev)])).
Proof.
  intros s'. split.
  - intros t Hty Hf Hw Hst. subst s'.
    rewrite doEvent_winLoss by auto.
    rewrite (doWinLoss_duplicate cfg now ev false s info t Hf Hw)
      by (unfold statusOf; by rewrite Hty).
    unfold counted, log. rewrite Hty. destruct s as [sm fm nw nl nc tr]. simpl.
    rewrite <- app_assoc. simpl. by destruct (Amount.eqb _ _).
  - intros sp1 sp2 Hty Hs Hf Hl Hu. subst s'.
    rewrite doEvent_campaign by done.
    destruct s as [sm fm nw nl nc tr]. simpl in *.
    unfold doCampaignEvent. msimpl. rewrite Hty. simpl.
    rewrite Hs, Hf, Hl, Hu. msimpl. by rewrite <- !app_assoc.
Qed.

(** Witness of C4: WIN(80) again after Submit and WIN(80), and IMPRESSION
    again after Submit, WIN(80) and IMPRESSION. *)
Lemma C4_duplicates_witness :
  (finished Sample.afterWin !! keyOf (Sample.win 80) = Some (Sample.winInfo, 3600010)
   ∧ FinishedInfo.hasWin Sample.winInfo = true
   ∧ trace (exec (doEvent Sample.config 30 (Sample.win 80)) Sample.afterWin)
     = trace Sample.afterWin
       ++ [RecordHit "processedWin"; RecordHit "bidResult.WIN.messagesReceived";
           RecordHit "bidResult.WIN.duplicate"])
  ∧ (findAuction (submitted Sample.afterImpression) "A1" "S1" = ("S1", None)
     ∧ onUnmatchedEvent Sample.config = true
     ∧ outcomes (trace (exec (doEvent Sample.config 30 Sample.impression)
                          Sample.afterImpression))
       = outcomes (trace Sample.afterImpression)
         ++ [UnmatchedEvent "duplicate" Sample.impression]).
Proof.
  assert (H1 : finished Sample.afterWin !! keyOf (Sample.win 80)
               = Some (Sample.winInfo, 3600010)) by (vm_compute; reflexivity).
  assert (H2 : findAuction (submitted Sample.afterImpression) "A1" "S1" = ("S1", None))
    by (vm_compute; reflexivity).
  assert (H3 : findAuction (finished Sample.afterImpression) "A1" "S1"
               = ("S1", Some (FinishedInfo.setEvent "IMPRESSION" 10 "{}" Sample.winInfo)))
    by (vm_compute; reflexivity).
  split.
  - pose proof (proj1 (C4_duplicates Sample.config 30 (Sample.win 80) Sample.afterWin
                         Sample.winInfo) 3600010 eq_refl H1 eq_refl eq_refl) as H.
    split_and!; [exact H1|reflexivity|].
    exact (f_equal trace H).
  - pose proof (proj2 (C4_duplicates Sample.config 30 Sample.impression
                         Sample.afterImpression
                         (FinishedInfo.setEvent "IMPRESSION" 10 "{}" Sample.winInfo))
                  "S1" "S1" eq_refl H2 H3 eq_refl eq_refl) as H.
    split_and!; [exact H2|reflexivity|].
    rewrite H. cbn [trace]. rewrite outcomes_app. reflexivity.
Defined.

(** Counterexample to C4 as stated: after Submit, WIN(80) and IMPRESSION, a
    second IMPRESSION is a duplicate and an outcome goes through the
    [onUnmatchedEvent] sink. *)
Lemma C4_duplicate_campaign_event_is_reported :
  outcomes (trace (exec (doEvent Sample.config 30 Sample.impression)
                     Sample.afterImpression))
  = outcomes (trace Sample.afterImpression)
    ++ [UnmatchedEvent "duplicate" Sample.impression]
  ∧ outcomes (trace (exec (doEvent Sample.config 30 Sample.impression)
                       Sample.afterImpression))
    ≠ outcomes (trace Sample.afterImpression).
Proof. split; [vm_compute; reflexivity|vm_compute; discriminate]. Qed.

(** C5.  For a key that is in neither map, Submit followed by its WIN, and
    the WIN (within the loss timeout of its bid, so that it is buffered)
    followed by Submit, which replays it, end with the same finished entry for
    the key: the entry that [doBidResult] builds from the submission and the
    win, or no entry in both orders when [doBidResult] raises or the
    submission has no bid request.  In both orders the key has left
    [submitted], when the submission has its bid request. *)
Theorem C5_reorder_invariance (cfg : Config) (s : State) (sev : SubmittedAuctionEvent.t)
    (w : PostAuctionEvent.t) (nowA1 nowA2 nowB1 nowB2 : Z) :
  let key := (SubmittedAuctionEvent.auctionId sev, SubmittedAuctionEvent.adSpotId sev) in
  PostAuctionEvent.type w = PAE_WIN →
  keyOf w = key →
  submitted s !! key = None →
  finished s !! key = None →
  getTimeGapMs nowB1 (PostAuctionEvent.bidTimestamp w) < lossTimeout * 1000 →
  let sA := run cfg [OpAuction nowA1 sev; OpEvent nowA2 w] s in
  let sB := run cfg [OpEvent nowB1 w; OpAuction nowB2 sev] s in
  let submission := submissionOf sev None in
  fst <$> finished sA !! key = fst <$> finished sB !! key
  ∧ fst <$> finished sA !! key
    = (λ price,
         finishedInfoOf (SubmittedAuctionEvent.auctionId sev)
           (SubmittedAuctionEvent.adSpotId sev)
           (spotIndexOf (SubmittedAuctionEvent.adSpotId sev) submission)
           submission BS_WIN (PostAuctionEvent.timestamp w) price
           (PostAuctionEvent.winPrice w) (PostAuctionEvent.metadata w)
           (PostAuctionEvent.uids w))
      <$> bidResultPrice cfg (SubmittedAuctionEvent.adSpotId sev) submission
            (PostAuctionEvent.winPrice w) BS_WIN (PostAuctionEvent.metadata w)
  ∧ (is_Some (SubmittedAuctionEvent.bidRequest sev) →
     submitted sA !! key = None ∧ submitted sB !! key = None).
Proof.
  intros key Hty Hkey Hs Hf Hgap sA sB submission.
  assert (Hst : statusOf w = BS_WIN) by (unfold statusOf; by rewrite Hty).
  assert (Ha : PostAuctionEvent.auctionId w = SubmittedAuctionEvent.auctionId sev)
    by (by injection Hkey).
  assert (Hp : PostAuctionEvent.adSpotId w = SubmittedAuctionEvent.adSpotId sev)
    by (by injection Hkey).
  assert (Hnone : SubmittedAuctionEvent.bidRequest sev = None →
                  ∀ now, bidResultEntry cfg now (SubmittedAuctionEvent.auctionId sev)
                           (SubmittedAuctionEvent.adSpotId sev) submission
                           (PostAuctionEvent.winPrice w) (PostAuctionEvent.timestamp w)
                           BS_WIN (PostAuctionEvent.metadata w) (PostAuctionEvent.uids w)
                         = None).
  { intros Hbr now. unfold bidResultEntry, bidResultPrice. simpl. rewrite Hbr.
    by destruct (isNull _). }
  (* Submit, then WIN *)
  assert (HA : finished sA
               = match bidResultEntry cfg nowA2 (SubmittedAuctionEvent.auctionId sev)
                         (SubmittedAuctionEvent.adSpotId sev) submission
                         (PostAuctionEvent.winPrice w) (PostAuctionEvent.timestamp w)
                         BS_WIN (PostAuctionEvent.metadata w) (PostAuctionEvent.uids w) with
                 | Some e => <[key := e]> (finished s)
                 | None => finished s
                 end
               ∧ (is_Some (SubmittedAuctionEvent.bidRequest sev) →
                  submitted sA !! key = None)).
  { subst sA. unfold run. cbn [foldl step].
    rewrite doEvent_winLoss by auto.
    rewrite doAuction_replay. unfold replayed. fold key. rewrite Hs. cbn [forEach ret snd].
    assert (Hsub : submitted (attached sev s) !! keyOf w
                   = Some (submission, SubmittedAuctionEvent.lossTimeout sev)).
    { rewrite Hkey. unfold attached. fold key. rewrite Hs. apply lookup_insert_eq. }
    assert (Hfin : finished (attached sev s) !! keyOf w = None)
      by (rewrite Hkey; exact Hf).
    destruct (SubmittedAuctionEvent.bidRequest sev) as [br|] eqn:Hbr.
    - edestruct (doWinLoss_delivered_maps cfg nowA2 w false (attached sev s) submission)
        as [H1 H2]; [exact Hfin|exact Hsub| | |].
      + simpl. rewrite Hbr. by eexists.
      + done.
      + rewrite H1, H2, Hst, Hkey, Ha, Hp. split; [done|]. intros _.
        apply lookup_delete_eq.
    - rewrite (doWinLoss_doubled cfg nowA2 w false (attached sev s) submission _ Hfin Hsub)
        by (simpl; by rewrite Hbr).
      rewrite Hnone by done. split; [done|]. by intros [? ?]. }
  (* WIN, then Submit *)
  assert (HB : finished sB
               = match bidResultEntry cfg nowB2 (SubmittedAuctionEvent.auctionId sev)
                         (SubmittedAuctionEvent.adSpotId sev) submission
                         (PostAuctionEvent.winPrice w) (PostAuctionEvent.timestamp w)
                         BS_WIN (PostAuctionEvent.metadata w) (PostAuctionEvent.uids w) with
                 | Some e => <[key := e]> (finished s)
                 | None => finished s
                 end
               ∧ (is_Some (SubmittedAuctionEvent.bidRequest sev) →
                  submitted sB !! key = None)).
  { subst sB. unfold run. cbn [foldl step].
    rewrite (doEvent_winLoss cfg nowB1 w s) by auto.
    rewrite (doWinLoss_buffered cfg nowB1 w false s) by (by rewrite ?Hkey).
    cbn [snd]. rewrite doAuction_replay. unfold replayed. cbn [submitted set_submitted].
    fold key. rewrite Hkey, lookup_insert_eq. cbn [SubmissionInfo.earlyWinEvents
      SubmissionInfo.set_earlyWinEvents].
    rewrite forEach_singleton. unfold mbind, M_bind, bind, recordHit, modify.
    match goal with
    | |- context [doWinLoss cfg nowB2 w true ?s1] => set (s2 := s1)
    end.
    assert (Hsub : submitted s2 !! keyOf w
                   = Some (submission, SubmittedAuctionEvent.lossTimeout sev)).
    { rewrite Hkey. subst s2. unfold attached. cbn [log submitted set_submitted].
      fold key. rewrite !lookup_insert_eq. reflexivity. }
    assert (Hfin : finished s2 !! keyOf w = None) by (rewrite Hkey; exact Hf).
    destruct (SubmittedAuctionEvent.bidRequest sev) as [br|] eqn:Hbr.
    - edestruct (doWinLoss_delivered_maps cfg nowB2 w true s2 submission) as [H1 H2];
        [exact Hfin|exact Hsub| | |].
      + simpl. rewrite Hbr. by eexists.
      + done.
      + rewrite H1, H2, Hst, Hkey, Ha, Hp. split; [done|]. intros _.
        apply lookup_delete_eq.
    - rewrite (doWinLoss_doubled cfg nowB2 w true s2 submission _ Hfin Hsub)
        by (simpl; by rewrite Hbr).
      rewrite Hnone by done. split; [done|]. by intros [? ?]. }
  destruct HA as [HA HA'], HB as [HB HB'].
  assert (HE : ∀ now,
    fst <$> match bidResultEntry cfg now (SubmittedAuctionEvent.auctionId sev)
                    (SubmittedAuctionEvent.adSpotId sev) submission
                    (PostAuctionEvent.winPrice w) (PostAuctionEvent.timestamp w)
                    BS_WIN (PostAuctionEvent.metadata w) (PostAuctionEvent.uids w) with
            | Some e => <[key := e]> (finished s)
            | None => finished s
            end !! key
    = (λ price,
         finishedInfoOf (SubmittedAuctionEvent.auctionId sev)
           (SubmittedAuctionEvent.adSpotId sev)
           (spotIndexOf (SubmittedAuctionEvent.adSpotId sev) submission)
           submission BS_WIN (PostAuctionEvent.timestamp w) price
           (PostAuctionEvent.winPrice w) (PostAuctionEvent.metadata w)
           (PostAuctionEvent.uids w))
      <$> bidResultPrice cfg (SubmittedAuctionEvent.adSpotId sev) submission
            (PostAuctionEvent.winPrice w) BS_WIN (PostAuctionEvent.metadata w)).
  { intros now. unfold bidResultEntry.
    destruct (bidResultPrice _ _ _ _ _ _) as [price|]; simpl.
    - by rewrite lookup_insert_eq.
    - by rewrite Hf. }
  rewrite HA, HB, !HE. split_and!; [done|done|]. intros Hbr. split; auto.
Qed.

(** Witness of C5: Submit at 0 and WIN(80) at 10 ms, against WIN(80) at 5 ms
    and Submit at 2 s. *)
Lemma C5_reorder_witness :
  keyOf (Sample.win 80) = Sample.key
  ∧ submitted initial !! Sample.key = None
  ∧ finished initial !! Sample.key = None
  ∧ getTimeGapMs 5 0 < lossTimeout * 1000
  ∧ fst <$> finished (run Sample.config [OpAuction 0 Sample.submit;
                                         OpEvent 10 (Sample.win 80)] initial) !! Sample.key
    = fst <$> finished (run Sample.config [OpEvent 5 (Sample.win 80);
                                           OpAuction 2000 Sample.submit] initial) !! Sample.key.
Proof.
  assert (H : getTimeGapMs 5 0 < lossTimeout * 1000) by reflexivity.
  split_and!; [reflexivity|reflexivity|reflexivity|exact H|].
  exact (proj1 (C5_reorder_invariance Sample.config initial Sample.submit (Sample.win 80)
                  0 10 5 2000 eq_refl eq_refl eq_refl eq_refl H)).
Defined.

(** C6, as amended.  [doEvent] and the sweep keep the two maps exclusive;
    [doAuction] keeps them exclusive when the key of the submission is not
    finished. *)
Theorem C6_exclusive_preserved (cfg : Config) (now : Z) (s : State) :
  exclusive s →
  (∀ ev, exclusive (exec (doEvent cfg now ev) s))
  ∧ exclusive (exec (checkExpiredAuctions cfg now) s)
  ∧ (∀ sev,
       finished s !! (SubmittedAuctionEvent.auctionId sev,
                      SubmittedAuctionEvent.adSpotId sev) = None →
       exclusive (exec (doAuction cfg now sev) s)).
Proof.
  intros Hex. split_and!.
  - intros ev. eapply slotStep_exclusive; [|done]. intros k. apply doEvent_slot.
  - by apply checkExpiredAuctions_exclusive.
  - intros sev Hf. by apply doAuction_exclusive.
Qed.

(** Witness of C6: the matcher after Submit. *)
Lemma C6_exclusive_witness :
  exclusive Sample.afterSubmit
  ∧ exclusive (exec (doEvent Sample.config 10 (Sample.win 80)) Sample.afterSubmit)
  ∧ exclusive (exec (checkExpiredAuctions Sample.config 20000) Sample.afterSubmit).
Proof.
  pose proof (C6_exclusive_preserved Sample.config 10 Sample.afterSubmit
                exclusive_afterSubmit) as (H1 & _ & _).
  pose proof (C6_exclusive_preserved Sample.config 20000 Sample.afterSubmit
                exclusive_afterSubmit) as (_ & H2 & _).
  split_and!; [exact exclusive_afterSubmit|exact (H1 (Sample.win 80))|exact H2].
Defined.

(** Counterexample to C6 as stated: Submit, WIN(80), and the same Submit
    again; [doAuction] does not look at [finished], and after it the key is
    stored in both maps. *)
Lemma C6_resubmission_in_both_maps :
  exclusive Sample.afterWin
  ∧ is_Some (submitted (exec (doAuction Sample.config 20 Sample.submit) Sample.afterWin)
               !! Sample.key)
  ∧ is_Some (finished (exec (doAuction Sample.config 20 Sample.submit) Sample.afterWin)
               !! Sample.key)
  ∧ ¬ exclusive (exec (doAuction Sample.config 20 Sample.submit) Sample.afterWin).
Proof.
  split_and!.
  - intros k. left. reflexivity.
  - vm_compute. by eexists.
  - vm_compute. by eexists.
  - intros H. destruct (H Sample.key) as [E|E]; vm_compute in E; discriminate.
Qed.




(** C8.  A sweep at [now] removes every expired submitted entry and appends,
    for each, the counter [submittedAuctionExpiry] followed by what
    [doBidResult] appends when it is called with price 0, the sweep time,
    status LOSS, confidence Inferred, meta [null] and no user ids, if the bid
    request is present, and by the counter [submittedAuctionExpiryWithoutBid]
    if it is absent; when [doBidResult] gets to its end and the sink is set,
    the outcome [MatchedWinLoss] of kind [Loss] with confidence [Inferred] is
    among those delivered; the other submitted entries stay.  After the sweep no
    finished entry is expired, and a finished entry that is not expired and
    whose key is not submitted stays.  The banker is called for the cancels of
    the expired submissions and then, last in the trace, for [logBidEvents]. *)
Theorem C8_sweep (cfg : Config) (now : Z) (s : State) :
  let s' := exec (checkExpiredAuctions cfg now) s in
  (∀ k info t,
     submitted s !! k = Some (info, t) → t ≤ now →
     submitted s' !! k = None
     ∧ ∃ pre post,
         trace s'
         = pre
           ++ [RecordHit "submittedAuctionExpiry"]
           ++ match SubmissionInfo.bidRequest info with
              | Some _ =>
                bidResultTrace cfg now k.1 k.2 info Amount.zero now BS_LOSS Inferred
                  "null" []
              | None => [RecordHit "submittedAuctionExpiryWithoutBid"]
              end
           ++ post)
  ∧ (∀ k info t,
       submitted s !! k = Some (info, t) → t ≤ now →
       reachesGuard k.2 info = true → isNoBid (SubmissionInfo.bid info) = false →
       onMatchedWinLoss cfg = true →
       MatchedWinLossOutcome
         (MatchedWinLoss.mk Loss Inferred
            (finishedInfoOf k.1 k.2 (spotIndexOf k.2 info) info BS_LOSS now
               Amount.zero Amount.zero "null" [])
            now [])
       ∈ outcomes (trace s'))
  ∧ (∀ k info t,
       submitted s !! k = Some (info, t) → now < t →
       submitted s' !! k = Some (info, t))
  ∧ (∀ k info t, finished s' !! k = Some (info, t) → now < t)
  ∧ (∀ k info t,
       finished s !! k = Some (info, t) → now < t → submitted s !! k = None →
       finished s' !! k = Some (info, t))
  ∧ bankerCalls (trace s')
    = bankerCalls (trace s)
      ++ flat_map sweepCommit (PendingList.expired (submitted s) now)
      ++ [LogBidEvents]
  ∧ ∃ tr, trace s' = tr ++ [Banker LogBidEvents].
Proof.
  intros s'.
  assert (Hsub : ∀ k, submitted s' !! k
                      = if bool_decide (k ∈ (PendingList.expired (submitted s) now).*1)
                        then None else submitted s !! k).
  { intros k. subst s'. rewrite checkExpiredAuctions_eq. cbn [log submitted].
    rewrite visitedFinished_submitted, visitedSubmitted_submitted.
    apply (foldl_delete_lookup fst). }
  assert (Hseg : ∀ k info t,
     submitted s !! k = Some (info, t) → t ≤ now →
     ∃ pre post,
       trace s'
       = pre
         ++ [RecordHit "submittedAuctionExpiry"]
         ++ match SubmissionInfo.bidRequest info with
            | Some _ =>
              bidResultTrace cfg now k.1 k.2 info Amount.zero now BS_LOSS Inferred
                "null" []
            | None => [RecordHit "submittedAuctionExpiryWithoutBid"]
            end
         ++ post).
  { intros k info t Hk Ht.
    assert (He : (k, (info, t)) ∈ PendingList.expired (submitted s) now)
      by by apply elem_of_expired.
    apply list_elem_of_split in He as (l1 & l2 & Hl).
    subst s'. rewrite checkExpiredAuctions_eq. cbn [log trace].
    rewrite visitedFinished_trace, visitedSubmitted_trace, Hl.
    rewrite flat_map_app. cbn [flat_map fst snd]. rewrite visitTrace_eq.
    destruct (SubmissionInfo.bidRequest info).
    + eexists (trace s ++ flat_map _ l1), _. rewrite <- !app_assoc. reflexivity.
    + eexists (trace s ++ flat_map _ l1), _. rewrite <- !app_assoc. reflexivity. }
  split_and!.
  - intros k info t Hk Ht. split; [|by apply (Hseg k info t)].
    rewrite Hsub, bool_decide_eq_true_2; [done|]. apply expired_key. eauto.
  - intros k info t Hk Ht Hg Hn Hsink.
    destruct (Hseg k info t Hk Ht) as (pre & post & ->).
    destruct (reachesGuard_bidRequest _ _ Hg) as [br ->].
    rewrite !outcomes_app, bidResultTrace_outcomes. unfold bidResultEntry.
    rewrite (bidResultPrice_loss cfg) by done. cbn [mbind option_bind].
    rewrite Hsink, !elem_of_app. right; right; left. apply list_elem_of_singleton.
    done.
  - intros k info t Hk Ht. rewrite Hsub, bool_decide_eq_false_2; [done|].
    rewrite expired_key. intros (v & t' & Hk' & Ht'). simplify_eq. lia.
  - intros k info t Hk. subst s'. rewrite checkExpiredAuctions_eq in Hk.
    cbn [log finished] in Hk. rewrite visitedFinished_finished in Hk.
    rewrite (foldl_delete_lookup fst) in Hk. case_bool_decide as Hin; [done|].
    destruct (decide (t ≤ now)) as [Hle|]; [|lia].
    exfalso. apply Hin, expired_key. eauto.
  - intros k info t Hk Ht Hs. subst s'.
    rewrite checkExpiredAuctions_finished, Hk by done.
    rewrite bool_decide_eq_false_2; [done|lia].
  - apply checkExpiredAuctions_bankerCalls.
  - subst s'. rewrite checkExpiredAuctions_eq. cbn [log trace]. by eexists.
Qed.

(** Witness of C8: the sweep at 20 s after Submit, whose loss timeout is at
    15 s. *)
Lemma C8_sweep_witness :
  submitted Sample.afterSubmit !! Sample.key = Some (Sample.submission, 15000)
  ∧ submitted (exec (checkExpiredAuctions Sample.config 20000) Sample.afterSubmit)
      !! Sample.key = None.
Proof.
  assert (H1 : submitted Sample.afterSubmit !! Sample.key
               = Some (Sample.submission, 15000)) by (vm_compute; reflexivity).
  assert (H2 : 15000 ≤ 20000) by lia.
  split; [exact H1|].
  exact (proj1 (proj1 (C8_sweep Sample.config 20000 Sample.afterSubmit)
                  Sample.key Sample.submission 15000 H1 H2)).
Defined.

(** C9, at the failing input.  With [onUnmatchedEvent] absent, a campaign
    event for an unknown auction makes [doCampaignEvent] call the absent sink:
    it raises instead of dropping the outcome.  For a campaign event whose
    auction is in flight the call comes before the event is buffered, so the
    event is lost, whereas the matcher with the sink buffers it. *)
Theorem C9_absent_unmatched_sink_is_called :
  doCampaignEvent Sample.configNoUnmatched Sample.impression initial
  = (Exc "bad_function_call",
     mkState ∅ ∅ 0 0 0
       [RecordHit "delivery.EVENT.IMPRESSION.messagesReceived";
        RecordHit "delivery.IMPRESSION.auctionNotFound";
        DoError "doCampaignEvent.auctionNotFoundIMPRESSION"
          "auction not found for delivery message"])
  ∧ submitted (exec (doEvent Sample.configNoUnmatched 5 Sample.impression)
                 Sample.afterSubmit) !! Sample.key
    = Some (Sample.submission, 15000)
  ∧ submitted (exec (doEvent Sample.config 5 Sample.impression)
                 Sample.afterSubmit) !! Sample.key
    = Some (SubmissionInfo.set_earlyCampaignEvents [Sample.impression] Sample.submission,
            15000).
Proof. split_and!; vm_compute; reflexivity. Qed.

(** C10.  A win/loss event that finds its submission in [submitted], with a
    bid request, and whose [doBidResult] raises the no-bid exception leaves
    the key in neither map: the submission was popped, nothing is inserted in
    [finished], the buffered campaign events are not replayed and the state
    before the event is not restored (the guard of [doBidResult] has
    cancelled the bid). *)
Theorem C10_noBid_drops_submission (cfg : Config) (now : Z) (ev : PostAuctionEvent.t)
    (s : State) (info : SubmissionInfo.t) (t : Z) :
  PostAuctionEvent.type ev = PAE_WIN ∨ PostAuctionEvent.type ev = PAE_LOSS →
  finished s !! keyOf ev = None →
  submitted s !! keyOf ev = Some (info, t) →
  reachesGuard (PostAuctionEvent.adSpotId ev) info = true →
  isNoBid (SubmissionInfo.bid info) = true →
  let s' := exec (doEvent cfg now ev) s in
  let s1 := counted ev false s in
  s' = mkState (delete (keyOf ev) (submitted s)) (finished s)
         (numWins s1) (numLosses s1) (numCampaignEvents s)
         (trace s1
          ++ [RecordHit ("bidResult." +:+ print (PostAuctionEvent.type ev) +:+ ".delivered")]
          ++ bidResultErrors cfg (PostAuctionEvent.adSpotId ev) info
               (PostAuctionEvent.winPrice ev)
          ++ [Banker (CancelBid (Response.account (SubmissionInfo.bid info))
                        (makeBidId (PostAuctionEvent.auctionId ev)
                           (PostAuctionEvent.adSpotId ev)
                           (Response.agent (SubmissionInfo.bid info))))])
  ∧ submitted s' !! keyOf ev = None
  ∧ finished s' !! keyOf ev = None
  ∧ numCampaignEvents s' = numCampaignEvents s
  ∧ outcomes (trace s') = outcomes (trace s).
Proof.
  intros Hty Hf Hs Hg Hn s' s1.
  assert (s' = mkState (delete (keyOf ev) (submitted s)) (finished s)
         (numWins s1) (numLosses s1) (numCampaignEvents s)
         (trace s1
          ++ [RecordHit ("bidResult." +:+ print (PostAuctionEvent.type ev) +:+ ".delivered")]
          ++ bidResultErrors cfg (PostAuctionEvent.adSpotId ev) info
               (PostAuctionEvent.winPrice ev)
          ++ [Banker (CancelBid (Response.account (SubmissionInfo.bid info))
                        (makeBidId (PostAuctionEvent.auctionId ev)
                           (PostAuctionEvent.adSpotId ev)
                           (Response.agent (SubmissionInfo.bid info))))])) as ->.
  { subst s' s1. rewrite doEvent_winLoss by done.
    rewrite (doWinLoss_delivered cfg now ev false s info t Hf Hs)
      by by eapply reachesGuard_bidRequest.
    unfold mbind, M_bind, bind. rewrite doBidResult_noBid by done.
    simpl. by rewrite <- !app_assoc. }
  split_and!; [done|apply lookup_delete_eq|done|done|].
  subst s1. cbn [trace].
  rewrite !outcomes_app, outcomes_counted, bidResultErrors_outcomes.
  simpl. by rewrite app_nil_r.
Qed.

(** Witness of C10: Submit of a no-bid response, then WIN(80). *)
Lemma C10_noBid_witness :
  finished Sample.afterSubmitNoBid !! keyOf (Sample.win 80) = None
  ∧ submitted Sample.afterSubmitNoBid !! keyOf (Sample.win 80)
    = Some (Sample.noBidSubmission, 15000)
  ∧ reachesGuard "S1" Sample.noBidSubmission = true
  ∧ isNoBid (SubmissionInfo.bid Sample.noBidSubmission) = true
  ∧ submitted (exec (doEvent Sample.config 10 (Sample.win 80)) Sample.afterSubmitNoBid)
      !! keyOf (Sample.win 80) = None
  ∧ finished (exec (doEvent Sample.config 10 (Sample.win 80)) Sample.afterSubmitNoBid)
      !! keyOf (Sample.win 80) = None.
Proof.
  assert (H1 : finished Sample.afterSubmitNoBid !! keyOf (Sample.win 80) = None)
    by (vm_compute; reflexivity).
  assert (H2 : submitted Sample.afterSubmitNoBid !! keyOf (Sample.win 80)
               = Some (Sample.noBidSubmission, 15000)) by (vm_compute; reflexivity).
  assert (H3 : reachesGuard "S1" Sample.noBidSubmission = true) by reflexivity.
  assert (H4 : isNoBid (SubmissionInfo.bid Sample.noBidSubmission) = true) by reflexivity.
  pose proof (C10_noBid_drops_submission Sample.config 10 (Sample.win 80)
                Sample.afterSubmitNoBid Sample.noBidSubmission 15000
                (or_introl eq_refl) H1 H2 H3 H4) as (_ & H5 & H6 & _).
  split_and!; [exact H1|exact H2|exact H3|exact H4|exact H5|exact H6].
Defined.
